(** * The Solidity build driver: planner, cache gate, dispatcher, writer

    A shallow embedding of [Compiler] (compiler.ts) and [JSONCompiler]
    (json_compiler.ts).  JavaScript objects whose key order is observed
    ([Object.keys], [for .. of]) are insertion-ordered association lists;
    objects that are only read and written by key are [gmap]s.  Exceptions
    are an error result, and everything a method mutates on [this] or on
    disk is threaded through a state record that survives a throw.

    Keys of the modelled objects are version strings, absolute paths and
    contract names: none of them is an array index or a member of
    [Object.prototype], so own-property lookup and insertion order are the
    whole story. *)

From Stdlib Require Import Ascii.
From stdpp Require Import gmap strings list fin_maps.

(** ** JavaScript objects with observable key order *)

Module JsObj.

Section obj.
Context {V : Type}.

(** [o[k]] *)
Fixpoint get (k : string) (o : list (string * V)) : option V :=
  match o with
  | [] => None
  | (k', v) :: o' => if decide (k = k') then Some v else get k o'
  end.

(** [o[k] = v]: an existing key keeps its position, a new one goes last. *)
Fixpoint set (k : string) (v : V) (o : list (string * V)) : list (string * V) :=
  match o with
  | [] => [(k, v)]
  | (k', v') :: o' =>
      if decide (k = k') then (k, v) :: o' else (k', v') :: set k v o'
  end.

(** [Object.keys(o)] *)
Definition keys (o : list (string * V)) : list string := map fst o.

(** [_.values(o)] *)
Definition values (o : list (string * V)) : list V := map snd o.

End obj.

End JsObj.

Abbreviation JsObject V := (list (string * V)).

(** ** Errors

    The source throws plain [Error]s told apart by their message; the
    constructors carry the names of the specification's taxonomy.
    [TypeError] is what the engine raises when a property is read on
    [undefined]. *)

Inductive Error : Type :=
| NameResolutionError (name : string)
| UnsatisfiableVersionError (range : string)
| UnsupportedVersionError (version : string)
| CompilationError (errorsCount : nat)
| MissingContractError (contractName contractPath : string)
| TypeError
| SyntaxError.

Inductive result (A : Type) : Type :=
| Ok (a : A)
| Throw (e : Error).

Arguments Ok {A} a.
Arguments Throw {A} e.

(** ** Back-end wrappers *)

Inductive Family : Type := V01 | V02 | V03 | V04 | V05 | V06 | V07 | V08.

Global Instance Family_eq_dec : EqDecision Family.
Proof. solve_decision. Defined.

(** The [startsWith] argument of each arm of [_createSolcInstance]. *)
Definition familyPrefix (f : Family) : string :=
  match f with
  | V01 => "0.1."
  | V02 => "0.2."
  | V03 => "0.3."
  | V04 => "0.4."
  | V05 => "0.5."
  | V06 => "0.6"
  | V07 => "0.7"
  | V08 => "0.8"
  end.

(** A wrapper object: [wrapperId] is its identity on the heap (the
    position of its [new] among the driver's allocations), the other two
    fields are the class and the constructor argument. *)
Record SolcWrapper : Type := {
  wrapperId : nat;
  wrapperFamily : Family;
  wrapperVersion : string
}.

Global Instance SolcWrapper_eq_dec : EqDecision SolcWrapper.
Proof. solve_decision. Defined.

Definition startsWith (s p : string) : bool := String.prefix p s.

(** ** Project data *)

(** A resolved source record of @0x/sol-resolver. *)
Record ContractSource : Type := {
  path : string;
  absolutePath : string;
  source : string
}.

(** Opaque JSON values that the driver only moves around. *)
Abbreviation Settings := string (only parsing).
Abbreviation CompiledContract := string (only parsing).
Abbreviation SourceMetadata := string (only parsing).

Record StandardInput : Type := {
  settings : Settings
}.

(** Both keys are always present here.  An output from which the back-end
    leaves [contracts] out, as it does for sources that declare no
    contract, is not covered. *)
Record StandardOutput : Type := {
  contracts : JsObject (JsObject CompiledContract);
  sources : JsObject SourceMetadata
}.

(** What [SolcWrapper.compileAsync] resolves to. *)
Record CompilationResult : Type := {
  input : StandardInput;
  output : StandardOutput
}.

Record CompilerInfo : Type := {
  name : string;
  version : string;
  compilerSettings : Settings
}.

(** An artifact file.  [artifactSources] is absent in the artifacts of the
    JSON driver, [artifactSourceTreeHashHex] is read by the cache gate and
    is [undefined] when the file does not carry the key. *)
Record ContractArtifact : Type := {
  schemaVersion : string;
  artifactContractName : string;
  compilerOutput : option CompiledContract;
  artifactSources : option (JsObject SourceMetadata);
  compiler : CompilerInfo;
  artifactSourceTreeHashHex : option string
}.

Record ContractData : Type := {
  currentArtifactIfExists : option ContractArtifact;
  sourceTreeHashHex : string;
  contractName : string
}.

(** [ContractContentsByPath]: one compilation unit. *)
Abbreviation ContractContentsByPath := (JsObject string) (only parsing).

(** [CompilationUnitsByVersion]: the plan. *)
Abbreviation CompilationUnitsByVersion := (JsObject (list ContractContentsByPath))
  (only parsing).

(** One recorded call of [compileAsync]: receiver and both arguments. *)
Record CompileCall : Type := {
  callWrapper : SolcWrapper;
  callContracts : ContractContentsByPath;
  callRemappings : JsObject string
}.

(** What one planning step learns from the spy resolver: the root that
    [spyResolver.resolve] returned, the digest [getSourceTreeHash] computed
    (as hex digits), and [spyResolver.resolvedContractSources] afterwards. *)
Record SpyWalk : Type := {
  contractSource : ContractSource;
  sourceTreeHash : string;
  resolvedContractSources : list ContractSource
}.

(** ** Driver state

    [solcWrappersByVersion] is the private registry of the driver,
    [allocated] counts the wrapper objects constructed so far,
    [artifactFiles] is the content of the file system by path (an artifact
    file is identified with the record it serialises), and [compileCalls]
    is the history of back-end invocations, oldest first. *)
Record DriverState : Type := {
  solcWrappersByVersion : gmap string SolcWrapper;
  allocated : nat;
  artifactFiles : gmap string ContractArtifact;
  compileCalls : list CompileCall
}.

Definition Driver (A : Type) : Type := DriverState -> result A * DriverState.

Global Instance Driver_ret : MRet Driver := fun A a st => (Ok a, st).

Global Instance Driver_bind : MBind Driver := fun A B k m st =>
  match m st with
  | (Ok a, st') => k a st'
  | (Throw e, st') => (Throw e, st')
  end.

Definition throw {A : Type} (e : Error) : Driver A := fun st => (Throw e, st).

(** Lifts a computation that reads no state. *)
Definition liftResult {A : Type} (r : result A) : Driver A := fun st => (r, st).

(** [for (const x of l) { s = body(s, x) }] with the loop-carried locals
    in [s]; a throw leaves the loop. *)
Fixpoint forOf {A S : Type} (body : S -> A -> Driver S) (s : S) (l : list A) : Driver S :=
  match l with
  | [] => mret s
  | x :: l' => s' ← body s x; forOf body s' l'
  end.

(** ** External collaborators

    Everything the two drivers import from modules outside the files
    embedded here: utils/compiler, utils/constants, the wrapper classes,
    @0x/sol-resolver, semver and path. *)
Record Collaborators : Type := {
  (** utils/compiler *)
  normalizeSolcVersion : string -> string;
  getSolcJSVersionFromPath : string -> string;
  parseSolidityVersionRange : string -> string;
  getContractArtifactIfExists :
    gmap string ContractArtifact -> string -> string -> option ContractArtifact;
  getDependencyNameToPackagePath : list ContractSource -> JsObject string;
  (** [(await getSolcJSVersionListAsync(..)).releases] *)
  releases : JsObject string;
  (** utils/constants *)
  LATEST_ARTIFACT_VERSION : string;
  SOLIDITY_FILE_EXTENSION : string;
  JSON_FILE_EXTENSION : string;
  (** [path.basename(p, ext)] and [path.resolve(p)] *)
  basename : string -> string -> string;
  pathResolve : string -> string;
  (** semver: [new Range(r).test(v)] and [new SemVer(a).compare(b) === -1] *)
  rangeTest : string -> string -> bool;
  semverLt : string -> string -> bool;
  (** a fresh [SpyResolver] over the default chain, [resolve] then
      [getSourceTreeHash] *)
  spyWalk : string -> result SpyWalk;
  (** [nameResolver.getAll()] *)
  getAll : list ContractSource;
  (** the JSON driver: [getAll] and [spyResolver.resolve] over a
      [JSONNameResolver] on the project directory, and [JSON.parse] of a
      bundle followed by the projection to [path -> content] *)
  getAllJSON : list ContractSource;
  resolveJSON : string -> result ContractSource;
  contractContentsOfBundle : string -> result ContractContentsByPath;
  (** the wrapper classes *)
  solcCompileAsync :
    SolcWrapper -> ContractContentsByPath -> JsObject string -> result CompilationResult;
  areCompilerSettingsDifferent : SolcWrapper -> Settings -> bool
}.

(** The same collaborators with another reader of existing artifacts. *)
Definition withArtifactReader (E : Collaborators)
    (reader : gmap string ContractArtifact -> string -> string -> option ContractArtifact)
  : Collaborators :=
  {| normalizeSolcVersion := normalizeSolcVersion E;
     getSolcJSVersionFromPath := getSolcJSVersionFromPath E;
     parseSolidityVersionRange := parseSolidityVersionRange E;
     getContractArtifactIfExists := reader;
     getDependencyNameToPackagePath := getDependencyNameToPackagePath E;
     releases := releases E;
     LATEST_ARTIFACT_VERSION := LATEST_ARTIFACT_VERSION E;
     SOLIDITY_FILE_EXTENSION := SOLIDITY_FILE_EXTENSION E;
     JSON_FILE_EXTENSION := JSON_FILE_EXTENSION E;
     basename := basename E;
     pathResolve := pathResolve E;
     rangeTest := rangeTest E;
     semverLt := semverLt E;
     spyWalk := spyWalk E;
     getAll := getAll E;
     getAllJSON := getAllJSON E;
     resolveJSON := resolveJSON E;
     contractContentsOfBundle := contractContentsOfBundle E;
     solcCompileAsync := solcCompileAsync E;
     areCompilerSettingsDifferent := areCompilerSettingsDifferent E |}.

(** [semver.maxSatisfying(versions, range)]: the scan of
    semver/ranges/max-satisfying.js.  A range that does not parse tests
    [false] on every version, which gives the [null] of its [catch]. *)
Definition maxSatisfyingStep (E : Collaborators) (range : string)
    (max : option string) (v : string) : option string :=
  if rangeTest E range v then
    match max with
    | None => Some v
    | Some m => if semverLt E m v then Some v else max
    end
  else max.

Definition maxSatisfying (E : Collaborators) (versions : list string) (range : string)
  : option string :=
  fold_left (maxSatisfyingStep E range) versions None.

(** Truthiness of a [string | undefined]. *)
Definition truthy (s : option string) : option string :=
  match s with
  | Some v => if decide (v = "") then None else Some v
  | None => None
  end.

(** [Promise.all]: the values in order, or the rejection of the first
    element (in order) that rejected.  In the source the rejection that
    wins is the first in time; which error a failed dispatch reports when
    several units fail is therefore not settled by this definition. *)
Fixpoint promiseAll {A : Type} (l : list (result A)) : result (list A) :=
  match l with
  | [] => Ok []
  | Ok a :: l' =>
      match promiseAll l' with
      | Ok l'' => Ok (a :: l'')
      | Throw e => Throw e
      end
  | Throw e :: _ => Throw e
  end.

(** Options as the caller passes them: an absent key is [None]. *)
Inductive SpecifiedContracts : Type :=
| ALL_CONTRACTS_IDENTIFIER
| ContractNames (names : list string).

Module CompilerOptions.
Record t : Type := {
  artifactsDir : option string;
  contracts : option SpecifiedContracts;
  solcVersion : option string;
  shouldCompileIndependently : option bool
}.
End CompilerOptions.

Record CompileContractsOpts : Type := {
  shouldCompileIndependently : bool;
  shouldPersist : bool
}.

(** The fields of a driver instance that its methods read. *)
Record DriverFields : Type := {
  _artifactsDir : string;
  _solcVersionIfExists : option string;
  _specifiedContracts : SpecifiedContracts;
  _shouldCompileIndependently : bool
}.

(** The registry and the file system are the same in both drivers. *)
Definition setWrappers (st : DriverState) (ws : gmap string SolcWrapper) (n : nat) : DriverState :=
  {| solcWrappersByVersion := ws; allocated := n;
     artifactFiles := artifactFiles st; compileCalls := compileCalls st |}.

Definition setFiles (st : DriverState) (fs : gmap string ContractArtifact) : DriverState :=
  {| solcWrappersByVersion := solcWrappersByVersion st; allocated := allocated st;
     artifactFiles := fs; compileCalls := compileCalls st |}.

Definition addCall (st : DriverState) (c : CompileCall) : DriverState :=
  {| solcWrappersByVersion := solcWrappersByVersion st; allocated := allocated st;
     artifactFiles := artifactFiles st; compileCalls := compileCalls st ++ [c] |}.

(** [new SolcWrapperVxx(solcVersion, this._opts)] *)
Definition newSolcWrapper (f : Family) (solcVersion : string) : Driver SolcWrapper :=
  fun st =>
    (Ok {| wrapperId := allocated st; wrapperFamily := f; wrapperVersion := solcVersion |},
     setWrappers st (solcWrappersByVersion st) (S (allocated st))).

(** Lines 417-443. *)
Definition _createSolcInstance (solcVersion : string) : Driver SolcWrapper :=
  if startsWith solcVersion "0.1." then newSolcWrapper V01 solcVersion
  else if startsWith solcVersion "0.2." then newSolcWrapper V02 solcVersion
  else if startsWith solcVersion "0.3." then newSolcWrapper V03 solcVersion
  else if startsWith solcVersion "0.4." then newSolcWrapper V04 solcVersion
  else if startsWith solcVersion "0.5." then newSolcWrapper V05 solcVersion
  else if startsWith solcVersion "0.6" then newSolcWrapper V06 solcVersion
  else if startsWith solcVersion "0.7" then newSolcWrapper V07 solcVersion
  else if startsWith solcVersion "0.8" then newSolcWrapper V08 solcVersion
  else throw (UnsupportedVersionError solcVersion).

(** Some arm of [_createSolcInstance] matches. *)
Definition supported (solcVersion : string) : Prop :=
  exists f, startsWith solcVersion (familyPrefix f) = true.

(** Lines 409-415. *)
Definition _getSolcWrapperForVersion (E : Collaborators) (solcVersion : string)
  : Driver SolcWrapper :=
  let normalizedVersion := normalizeSolcVersion E solcVersion in
  fun st =>
    match solcWrappersByVersion st !! normalizedVersion with
    | Some w => (Ok w, st)
    | None =>
        match _createSolcInstance normalizedVersion st with
        | (Ok w, st') =>
            (Ok w, setWrappers st' (<[normalizedVersion := w]> (solcWrappersByVersion st'))
                               (allocated st'))
        | (Throw e, st') => (Throw e, st')
        end
    end.

(** What holds of a registry that only [_getSolcWrapperForVersion] has
    written: an entry sits under the version it was constructed with, its
    class is the one of a matching arm, and it was allocated by this driver. *)
Definition registryOk (st : DriverState) : Prop :=
  forall k w, solcWrappersByVersion st !! k = Some w ->
    wrapperVersion w = k
    /\ startsWith k (familyPrefix (wrapperFamily w)) = true
    /\ wrapperId w < allocated st.

(** [fsWrapper.writeFileAsync(path, stringify(artifact))] *)
Definition writeFileAsync (p : string) (a : ContractArtifact) : Driver unit :=
  fun st => (Ok tt, setFiles st (<[p := a]> (artifactFiles st))).

(** [wrapper.compileAsync(contracts, remappings)] as a call that is issued
    now and whose promise settles to the returned [result]. *)
Definition issueCompile (E : Collaborators) (solc : SolcWrapper)
    (remappings : JsObject string) (contractsByPath : ContractContentsByPath)
  : DriverState -> result CompilationResult * DriverState :=
  fun st =>
    (solcCompileAsync E solc contractsByPath remappings,
     addCall st {| callWrapper := solc; callContracts := contractsByPath;
                   callRemappings := remappings |}).

(** The constructor of either driver (lines 140-155), for options that
    conform to the schema; [defaultArtifactsDir] is the one entry of
    [DEFAULT_COMPILER_OPTS] in which the two drivers differ. *)
Definition construct (E : Collaborators) (SOLCJS_PATH : option string)
    (opts : CompilerOptions.t) (defaultArtifactsDir : string) : DriverFields :=
  {| _artifactsDir := default defaultArtifactsDir (CompilerOptions.artifactsDir opts);
     _solcVersionIfExists :=
       match SOLCJS_PATH with
       | Some p => Some (getSolcJSVersionFromPath E p)
       | None => CompilerOptions.solcVersion opts
       end;
     _specifiedContracts :=
       default ALL_CONTRACTS_IDENTIFIER (CompilerOptions.contracts opts);
     _shouldCompileIndependently :=
       default false (CompilerOptions.shouldCompileIndependently opts) |}.

(** ** compiler.ts *)

Module Compiler.

Section driver.
Context (E : Collaborators).

Definition DEFAULT_artifactsDir : string := pathResolve E "artifacts".

Definition new (SOLCJS_PATH : option string) (opts : CompilerOptions.t) : DriverFields :=
  construct E SOLCJS_PATH opts DEFAULT_artifactsDir.

Definition getContractNamesToCompile (this : DriverFields) : list string :=
  match _specifiedContracts this with
  | ALL_CONTRACTS_IDENTIFIER =>
      map (fun contractSource => basename E (path contractSource) (SOLIDITY_FILE_EXTENSION E))
          (getAll E)
  | ContractNames names => names
  end.

(** Lines 396-407. *)
Definition _shouldCompile (contractData : ContractData) : Driver bool :=
  match currentArtifactIfExists contractData with
  | None => mret true
  | Some currentArtifact =>
      solc ← _getSolcWrapperForVersion E (version (compiler currentArtifact));
      let isUserOnLatestVersion :=
        bool_decide (schemaVersion currentArtifact = LATEST_ARTIFACT_VERSION E) in
      let didCompilerSettingsChange :=
        areCompilerSettingsDifferent E solc (compilerSettings (compiler currentArtifact)) in
      let didSourceChange :=
        negb (bool_decide (artifactSourceTreeHashHex currentArtifact
                           = Some (sourceTreeHashHex contractData))) in
      mret (negb isUserOnLatestVersion || didCompilerSettingsChange || didSourceChange)
  end.

(** The locals of [_compileContractsAsync] that the planning loop updates. *)
Record Plan : Type := {
  compilationUnitsByVersion : CompilationUnitsByVersion;
  contractPathToData : gmap string ContractData;
  allResolvedContractSources : list ContractSource
}.

Definition emptyPlan : Plan :=
  {| compilationUnitsByVersion := [];
     contractPathToData := ∅;
     allResolvedContractSources := [] |}.

(** Lines 289-307: the pin if it is truthy, else the release that
    [maxSatisfying] picks; [undefined] becomes the throw of line 302. *)
Definition chooseSolcVersion (this : DriverFields) (contractSource : ContractSource)
  : result string :=
  let range := parseSolidityVersionRange E (source contractSource) in
  match truthy (_solcVersionIfExists this) with
  | Some pin => Ok pin
  | None =>
      match truthy (maxSatisfying E (JsObj.keys (releases E)) range) with
      | Some solidityVersion =>
          match JsObj.get solidityVersion (releases E) with
          | Some full => Ok (normalizeSolcVersion E full)
          | None => Throw TypeError
          end
      | None => Throw (UnsatisfiableVersionError range)
      end
  end.

(** [unit[rcs.absolutePath] = rcs.source] for every recorded source. *)
Definition fillUnit (unit_ : ContractContentsByPath) (rcss : list ContractSource)
  : ContractContentsByPath :=
  fold_left (fun u rcs => JsObj.set (absolutePath rcs) (source rcs) u) rcss unit_.

(** Lines 309-324 on the array [units] of one version. *)
Definition placeInUnits (independently : bool) (units : list ContractContentsByPath)
    (rcss : list ContractSource) : list ContractContentsByPath :=
  if independently then units ++ [fillUnit [] rcss]
  else
    match units with
    | [] => [fillUnit [] rcss]
    | unit0 :: rest => fillUnit unit0 rcss :: rest
    end.

(** One iteration of the planning loop (lines 276-325). *)
Definition planContract (this : DriverFields) (independently : bool)
    (plan : Plan) (contractName_ : string) : Driver Plan :=
  walk ← liftResult (spyWalk E contractName_);
  let contractSource_ := contractSource walk in
  artifact ← (fun st =>
     (Ok (getContractArtifactIfExists E (artifactFiles st) (_artifactsDir this) contractName_), st));
  let contractData :=
    {| contractName := basename E contractName_ (SOLIDITY_FILE_EXTENSION E);
       currentArtifactIfExists := artifact;
       sourceTreeHashHex := "0x" +:+ sourceTreeHash walk |} in
  should ← _shouldCompile contractData;
  if negb should then mret plan
  else
    let pathToData :=
      <[absolutePath contractSource_ := contractData]> (contractPathToData plan) in
    solcVersion ← liftResult (chooseSolcVersion this contractSource_);
    let units := default [] (JsObj.get solcVersion (compilationUnitsByVersion plan)) in
    let units' := placeInUnits independently units (resolvedContractSources walk) in
    mret {| compilationUnitsByVersion :=
              JsObj.set solcVersion units' (compilationUnitsByVersion plan);
            contractPathToData := pathToData;
            allResolvedContractSources :=
              allResolvedContractSources plan ++ resolvedContractSources walk |}.

Definition planContracts (this : DriverFields) (independently : bool)
    (contractNames : list string) : Driver Plan :=
  forOf (planContract this independently) emptyPlan contractNames.

(** The callback of [versions.map] (lines 335-347): the wrapper lookup may
    throw before any call is issued; otherwise every unit's call is issued
    and the promise of the version is their [Promise.all]. *)
Fixpoint issueUnits (solc : SolcWrapper) (remappings : JsObject string)
    (units : list ContractContentsByPath) (st : DriverState)
  : list (result CompilationResult) * DriverState :=
  match units with
  | [] => ([], st)
  | u :: units' =>
      let '(r, st1) := issueCompile E solc remappings u st in
      let '(rs, st2) := issueUnits solc remappings units' st1 in
      (r :: rs, st2)
  end.

Definition dispatchVersion (plan : Plan) (remappings : JsObject string)
    (solcVersion : string) (st : DriverState)
  : result (list CompilationResult) * DriverState :=
  let units := default [] (JsObj.get solcVersion (compilationUnitsByVersion plan)) in
  match _getSolcWrapperForVersion E solcVersion st with
  | (Ok solc, st1) =>
      let '(rs, st2) := issueUnits solc remappings units st1 in
      (promiseAll rs, st2)
  | (Throw e, st1) => (Throw e, st1)
  end.

Fixpoint dispatchVersions (plan : Plan) (remappings : JsObject string)
    (versions : list string) (st : DriverState)
  : list (result (list CompilationResult)) * DriverState :=
  match versions with
  | [] => ([], st)
  | v :: versions' =>
      let '(r, st1) := dispatchVersion plan remappings v st in
      let '(rs, st2) := dispatchVersions plan remappings versions' st1 in
      (r :: rs, st2)
  end.

(** [await Promise.all(versions.map(..))] *)
Definition dispatch (plan : Plan) (remappings : JsObject string) (versions : list string)
  : Driver (list (list CompilationResult)) :=
  fun st =>
    let '(rs, st') := dispatchVersions plan remappings versions st in
    (promiseAll rs, st').

(** [(contracts[contractPath] || contracts[''])] *)
Definition contractsOfPath (compilerOutput_ : StandardOutput) (contractPath : string)
  : option (JsObject CompiledContract) :=
  match JsObj.get contractPath (contracts compilerOutput_) with
  | Some byName => Some byName
  | None => JsObj.get "" (contracts compilerOutput_)
  end.

Definition newArtifact (contractName_ solcVersion : string)
    (compiledContract : option CompiledContract)
    (compilerInput : StandardInput) (compilerOutput_ : StandardOutput) : ContractArtifact :=
  {| schemaVersion := LATEST_ARTIFACT_VERSION E;
     artifactContractName := contractName_;
     compilerOutput := compiledContract;
     artifactSources := Some (sources compilerOutput_);
     compiler := {| name := "solc"; version := solcVersion;
                    compilerSettings := settings compilerInput |};
     artifactSourceTreeHashHex := None |}.

Definition currentArtifactPath (this : DriverFields) (contractFileName contractName_ : string)
  : string :=
  _artifactsDir this +:+ "/" +:+ (contractFileName +:+ "-" +:+ contractName_) +:+ ".json".

(** Lines 445-503.  Without the anonymous source, one file per listed
    source, named after the requested name and the source; with it, the
    single-source shape of the oldest back-ends. *)
Definition _persistCompiledContractAsync (this : DriverFields)
    (contractFileName solcVersion : string)
    (compilerInput : StandardInput) (compilerOutput_ : StandardOutput) : Driver unit :=
  match JsObj.get "" (sources compilerOutput_) with
  | None =>
      forOf (fun _ contractPath =>
          let contractName_ := basename E contractPath (SOLIDITY_FILE_EXTENSION E) in
          match contractsOfPath compilerOutput_ contractPath with
          | None => throw TypeError
          | Some byName =>
              let compiledContract := JsObj.get contractName_ byName in
              writeFileAsync (currentArtifactPath this contractFileName contractName_)
                (newArtifact contractName_ solcVersion compiledContract
                   compilerInput compilerOutput_)
          end)
        tt (JsObj.keys (sources compilerOutput_))
  | Some _ =>
      let contractName_ := contractFileName in
      match JsObj.get "" (contracts compilerOutput_) with
      | None => throw TypeError
      | Some byName =>
          let compiledContract := JsObj.get contractName_ byName in
          writeFileAsync (currentArtifactPath this contractFileName contractName_)
            (newArtifact contractName_ solcVersion compiledContract
               compilerInput compilerOutput_)
      end
  end.

(** The body of the innermost writer loop (lines 362-389);
    [artifactCache] is the loop-carried [PersistedArtifactCache]. *)
Definition writeContract (this : DriverFields) (pathToData : gmap string ContractData)
    (solcVersion : string) (compilationResult : CompilationResult) (unitSize : nat)
    (artifactCache : gmap string nat) (contractPath : string) : Driver (gmap string nat) :=
  match pathToData !! contractPath with
  | None => mret artifactCache
  | Some contractData =>
      let contractName_ := contractName contractData in
      match contractsOfPath (output compilationResult) contractPath with
      | None => throw TypeError
      | Some byName =>
          match JsObj.get contractName_ byName with
          | None => throw (MissingContractError contractName_ contractPath)
          | Some _ =>
              let written :=
                match artifactCache !! contractPath with
                | Some size => bool_decide (size <= unitSize)
                | None => false
                end in
              if written then mret artifactCache
              else
                _persistCompiledContractAsync this contractName_ solcVersion
                  (input compilationResult) (output compilationResult);;
                mret (<[contractPath := unitSize]> artifactCache)
          end
      end
  end.

(** The loop over [j]: [units[j]] with [compilationResults[i][j]]. *)
Definition writeUnit (this : DriverFields) (pathToData : gmap string ContractData)
    (solcVersion : string) (artifactCache : gmap string nat)
    (unitAndResult : ContractContentsByPath * CompilationResult) : Driver (gmap string nat) :=
  let '(contracts_, compilationResult) := unitAndResult in
  let unitSize := length (JsObj.keys contracts_) in
  forOf (writeContract this pathToData solcVersion compilationResult unitSize)
        artifactCache (JsObj.keys contracts_).

(** The loop over [i]: [versions[i]] with [compilationResults[i]]. *)
Definition writeVersion (this : DriverFields) (plan : Plan)
    (artifactCache : gmap string nat)
    (versionAndResults : string * list CompilationResult) : Driver (gmap string nat) :=
  let '(solcVersion, results) := versionAndResults in
  let units := default [] (JsObj.get solcVersion (compilationUnitsByVersion plan)) in
  forOf (writeUnit this (contractPathToData plan) solcVersion) artifactCache
        (zip units results).

(** Lines 350-392, under [shouldPersist]. *)
Definition persistAll (this : DriverFields) (plan : Plan) (versions : list string)
    (compilationResults : list (list CompilationResult)) : Driver (gmap string nat) :=
  forOf (writeVersion this plan) ∅ (zip versions compilationResults).

(** Lines 260-394: plan, dispatch, write.  The pre-fetch of compiler
    binaries between planning and dispatch touches nothing of the state. *)
Definition _compileContractsAsync (this : DriverFields) (contractNames : list string)
    (opts : CompileContractsOpts) : Driver (list (list StandardOutput)) :=
  plan ← planContracts this (shouldCompileIndependently opts) contractNames;
  let importRemappings := getDependencyNameToPackagePath E (allResolvedContractSources plan) in
  let versions := JsObj.keys (compilationUnitsByVersion plan) in
  compilationResults ← dispatch plan importRemappings versions;
  (if shouldPersist opts
   then persistAll this plan versions compilationResults;; mret tt
   else mret tt);;
  mret (map (map output) compilationResults).

(** Both directories exist after the two [createDirIfDoesNotExistAsync];
    directories are not part of the state. *)
Definition compileAsync (this : DriverFields) : Driver unit :=
  _compileContractsAsync this (getContractNamesToCompile this)
    {| shouldPersist := true;
       shouldCompileIndependently := _shouldCompileIndependently this |};;
  mret tt.

Definition getCompilerOutputsAsync (this : DriverFields)
  : Driver (list (option StandardOutput)) :=
  promisedOutputs ← _compileContractsAsync this (getContractNamesToCompile this)
    {| shouldPersist := false; shouldCompileIndependently := false |};
  mret (map (fun o => head o) promisedOutputs).

End driver.

End Compiler.

(** ** json_compiler.ts *)

Module JSONCompiler.

Section driver.
Context (E : Collaborators).

Definition new (SOLCJS_PATH : option string) (opts : CompilerOptions.t) : DriverFields :=
  construct E SOLCJS_PATH opts "artifacts".

Definition getContractFileNamesToCompile (this : DriverFields) : list string :=
  match _specifiedContracts this with
  | ALL_CONTRACTS_IDENTIFIER =>
      map (fun contractSource => basename E (path contractSource) (JSON_FILE_EXTENSION E))
          (getAllJSON E)
  | ContractNames names => names
  end.

(** Lines 191-205. *)
Definition chooseSolcVersion (this : DriverFields) (contents : ContractContentsByPath)
  : result string :=
  match truthy (_solcVersionIfExists this) with
  | Some pin => Ok pin
  | None =>
      let versionRanges := map (parseSolidityVersionRange E) (JsObj.values contents) in
      let versionRange := String.concat " " versionRanges in
      match truthy (maxSatisfying E (JsObj.keys (releases E)) versionRange) with
      | Some solidityVersion =>
          match JsObj.get solidityVersion (releases E) with
          | Some full => Ok (normalizeSolcVersion E full)
          | None => Throw TypeError
          end
      | None => Throw (UnsatisfiableVersionError versionRange)
      end
  end.

Definition newArtifact (contractName_ solcVersion : string)
    (compiledContract : option CompiledContract) (compilerInput : StandardInput)
  : ContractArtifact :=
  {| schemaVersion := LATEST_ARTIFACT_VERSION E;
     artifactContractName := contractName_;
     compilerOutput := compiledContract;
     artifactSources := None;
     compiler := {| name := "solc"; version := solcVersion;
                    compilerSettings := settings compilerInput |};
     artifactSourceTreeHashHex := None |}.

Definition _persistCompiledContractAsync (this : DriverFields)
    (contractFileName solcVersion : string)
    (compilerInput : StandardInput) (compilerOutput_ : StandardOutput) : Driver unit :=
  forOf (fun _ contractPath =>
      let contractName_ := basename E contractPath (SOLIDITY_FILE_EXTENSION E) in
      match JsObj.get contractPath (contracts compilerOutput_) with
      | None => throw TypeError
      | Some byName =>
          let compiledContract := JsObj.get contractName_ byName in
          writeFileAsync
            (_artifactsDir this +:+ "/" +:+ (contractFileName +:+ "-" +:+ contractName_) +:+ ".json")
            (newArtifact contractName_ solcVersion compiledContract compilerInput)
      end)
    tt (JsObj.keys (contracts compilerOutput_)).

(** One iteration of the loop of [_compileContractsAsync] (lines 179-219);
    [pathToData] is the local [contractPathToData]. *)
Definition compileBundle (this : DriverFields) (persist : bool)
    (pathToData : gmap string ContractData) (contractFileName : string)
  : Driver (gmap string ContractData) :=
  contractJSONSource ← liftResult (resolveJSON E contractFileName);
  contractContentsByPath ← liftResult (contractContentsOfBundle E (source contractJSONSource));
  artifact ← (fun st =>
     (Ok (getContractArtifactIfExists E (artifactFiles st) (_artifactsDir this) contractFileName),
      st));
  let contractData :=
    {| contractName := basename E contractFileName (SOLIDITY_FILE_EXTENSION E);
       currentArtifactIfExists := artifact;
       sourceTreeHashHex := "0x" |} in
  let pathToData' := <[path contractJSONSource := contractData]> pathToData in
  solcVersion ← liftResult (chooseSolcVersion this contractContentsByPath);
  compiler_ ← _getSolcWrapperForVersion E solcVersion;
  compilationResult ← issueCompile E compiler_ [] contractContentsByPath;
  (if persist
   then _persistCompiledContractAsync this contractFileName solcVersion
          (input compilationResult) (output compilationResult)
   else mret tt);;
  mret pathToData'.

Definition _compileContractsAsync (this : DriverFields) (contractFileNames : list string)
    (opts : CompileContractsOpts) : Driver (list (list StandardOutput)) :=
  forOf (compileBundle this (shouldPersist opts)) ∅ contractFileNames;;
  mret [].

Definition compileAsync (this : DriverFields) : Driver unit :=
  _compileContractsAsync this (getContractFileNamesToCompile this)
    {| shouldPersist := true;
       shouldCompileIndependently := _shouldCompileIndependently this |};;
  mret tt.

Definition getCompilerOutputsAsync (this : DriverFields)
  : Driver (list (option StandardOutput)) :=
  promisedOutputs ← _compileContractsAsync this (getContractFileNamesToCompile this)
    {| shouldPersist := false; shouldCompileIndependently := false |};
  mret (map (fun o => head o) promisedOutputs).

End driver.

End JSONCompiler.

(** ** Vocabulary of the statements *)

Section vocabulary.
Context (E : Collaborators).

(** The bookkeeping record that the planning loop builds for a requested
    name (lines 280-284). *)
Definition contractDataFor (this : DriverFields) (st : DriverState)
    (contractName_ : string) (walk : SpyWalk) : ContractData :=
  {| contractName := basename E contractName_ (SOLIDITY_FILE_EXTENSION E);
     currentArtifactIfExists :=
       getContractArtifactIfExists E (artifactFiles st) (_artifactsDir this) contractName_;
     sourceTreeHashHex := "0x" +:+ sourceTreeHash walk |}.

(** The plan after a root that passed the gate was given its version. *)
Definition planWith (independently : bool) (plan : Compiler.Plan) (walk : SpyWalk)
    (contractData : ContractData) (solcVersion : string) : Compiler.Plan :=
  {| Compiler.compilationUnitsByVersion :=
       JsObj.set solcVersion
         (Compiler.placeInUnits independently
            (default [] (JsObj.get solcVersion (Compiler.compilationUnitsByVersion plan)))
            (resolvedContractSources walk))
         (Compiler.compilationUnitsByVersion plan);
     Compiler.contractPathToData :=
       <[absolutePath (contractSource walk) := contractData]> (Compiler.contractPathToData plan);
     Compiler.allResolvedContractSources :=
       Compiler.allResolvedContractSources plan ++ resolvedContractSources walk |}.

(** A requested contract that the cache gate did not skip, with the walk
    of its sources and the version chosen for it. *)
Record Survivor : Type := {
  survivorName : string;
  survivorWalk : SpyWalk;
  survivorVersion : string
}.

(** Whether the planning step for [contractName_] in state [st] gets past
    the gate and the version selection. *)
Definition survivorOf (this : DriverFields) (st : DriverState) (contractName_ : string)
  : list Survivor :=
  match spyWalk E contractName_ with
  | Ok walk =>
      match Compiler._shouldCompile E (contractDataFor this st contractName_ walk) st with
      | (Ok true, _) =>
          match Compiler.chooseSolcVersion E this (contractSource walk) with
          | Ok solcVersion =>
              [{| survivorName := contractName_; survivorWalk := walk;
                  survivorVersion := solcVersion |}]
          | Throw _ => []
          end
      | _ => []
      end
  | Throw _ => []
  end.

(** The survivors of a planning loop, in request order. *)
Fixpoint survivors (this : DriverFields) (independently : bool) (plan : Compiler.Plan)
    (contractNames : list string) (st : DriverState) : list Survivor :=
  match contractNames with
  | [] => []
  | n :: names' =>
      match Compiler.planContract E this independently plan n st with
      | (Ok plan', st') =>
          survivorOf this st n ++ survivors this independently plan' names' st'
      | (Throw _, _) => []
      end
  end.

(** The single unit of a version in batched mode: the files recorded for
    its survivors, placed in request order into [unit0]. *)
Definition batchedUnit (unit0 : ContractContentsByPath) (ss : list Survivor)
  : ContractContentsByPath :=
  fold_left (fun unit_ s => Compiler.fillUnit unit_ (resolvedContractSources (survivorWalk s)))
            ss unit0.

(** [max] is a version among [seen] that satisfies [range] and that no
    satisfying version among [seen] exceeds, or nothing when none
    satisfies. *)
Definition bestOf (range : string) (seen : list string) (max : option string) : Prop :=
  match max with
  | Some m =>
      m ∈ seen /\ rangeTest E range m = true
      /\ forall w, w ∈ seen -> rangeTest E range w = true -> semverLt E m w = false
  | None => forall w, w ∈ seen -> rangeTest E range w = false
  end.

(** Every version of the plan has exactly one unit. *)
Definition singleUnits (units : CompilationUnitsByVersion) : Prop :=
  forall v us, JsObj.get v units = Some us -> exists u, us = [u].

(** The total number of units of a plan. *)
Definition unitCount (units : CompilationUnitsByVersion) : nat :=
  length (concat (JsObj.values units)).

(** One turn of the innermost writer loop: a path of a unit, with the size,
    version and compilation result of that unit. *)
Record Visit : Type := {
  visitPath : string;
  visitSize : nat;
  visitVersion : string;
  visitResult : CompilationResult
}.

Definition visitsOfUnit (solcVersion : string)
    (unitAndResult : ContractContentsByPath * CompilationResult) : list Visit :=
  map (fun contractPath =>
         {| visitPath := contractPath;
            visitSize := length (JsObj.keys (fst unitAndResult));
            visitVersion := solcVersion;
            visitResult := snd unitAndResult |})
      (JsObj.keys (fst unitAndResult)).

Definition visitsOfVersion (plan : Compiler.Plan)
    (versionAndResults : string * list CompilationResult) : list Visit :=
  concat (map (visitsOfUnit (fst versionAndResults))
              (zip (default [] (JsObj.get (fst versionAndResults)
                                  (Compiler.compilationUnitsByVersion plan)))
                   (snd versionAndResults))).

(** The turns of the writer in the order it takes them. *)
Definition visits (plan : Compiler.Plan) (versions : list string)
    (compilationResults : list (list CompilationResult)) : list Visit :=
  concat (map (visitsOfVersion plan) (zip versions compilationResults)).

(** The visits of paths that were requested and passed the gate: the ones
    the writer does not step over. *)
Definition rootVisits (pathToData : gmap string ContractData) (vs : list Visit)
  : list Visit :=
  filter (fun v => is_Some (pathToData !! visitPath v)) vs.

(** The innermost loop body at a visit. *)
Definition writeVisit (this : DriverFields) (pathToData : gmap string ContractData)
    (artifactCache : gmap string nat) (v : Visit) : Driver (gmap string nat) :=
  Compiler.writeContract E this pathToData (visitVersion v) (visitResult v) (visitSize v)
    artifactCache (visitPath v).

(** The smallest unit size among the visits of a path. *)
Fixpoint smallestSeen (contractPath : string) (vs : list Visit) : option nat :=
  match vs with
  | [] => None
  | u :: rest =>
      if decide (visitPath u = contractPath) then
        Some (match smallestSeen contractPath rest with
              | Some m => Nat.min (visitSize u) m
              | None => visitSize u
              end)
      else smallestSeen contractPath rest
  end.

(** [v] comes from a strictly smaller unit than every earlier visit of the
    same path. *)
Definition beats (earlier : list Visit) (v : Visit) : bool :=
  forallb (fun u => if decide (visitPath u = visitPath v)
                    then visitSize v <? visitSize u else true) earlier.

(** The visits that are written: those that beat all visits before them. *)
Fixpoint winnersFrom (earlier vs : list Visit) : list Visit :=
  match vs with
  | [] => []
  | v :: vs' => (if beats earlier v then [v] else []) ++ winnersFrom (earlier ++ [v]) vs'
  end.

Definition winners (vs : list Visit) : list Visit := winnersFrom [] vs.

Definition ofPath (contractPath : string) (vs : list Visit) : list Visit :=
  filter (fun v => visitPath v = contractPath) vs.

(** The persist call that the writer makes at a visit. *)
Definition persistVisit (this : DriverFields) (pathToData : gmap string ContractData)
    (_ : unit) (v : Visit) : Driver unit :=
  match pathToData !! visitPath v with
  | Some contractData =>
      Compiler._persistCompiledContractAsync E this (contractName contractData)
        (visitVersion v) (input (visitResult v)) (output (visitResult v))
  | None => mret tt
  end.

End vocabulary.

(** ** A concrete project

    Small executable stand-ins for the collaborators, used to run the
    drivers on the boundary scenarios. *)

Module Demo.

(** Modelled from the spec: [normalizeSolcVersion] of utils/compiler is not
    among the embedded files; section 4.D has it strip a leading [v]. *)
Definition stripLeadingV (fullSolcVersion : string) : string :=
  match fullSolcVersion with
  | String "v"%char rest => rest
  | _ => fullSolcVersion
  end.

(** The last segment of a POSIX path that does not end in a separator. *)
Fixpoint lastSegment (acc s : string) : string :=
  match s with
  | EmptyString => acc
  | String c s' =>
      if Ascii.eqb c "/"%char then lastSegment "" s' else lastSegment (acc +:+ String c "") s'
  end.

(** [path.basename(p, ext)] on such paths. *)
Definition posixBasename (p ext : string) : string :=
  let base := lastSegment "" p in
  let n := String.length base - String.length ext in
  if (String.length ext <? String.length base)
     && String.eqb (String.substring n (String.length ext) base) ext
  then String.substring 0 n base
  else base.

Fixpoint digitsToNat (acc : nat) (s : string) : option nat :=
  match s with
  | EmptyString => Some acc
  | String c s' =>
      let n := nat_of_ascii c in
      if (48 <=? n) && (n <=? 57) then digitsToNat (10 * acc + (n - 48)) s' else None
  end.

Fixpoint splitDots (cur s : string) : list string :=
  match s with
  | EmptyString => [cur]
  | String c s' =>
      if Ascii.eqb c "."%char then cur :: splitDots "" s' else splitDots (cur +:+ String c "") s'
  end.

(** [major.minor.patch] *)
Definition parseVersion (v : string) : option (nat * nat * nat) :=
  match splitDots "" v with
  | [a; b; c] =>
      match a, b, c with
      | String _ _, String _ _, String _ _ =>
          match digitsToNat 0 a, digitsToNat 0 b, digitsToNat 0 c with
          | Some x, Some y, Some z => Some (x, y, z)
          | _, _, _ => None
          end
      | _, _, _ => None
      end
  | _ => None
  end.

Definition tripleLt (a b : nat * nat * nat) : bool :=
  let '(a1, a2, a3) := a in
  let '(b1, b2, b3) := b in
  (a1 <? b1) || ((a1 =? b1) && ((a2 <? b2) || ((a2 =? b2) && (a3 <? b3)))).

Definition versionLt (a b : string) : bool :=
  match parseVersion a, parseVersion b with
  | Some x, Some y => tripleLt x y
  | _, _ => false
  end.

(** Caret ranges [^x.y.z] of the semver grammar; every other range is
    taken as unparsable. *)
Definition caretTest (range v : string) : bool :=
  match range with
  | String "^"%char r =>
      match parseVersion r, parseVersion v with
      | Some (x, y, z), Some (a, b, c) =>
          negb (tripleLt (a, b, c) (x, y, z))
          && (if x =? 0
              then if y =? 0 then (a =? 0) && (b =? 0) && (c =? z)
                   else (a =? 0) && (b =? y)
              else a =? x)
      | _, _ => false
      end
  | _ => false
  end.

Fixpoint takeUntil (stop : ascii) (s : string) : string :=
  match s with
  | EmptyString => EmptyString
  | String c s' => if Ascii.eqb c stop then EmptyString else String c (takeUntil stop s')
  end.

(** The range of a text that opens with [pragma solidity <range>;]. *)
Definition pragmaRange (sourceText : string) : string :=
  if String.prefix "pragma solidity " sourceText
  then takeUntil ";"%char (String.substring 16 (String.length sourceText - 16) sourceText)
  else "".

Definition srcA : ContractSource :=
  {| path := "A.sol"; absolutePath := "/p/contracts/A.sol";
     source := "pragma solidity ^0.6.0; import './L.sol'; contract A {}" |}.

Definition srcB : ContractSource :=
  {| path := "B.sol"; absolutePath := "/p/contracts/B.sol";
     source := "pragma solidity ^0.6.0; import './L.sol'; contract B {}" |}.

Definition srcL : ContractSource :=
  {| path := "L.sol"; absolutePath := "/p/contracts/L.sol";
     source := "pragma solidity ^0.6.0; contract L {}" |}.

Definition srcZ : ContractSource :=
  {| path := "Z.sol"; absolutePath := "/p/contracts/Z.sol";
     source := "pragma solidity ^9.9.9; contract Z {}" |}.

(** [resolve] records the root, [getSourceTreeHash] resolves it once more
    and then its imports. *)
Definition walkA : SpyWalk :=
  {| contractSource := srcA; sourceTreeHash := "a1";
     resolvedContractSources := [srcA; srcA; srcL] |}.

Definition walkB : SpyWalk :=
  {| contractSource := srcB; sourceTreeHash := "b2";
     resolvedContractSources := [srcB; srcB; srcL] |}.

Definition walkL : SpyWalk :=
  {| contractSource := srcL; sourceTreeHash := "c3";
     resolvedContractSources := [srcL; srcL] |}.

Definition walkZ : SpyWalk :=
  {| contractSource := srcZ; sourceTreeHash := "d4";
     resolvedContractSources := [srcZ; srcZ] |}.

Definition walkOf (name_ : string) : result SpyWalk :=
  if decide (name_ = "A") then Ok walkA
  else if decide (name_ = "B") then Ok walkB
  else if decide (name_ = "L") then Ok walkL
  else if decide (name_ = "Z") then Ok walkZ
  else Throw (NameResolutionError name_).

(** An answer in the standard-JSON shape: one [sources] entry per submitted
    file and, per file, one contract named after it. *)
Definition standardResult (unit_ : JsObject string) : CompilationResult :=
  {| input := {| settings := "{}" |};
     output :=
       {| contracts :=
            map (fun e => (fst e, [(posixBasename (fst e) ".sol", "bytecode:" +:+ snd e)])) unit_;
          sources := map (fun e => (fst e, "{}")) unit_ |} |}.

Definition standardBackend (solc : SolcWrapper) (unit_ : ContractContentsByPath)
    (remappings : JsObject string) : result CompilationResult :=
  Ok (standardResult unit_).

(** A bundle whose text is the single source it holds, stored under the
    name [Bundle.sol]. *)
Definition bundleOf (text : string) : result ContractContentsByPath :=
  Ok [("Bundle.sol", text)].

Definition jsonSourceOf (name_ : string) : result ContractSource :=
  if decide (name_ = "A") then
    Ok {| path := "contracts/A.sol"; absolutePath := "/p/contracts/A.json";
          source := source srcL |}
  else if decide (name_ = "Z") then
    Ok {| path := "contracts/Z.sol"; absolutePath := "/p/contracts/Z.json";
          source := source srcZ |}
  else Throw (NameResolutionError name_).

Definition env (backend : SolcWrapper -> ContractContentsByPath -> JsObject string
                          -> result CompilationResult) : Collaborators :=
  {| normalizeSolcVersion := stripLeadingV;
     getSolcJSVersionFromPath := fun _ => "0.5.17+commit.d19bba13.Emscripten.clang";
     parseSolidityVersionRange := pragmaRange;
     getContractArtifactIfExists := fun files dir name_ =>
       files !! (dir +:+ "/" +:+ posixBasename name_ ".sol" +:+ ".json");
     getDependencyNameToPackagePath := fun _ => [];
     releases := [("0.5.17", "v0.5.17+commit.d19bba13");
                  ("0.6.12", "v0.6.12+commit.27d51765");
                  ("0.6.2", "v0.6.2+commit.bacdbe57")];
     LATEST_ARTIFACT_VERSION := "2.0.0";
     SOLIDITY_FILE_EXTENSION := ".sol";
     JSON_FILE_EXTENSION := ".json";
     basename := posixBasename;
     pathResolve := fun p => "/p/" +:+ p;
     rangeTest := caretTest;
     semverLt := versionLt;
     spyWalk := walkOf;
     getAll := [srcA; srcB; srcL];
     getAllJSON := [];
     resolveJSON := jsonSourceOf;
     contractContentsOfBundle := bundleOf;
     solcCompileAsync := backend;
     areCompilerSettingsDifferent := fun _ s => negb (String.eqb s "{}") |}.

Definition initial : DriverState :=
  {| solcWrappersByVersion := ∅; allocated := 0; artifactFiles := ∅; compileCalls := [] |}.

Definition options (names : list string) (independently : bool) (pin : option string)
  : CompilerOptions.t :=
  {| CompilerOptions.artifactsDir := Some "artifacts";
     CompilerOptions.contracts := Some (ContractNames names);
     CompilerOptions.solcVersion := pin;
     CompilerOptions.shouldCompileIndependently := Some independently |}.

(** An artifact left by a build with a compiler of a family that has no
    wrapper class, under an older schema. *)
Definition foreignArtifact : ContractArtifact :=
  {| schemaVersion := "1.0.0";
     artifactContractName := "A";
     compilerOutput := Some "bytecode";
     artifactSources := None;
     compiler := {| name := "solc"; version := "0.9.1+commit.0123abcd";
                    compilerSettings := "{}" |};
     artifactSourceTreeHashHex := Some "0xa1" |}.

(** An artifact that matches the current sources, schema and settings. *)
Definition freshArtifact : ContractArtifact :=
  {| schemaVersion := "2.0.0";
     artifactContractName := "A";
     compilerOutput := Some "bytecode";
     artifactSources := None;
     compiler := {| name := "solc"; version := "v0.6.12+commit.27d51765";
                    compilerSettings := "{}" |};
     artifactSourceTreeHashHex := Some "0xa1" |}.

Definition dataOfA (artifact : option ContractArtifact) : ContractData :=
  {| currentArtifactIfExists := artifact; sourceTreeHashHex := "0xa1"; contractName := "A" |}.

(** A reader that finds an artifact matching the current build for every
    name. *)
Definition alwaysFresh (files : gmap string ContractArtifact) (dir name_ : string)
  : option ContractArtifact :=
  Some freshArtifact.

Definition jsonDriver (names : list string) : DriverFields :=
  construct (env standardBackend) None (options names false None) "artifacts".

(** Both pins set: the option asks for 0.6.12, the environment variable
    points at a 0.5.17 binary. *)
Definition bothPins : CompilerOptions.t :=
  options ["A"] false (Some "v0.6.12+commit.27d51765").

(** The option pins a version written with its leading [v]; the pragma of
    A asks for another family. *)
Definition prefixedPin : CompilerOptions.t :=
  options ["A"] false (Some "v0.5.17+commit.d19bba13").

Definition driver (names : list string) (independently : bool) : DriverFields :=
  Compiler.new (env standardBackend) None (options names independently None).

(** Planning the roots A, B and L, each on its own. *)
Definition plannedIndependently : result Compiler.Plan * DriverState :=
  Compiler.planContracts (env standardBackend) (driver ["A"; "B"; "L"] true) true
    ["A"; "B"; "L"] initial.

Definition independentPlan : Compiler.Plan :=
  match plannedIndependently with
  | (Ok plan, _) => plan
  | (Throw _, _) => Compiler.emptyPlan
  end.

(** The outcome of dispatching that plan. *)
Definition dispatchedIndependently : result (list (list CompilationResult)) * DriverState :=
  Compiler.dispatch (env standardBackend) independentPlan []
    (JsObj.keys (Compiler.compilationUnitsByVersion independentPlan))
    (snd plannedIndependently).

Definition independentResults : list (list CompilationResult) :=
  match dispatchedIndependently with
  | (Ok compilationResults, _) => compilationResults
  | (Throw _, _) => []
  end.

(** The writer on that plan and those results. *)
Definition writtenIndependently : result (gmap string nat) * DriverState :=
  Compiler.persistAll (env standardBackend) (driver ["A"; "B"; "L"] true) independentPlan
    (JsObj.keys (Compiler.compilationUnitsByVersion independentPlan))
    independentResults (snd dispatchedIndependently).

(** A back-end whose output has the [sources] of every submitted file but
    no contract at all, as for files that declare none. *)
Definition contractlessBackend (solc : SolcWrapper) (unit_ : ContractContentsByPath)
    (remappings : JsObject string) : result CompilationResult :=
  Ok {| input := {| settings := "{}" |};
        output := {| contracts := []; sources := map (fun e => (fst e, "{}")) unit_ |} |}.

(** The unit that the roots A and B share in batched mode. *)
Definition unitS4 : ContractContentsByPath :=
  [("/p/contracts/A.sol", source srcA);
   ("/p/contracts/L.sol", source srcL);
   ("/p/contracts/B.sol", source srcB)].

Definition dataOfB : ContractData :=
  {| currentArtifactIfExists := None; sourceTreeHashHex := "0xb2"; contractName := "B" |}.

Definition planS4 : Compiler.Plan :=
  {| Compiler.compilationUnitsByVersion := [("0.6.12+commit.27d51765", [unitS4])];
     Compiler.contractPathToData :=
       <["/p/contracts/B.sol" := dataOfB]> (<["/p/contracts/A.sol" := dataOfA None]> ∅);
     Compiler.allResolvedContractSources := [srcA; srcA; srcL; srcB; srcB; srcL] |}.

(** The wrapper that the run of S4 creates. *)
Definition wrapperS4 : SolcWrapper :=
  {| wrapperId := 0; wrapperFamily := V06; wrapperVersion := "0.6.12+commit.27d51765" |}.

(** The artifact files that persisting under the requested names [roots]
    writes for an output: one per root and listed source. *)
Definition filesFor (roots : list string) (compilerOutput_ : StandardOutput) : list string :=
  flat_map (fun root =>
      map (fun contractPath =>
             "artifacts/" +:+ (root +:+ "-" +:+ posixBasename contractPath ".sol") +:+ ".json")
          (JsObj.keys (sources compilerOutput_)))
    roots.

(** Scenario S4 in batched mode: the roots A and B, which both import L. *)
Definition ranBatched : result unit * DriverState :=
  Compiler.compileAsync (env standardBackend) (driver ["A"; "B"] false) initial.

(** The same request against the back-end without contracts. *)
Definition ranContractless : result unit * DriverState :=
  Compiler.compileAsync (env contractlessBackend) (driver ["A"] false) initial.

Definition persisting : CompileContractsOpts :=
  {| shouldCompileIndependently := false; shouldPersist := true |}.


End Demo.


(** ** Watch mode, and further vocabulary *)

(** [_.uniq]: the first occurrence of every element, in order. *)
Definition uniq (l : list string) : list string :=
  fold_left (fun seen x => if decide (x ∈ seen) then seen else seen ++ [x]) l [].

(** The calls that [watchAsync] makes on the chokidar watcher. *)
Inductive WatcherCall : Type :=
| WatcherWatch (pattern : string)
| WatcherUnwatch (pattern : string)
| WatcherAdd (paths : list string)
| WatcherOnChange.

Module CompilerWatch.

Section watch.
Context (E : Collaborators).

(** The loop of [_getPathsToWatch] (lines 243-250) over a single
    [SpyResolver]: what the resolver has recorded grows with every name. *)
Fixpoint recordAll (contractNames : list string) (recorded : list ContractSource)
  : result (list ContractSource) :=
  match contractNames with
  | [] => Ok recorded
  | contractName_ :: names' =>
      match spyWalk E contractName_ with
      | Ok walk => recordAll names' (recorded ++ resolvedContractSources walk)
      | Throw e => Throw e
      end
  end.

(** Lines 240-253. *)
Definition _getPathsToWatch (this : DriverFields) : result (list string) :=
  match recordAll (Compiler.getContractNamesToCompile E this) [] with
  | Ok recorded => Ok (uniq (map absolutePath recorded))
  | Throw e => Throw e
  end.

(** [onFileChangedAsync] (lines 195-212): the [catch] has no re-throw, so
    whatever [compileAsync] raised is logged and dropped; the paths are
    computed outside the [try]. *)
Definition onFileChangedAsync (this : DriverFields)
    (st : DriverState) (watcher : list WatcherCall)
  : result unit * DriverState * list WatcherCall :=
  let watcher1 := watcher ++ [WatcherUnwatch "*"] in
  let st1 := snd (Compiler.compileAsync E this st) in
  match _getPathsToWatch this with
  | Ok pathsToWatch => (Ok tt, st1, watcher1 ++ [WatcherAdd pathsToWatch])
  | Throw e => (Throw e, st1, watcher1)
  end.

(** Lines 189-222, up to the registration of the change handler. *)
Definition watchAsync (this : DriverFields) (st : DriverState)
  : result unit * DriverState * list WatcherCall :=
  match onFileChangedAsync this st [WatcherWatch "^$"] with
  | (Ok _, st1, watcher) => (Ok tt, st1, watcher ++ [WatcherOnChange])
  | (Throw e, st1, watcher) => (Throw e, st1, watcher)
  end.

End watch.

End CompilerWatch.

(** A registry in which every wrapper ever constructed is still
    registered, under the version it was built for, and no two entries are
    the same object. *)
Definition registryTight (st : DriverState) : Prop :=
  registryOk st
  /\ allocated st = size (solcWrappersByVersion st)
  /\ forall k1 k2 w1 w2,
       solcWrappersByVersion st !! k1 = Some w1 ->
       solcWrappersByVersion st !! k2 = Some w2 ->
       wrapperId w1 = wrapperId w2 -> k1 = k2.

(** The calls that dispatching a plan issues when every wrapper is
    available: one per unit, version by version, all with the same
    remappings. *)
Definition unitsInOrder (units : JsObject (list (JsObject string))) : list (JsObject string) :=
  concat (JsObj.values units).

(** The file [k] was recorded while walking one of [names]. *)
Definition walkedFrom (E : Collaborators) (names : list string) (k : string) : Prop :=
  exists n walk rcs,
    n ∈ names /\ spyWalk E n = Ok walk
    /\ rcs ∈ resolvedContractSources walk /\ absolutePath rcs = k.

(** ** resolvers/json_name_resolver.ts *)

(** [s.endsWith(suffix)] *)
Definition endsWith (s suffix : string) : bool :=
  (String.length suffix <=? String.length s)
  && String.eqb (String.substring (String.length s - String.length suffix)
                   (String.length suffix) s) suffix.

(** [s.replace(pattern, replacement)] for a string pattern: the first
    occurrence only. *)
Fixpoint replaceFirst (pattern replacement s : string) : string :=
  if String.prefix pattern s
  then replacement +:+ String.substring (String.length pattern)
                         (String.length s - String.length pattern) s
  else match s with
       | EmptyString => EmptyString
       | String c s' => String c (replaceFirst pattern replacement s')
       end.

(** What the traversal sees of the file system: [readdirSync] lists the
    entries of a directory in some order, [lstatSync(..).isDirectory()]
    tells the directories, readable or not, from everything else. *)
#[warnings="-register-all"]
Inductive FsNode : Type :=
| FsFile
| FsLockedDir
| FsDir (dirContents : list (string * FsNode)).

Inductive ResolverError : Type :=
| NoDirectoryFound (dirPath : string)
| ReadFailed (absolutePath_ : string).

Inductive outcome (A : Type) : Type :=
| Done (a : A)
| Raise (e : ResolverError).
Arguments Done {A} a.
Arguments Raise {A} e.

(** What the resolver uses of Node: [path.join], [path.relative] and
    [fs.readFileSync], which fails on a path it cannot read. *)
Record NodeApi : Type := {
  pathJoin : string -> string -> string;
  pathRelative : string -> string -> string;
  readFileSync : string -> option string
}.

Module JSONNameResolver.

Definition JSON_FILE_EXTENSION : string := ".json".

(** What a traversal meets, in order: the [.json] files it hands to the
    callback, by their path relative to the project directory, and the
    directories it cannot list. *)
Inductive WalkEvent : Type :=
| JsonFile (filePath : string)
| NoDirectory (dirPath : string).

Definition isJsonFile (event : WalkEvent) : Prop :=
  match event with
  | JsonFile _ => True
  | NoDirectory _ => False
  end.

(** The callback over the events, with its early exit. *)
Fixpoint overEvents {S : Type} (onFile : S -> string -> outcome (bool * S))
    (events : list WalkEvent) (s : S) : outcome (bool * S) :=
  match events with
  | [] => Done (false, s)
  | JsonFile filePath :: rest =>
      match onFile s filePath with
      | Raise e => Raise e
      | Done (true, s') => Done (true, s')
      | Done (false, s') => overEvents onFile rest s'
      end
  | NoDirectory dirPath :: _ => Raise (NoDirectoryFound dirPath)
  end.

Section resolver.
Context (E : Collaborators) (node : NodeApi) (_contractsDir : string).

(** Lines 48-70.  [onFile] updates the variables its closure captured
    ([S]) and answers [true] or nothing; the node at [dirPath] comes along
    with the path. *)
Fixpoint _traverseContractsDir {S : Type} (dirPath : string) (dir : FsNode)
    (onFile : S -> string -> outcome (bool * S)) (s : S) : outcome (bool * S) :=
  match dir with
  | FsDir dirContents =>
      (fix loop (dirContents : list (string * FsNode)) (s : S) : outcome (bool * S) :=
         match dirContents with
         | [] => Done (false, s)
         | (fileName, entry) :: rest =>
             let absoluteEntryPath := pathJoin node dirPath fileName in
             let entryPath := pathRelative node _contractsDir absoluteEntryPath in
             let isComplete :=
               match entry with
               | FsFile =>
                   if endsWith fileName JSON_FILE_EXTENSION then onFile s entryPath
                   else Done (false, s)
               | _ => _traverseContractsDir absoluteEntryPath entry onFile s
               end in
             match isComplete with
             | Raise e => Raise e
             | Done (true, s') => Done (true, s')
             | Done (false, s') => loop rest s'
             end
         end) dirContents s
  | _ => Raise (NoDirectoryFound dirPath)
  end.

(** What either callback reads for [filePath]; [sourcePath] is what it
    stores as [path]. *)
Definition readSource (sourcePath : string -> string) (filePath : string)
  : outcome ContractSource :=
  let contractPath := pathJoin node _contractsDir filePath in
  let absoluteContractPath := pathResolve E contractPath in
  match readFileSync node absoluteContractPath with
  | Some source_ =>
      Done {| source := source_; path := sourcePath contractPath;
              absolutePath := absoluteContractPath |}
  | None => Raise (ReadFailed absoluteContractPath)
  end.

(** The callback of [resolveIfExists] (lines 17-31), on the captured
    [contractSource]. *)
Definition onFileOfResolve (lookupContractNameNormalized : string)
    (contractSource_ : option ContractSource) (filePath : string)
  : outcome (bool * option ContractSource) :=
  let contractName_ := basename E filePath JSON_FILE_EXTENSION in
  if decide (contractName_ = lookupContractNameNormalized) then
    match readSource (replaceFirst ".json" ".sol") filePath with
    | Done found => Done (true, Some found)
    | Raise e => Raise e
    end
  else Done (false, contractSource_).

(** Lines 14-34. *)
Definition resolveIfExists (root : FsNode) (lookupContractName : string)
  : outcome (option ContractSource) :=
  let lookupContractNameNormalized := basename E lookupContractName JSON_FILE_EXTENSION in
  match _traverseContractsDir _contractsDir root
          (onFileOfResolve lookupContractNameNormalized) None with
  | Done (_, contractSource_) => Done contractSource_
  | Raise e => Raise e
  end.

(** The callback of [getAll] (lines 37-43), on the captured
    [contractSources]. *)
Definition onFileOfGetAll (contractSources : list ContractSource) (filePath : string)
  : outcome (bool * list ContractSource) :=
  match readSource (fun contractPath => contractPath) filePath with
  | Done contractSource_ => Done (false, contractSources ++ [contractSource_])
  | Raise e => Raise e
  end.

(** Lines 35-46. *)
Definition getAll (root : FsNode) : outcome (list ContractSource) :=
  match _traverseContractsDir _contractsDir root onFileOfGetAll [] with
  | Done (_, contractSources) => Done contractSources
  | Raise e => Raise e
  end.

(** The events of the tree below [dirPath], in the order of the listings. *)
Fixpoint walkOrder (dirPath : string) (dir : FsNode) : list WalkEvent :=
  match dir with
  | FsDir dirContents =>
      (fix each (dirContents : list (string * FsNode)) : list WalkEvent :=
         match dirContents with
         | [] => []
         | (fileName, entry) :: rest =>
             match entry with
             | FsFile =>
                 if endsWith fileName JSON_FILE_EXTENSION
                 then [JsonFile (pathRelative node _contractsDir
                                   (pathJoin node dirPath fileName))]
                 else []
             | _ => walkOrder (pathJoin node dirPath fileName) entry
             end ++ each rest
         end) dirContents
  | _ => [NoDirectory dirPath]
  end.

(** The file of the event has the base name that a lookup of
    [lookupContractName] compares with. *)
Definition matches (lookupContractName : string) (event : WalkEvent) : Prop :=
  match event with
  | JsonFile filePath =>
      basename E filePath JSON_FILE_EXTENSION = basename E lookupContractName JSON_FILE_EXTENSION
  | NoDirectory _ => False
  end.

(** A file of another base name: what a lookup passes over. *)
Definition passedOver (lookupContractName : string) (event : WalkEvent) : Prop :=
  isJsonFile event /\ ~ matches lookupContractName event.

End resolver.

End JSONNameResolver.

(** The same collaborators over another set of bundles. *)
Definition withBundles (E : Collaborators) (bundles : list ContractSource) : Collaborators :=
  {| normalizeSolcVersion := normalizeSolcVersion E;
     getSolcJSVersionFromPath := getSolcJSVersionFromPath E;
     parseSolidityVersionRange := parseSolidityVersionRange E;
     getContractArtifactIfExists := getContractArtifactIfExists E;
     getDependencyNameToPackagePath := getDependencyNameToPackagePath E;
     releases := releases E;
     LATEST_ARTIFACT_VERSION := LATEST_ARTIFACT_VERSION E;
     SOLIDITY_FILE_EXTENSION := SOLIDITY_FILE_EXTENSION E;
     JSON_FILE_EXTENSION := JSON_FILE_EXTENSION E;
     basename := basename E;
     pathResolve := pathResolve E;
     rangeTest := rangeTest E;
     semverLt := semverLt E;
     spyWalk := spyWalk E;
     getAll := getAll E;
     getAllJSON := bundles;
     resolveJSON := resolveJSON E;
     contractContentsOfBundle := contractContentsOfBundle E;
     solcCompileAsync := solcCompileAsync E;
     areCompilerSettingsDifferent := areCompilerSettingsDifferent E |}.

(** ** cli.ts *)

(** [s.split(',')]: the pieces between the commas, at least one. *)
Fixpoint splitOnComma (s : string) : list string :=
  match s with
  | EmptyString => [EmptyString]
  | String c s' =>
      if Ascii.eqb c ","%char then EmptyString :: splitOnComma s'
      else match splitOnComma s' with
           | piece :: pieces => String c piece :: pieces
           | [] => [String c EmptyString]
           end
  end.

Fixpoint hasComma (s : string) : bool :=
  match s with
  | EmptyString => false
  | String c s' => Ascii.eqb c ","%char || hasComma s'
  end.

(** [{...fileConfig, ...overrides}] on options that conform to the
    schema: a key of [overrides] wins (lines 105-117 of compiler.ts, 83-95
    of json_compiler.ts); [fileConfig] is the parsed [compiler.json], with
    every key absent when there is no such file. *)
Definition getCompilerOptionsAsync (overrides fileConfig : CompilerOptions.t)
  : CompilerOptions.t :=
  {| CompilerOptions.artifactsDir :=
       match CompilerOptions.artifactsDir overrides with
       | Some v => Some v
       | None => CompilerOptions.artifactsDir fileConfig
       end;
     CompilerOptions.contracts :=
       match CompilerOptions.contracts overrides with
       | Some v => Some v
       | None => CompilerOptions.contracts fileConfig
       end;
     CompilerOptions.solcVersion :=
       match CompilerOptions.solcVersion overrides with
       | Some v => Some v
       | None => CompilerOptions.solcVersion fileConfig
       end;
     CompilerOptions.shouldCompileIndependently :=
       match CompilerOptions.shouldCompileIndependently overrides with
       | Some v => Some v
       | None => CompilerOptions.shouldCompileIndependently fileConfig
       end |}.

Module Cli.

(** The arguments of either command that reach the options the drivers
    read; [--contracts-dir] and [SOLC_OFFLINE] set keys that only the
    resolvers and the release index see. *)
Record BaseArgsType : Type := {
  contracts : option string;
  artifactsDir : option string
}.

(** Lines 47-52 and 90-95. *)
Definition contractsOf (argv : BaseArgsType) : option SpecifiedContracts :=
  match contracts argv with
  | None => None
  | Some given =>
      if decide (given = "*") then Some ALL_CONTRACTS_IDENTIFIER
      else Some (ContractNames (splitOnComma given))
  end.

(** Lines 53-61 and 96-104, after [_.omitBy]: the keys that are left. *)
Definition opts (argv : BaseArgsType) : CompilerOptions.t :=
  {| CompilerOptions.artifactsDir := artifactsDir argv;
     CompilerOptions.contracts := contractsOf argv;
     CompilerOptions.solcVersion := None;
     CompilerOptions.shouldCompileIndependently := None |}.

Section commands.
Context (E : Collaborators).

(** [new Compiler(await Compiler.getCompilerOptionsAsync(opts))], line 62 *)
Definition compiler (SOLCJS_PATH : option string) (fileConfig : CompilerOptions.t)
    (argv : BaseArgsType) : DriverFields :=
  Compiler.new E SOLCJS_PATH (getCompilerOptionsAsync (opts argv) fileConfig).

(** [new JSONCompiler(await JSONCompiler.getCompilerOptionsAsync(opts))],
    line 105 *)
Definition jsonCompiler (SOLCJS_PATH : option string) (fileConfig : CompilerOptions.t)
    (argv : BaseArgsType) : DriverFields :=
  JSONCompiler.new E SOLCJS_PATH (getCompilerOptionsAsync (opts argv) fileConfig).

End commands.

End Cli.

(** ** Further runs of the concrete project *)

Module Scenarios.

(** A back-end that reports one compilation error for every unit. *)
Definition failingBackend (solc : SolcWrapper) (unit_ : JsObject string)
    (remappings : JsObject string) : result CompilationResult :=
  Throw (CompilationError 1).

(** Collaborators under which an artifact that matches the sources of A
    is found for every name. *)
Definition upToDate : Collaborators :=
  withArtifactReader (Demo.env Demo.standardBackend) Demo.alwaysFresh.

(** Collaborators under which the artifact found for a name is one that
    the driver wrote. *)
Definition ownArtifacts : Collaborators :=
  withArtifactReader (Demo.env Demo.standardBackend)
    (fun _ _ name_ =>
       Some (Compiler.newArtifact (Demo.env Demo.standardBackend) name_
               "0.6.12+commit.27d51765" (Some "bytecode") {| settings := "{}" |}
               {| contracts := []; sources := [] |})).

End Scenarios.

Module DemoBundles.

(** [path.join] and [path.relative] on normalized POSIX paths, the second
    for a path below the first. *)
Definition posixJoin (a b : string) : string := a +:+ "/" +:+ b.

Definition posixRelative (from to : string) : string :=
  if String.prefix (from +:+ "/") to
  then String.substring (S (String.length from))
         (String.length to - S (String.length from)) to
  else to.

(** A project directory with two bundles of the same base name and a
    directory that cannot be listed. *)
Definition root : FsNode :=
  FsDir [("A.json", FsFile);
         ("README.md", FsFile);
         ("nested", FsDir [("A.json", FsFile); ("B.json", FsFile)]);
         ("private", FsLockedDir)].

(** The same directory without the one that cannot be listed. *)
Definition readable : FsNode :=
  FsDir [("A.json", FsFile);
         ("README.md", FsFile);
         ("nested", FsDir [("A.json", FsFile); ("B.json", FsFile)])].

Definition read (absolutePath_ : string) : option string :=
  if decide (absolutePath_ = "/p/bundles/A.json") then Some "{first}"
  else if decide (absolutePath_ = "/p/bundles/nested/A.json") then Some "{second}"
  else if decide (absolutePath_ = "/p/bundles/nested/B.json") then Some "{third}"
  else None.

Definition node : NodeApi :=
  {| pathJoin := posixJoin; pathRelative := posixRelative; readFileSync := read |}.

Definition listed : list ContractSource :=
  match JSONNameResolver.getAll (Demo.env Demo.standardBackend) node "bundles" readable with
  | Done contractSources => contractSources
  | Raise _ => []
  end.

Definition env : Collaborators := withBundles (Demo.env Demo.standardBackend) listed.

(** A JSON driver asked for every bundle. *)
Definition allBundles : DriverFields :=
  {| _artifactsDir := "artifacts"; _solcVersionIfExists := None;
     _specifiedContracts := ALL_CONTRACTS_IDENTIFIER;
     _shouldCompileIndependently := false |}.

End DemoBundles.

(** * Properties *)

(** ** The driver monad *)

Ltac unfold_driver :=
  unfold mbind, Driver_bind, mret, Driver_ret, throw, liftResult in *.

Lemma forOf_app {A S : Type} (body : S -> A -> Driver S) (l1 l2 : list A) (s : S)
    (st : DriverState) :
  forOf body s (l1 ++ l2) st =
  match forOf body s l1 st with
  | (Ok s1, st1) => forOf body s1 l2 st1
  | (Throw e, st1) => (Throw e, st1)
  end.
Proof.
  revert s st. induction l1 as [|x l1 IH]; intros s st; simpl.
  - reflexivity.
  - unfold_driver. destruct (body s x st) as [[s1|e] st1]; [apply IH | reflexivity].
Qed.

(** A property of the state that every iteration keeps, thrown or not,
    holds when the loop is left. *)
Lemma forOf_state_inv {A S : Type} (I : DriverState -> Prop)
    (body : S -> A -> Driver S) :
  (forall s x st, I st -> I (snd (body s x st))) ->
  forall l s st, I st -> I (snd (forOf body s l st)).
Proof.
  intros Hbody l. induction l as [|x l IH]; intros s st HI; simpl.
  - exact HI.
  - unfold_driver. specialize (Hbody s x st HI).
    destruct (body s x st) as [[s1|e] st1]; simpl in *; [apply IH|]; assumption.
Qed.

(** A property of locals and state that every completed iteration keeps
    holds when the loop completes. *)
Lemma forOf_inv {A S : Type} (I : S -> DriverState -> Prop)
    (body : S -> A -> Driver S) :
  (forall s x st s' st', I s st -> body s x st = (Ok s', st') -> I s' st') ->
  forall l s st s' st', I s st -> forOf body s l st = (Ok s', st') -> I s' st'.
Proof.
  intros Hbody l. induction l as [|x l IH]; intros s st s' st' HI Hrun; simpl in Hrun.
  - unfold_driver. injection Hrun as <- <-. exact HI.
  - unfold_driver. destruct (body s x st) as [[s1|e] st1] eqn:Hb; [|discriminate].
    eapply IH; [|exact Hrun]. eapply Hbody; eassumption.
Qed.

(** ** The wrapper registry *)

Lemma startsWith_cons (c : ascii) (p s : string) :
  startsWith s (String c p) = true ->
  exists s', s = String c s' /\ startsWith s' p = true.
Proof.
  unfold startsWith. destruct s as [|b s']; simpl; [discriminate|].
  destruct (ascii_dec c b) as [->|]; [|discriminate]. eauto.
Qed.

Ltac invert_prefix H :=
  repeat (apply startsWith_cons in H; destruct H as (? & -> & H)).

Lemma createSolcInstance_family (f : Family) (solcVersion : string) (st : DriverState) :
  startsWith solcVersion (familyPrefix f) = true ->
  _createSolcInstance solcVersion st = newSolcWrapper f solcVersion st.
Proof.
  intros H. destruct f; simpl in H; invert_prefix H;
    unfold _createSolcInstance, startsWith in *; simpl; rewrite ?H; reflexivity.
Qed.

Lemma createSolcInstance_unsupported (solcVersion : string) (st : DriverState) :
  ~ supported solcVersion ->
  _createSolcInstance solcVersion st = (Throw (UnsupportedVersionError solcVersion), st).
Proof.
  intros H. unfold _createSolcInstance.
  repeat match goal with
  | |- context [startsWith solcVersion ?p] =>
      destruct (startsWith solcVersion p) eqn:?
  end; try reflexivity; exfalso; apply H;
  [exists V01|exists V02|exists V03|exists V04|exists V05|exists V06|exists V07|exists V08];
  assumption.
Qed.

Lemma supported_dec (solcVersion : string) : supported solcVersion \/ ~ supported solcVersion.
Proof.
  destruct (startsWith solcVersion "0.1.") eqn:H1; [left; exists V01; exact H1|].
  destruct (startsWith solcVersion "0.2.") eqn:H2; [left; exists V02; exact H2|].
  destruct (startsWith solcVersion "0.3.") eqn:H3; [left; exists V03; exact H3|].
  destruct (startsWith solcVersion "0.4.") eqn:H4; [left; exists V04; exact H4|].
  destruct (startsWith solcVersion "0.5.") eqn:H5; [left; exists V05; exact H5|].
  destruct (startsWith solcVersion "0.6") eqn:H6; [left; exists V06; exact H6|].
  destruct (startsWith solcVersion "0.7") eqn:H7; [left; exists V07; exact H7|].
  destruct (startsWith solcVersion "0.8") eqn:H8; [left; exists V08; exact H8|].
  right. intros [f Hf]. destruct f; simpl in Hf; congruence.
Qed.

Lemma getSolcWrapper_hit (E : Collaborators) (solcVersion : string) (st : DriverState)
    (w : SolcWrapper) :
  solcWrappersByVersion st !! normalizeSolcVersion E solcVersion = Some w ->
  _getSolcWrapperForVersion E solcVersion st = (Ok w, st).
Proof. intros H. unfold _getSolcWrapperForVersion. rewrite H. reflexivity. Qed.

Lemma getSolcWrapper_miss (E : Collaborators) (solcVersion : string) (st : DriverState)
    (f : Family) :
  solcWrappersByVersion st !! normalizeSolcVersion E solcVersion = None ->
  startsWith (normalizeSolcVersion E solcVersion) (familyPrefix f) = true ->
  let w := {| wrapperId := allocated st; wrapperFamily := f;
              wrapperVersion := normalizeSolcVersion E solcVersion |} in
  _getSolcWrapperForVersion E solcVersion st =
  (Ok w, setWrappers st (<[normalizeSolcVersion E solcVersion := w]> (solcWrappersByVersion st))
                     (S (allocated st))).
Proof.
  intros Hnone Hf. unfold _getSolcWrapperForVersion. rewrite Hnone.
  rewrite (createSolcInstance_family f) by exact Hf. reflexivity.
Qed.

Lemma getSolcWrapper_unsupported (E : Collaborators) (solcVersion : string)
    (st : DriverState) :
  solcWrappersByVersion st !! normalizeSolcVersion E solcVersion = None ->
  ~ supported (normalizeSolcVersion E solcVersion) ->
  _getSolcWrapperForVersion E solcVersion st =
  (Throw (UnsupportedVersionError (normalizeSolcVersion E solcVersion)), st).
Proof.
  intros Hnone Hun. unfold _getSolcWrapperForVersion. rewrite Hnone.
  rewrite createSolcInstance_unsupported by exact Hun. reflexivity.
Qed.

(** The lookup either hits, allocates, or throws; files and call history
    are never touched. *)
Lemma getSolcWrapper_cases (E : Collaborators) (solcVersion : string) (st : DriverState) :
  let nv := normalizeSolcVersion E solcVersion in
  (exists w, solcWrappersByVersion st !! nv = Some w
             /\ _getSolcWrapperForVersion E solcVersion st = (Ok w, st))
  \/ (exists f, solcWrappersByVersion st !! nv = None
                /\ startsWith nv (familyPrefix f) = true
                /\ _getSolcWrapperForVersion E solcVersion st =
                   (Ok {| wrapperId := allocated st; wrapperFamily := f; wrapperVersion := nv |},
                    setWrappers st
                      (<[nv := {| wrapperId := allocated st; wrapperFamily := f;
                                  wrapperVersion := nv |}]> (solcWrappersByVersion st))
                      (S (allocated st))))
  \/ (solcWrappersByVersion st !! nv = None /\ ~ supported nv
      /\ _getSolcWrapperForVersion E solcVersion st = (Throw (UnsupportedVersionError nv), st)).
Proof.
  intros nv. destruct (solcWrappersByVersion st !! nv) as [w|] eqn:Hreg.
  - left. exists w. split; [reflexivity|]. apply getSolcWrapper_hit. exact Hreg.
  - right. destruct (supported_dec nv) as [[f Hf]|Hun].
    + left. exists f. repeat split; [exact Hf|]. apply getSolcWrapper_miss; assumption.
    + right. repeat split; [exact Hun|]. apply getSolcWrapper_unsupported; assumption.
Qed.

Lemma getSolcWrapper_registryOk (E : Collaborators) (solcVersion : string)
    (st : DriverState) :
  registryOk st -> registryOk (snd (_getSolcWrapperForVersion E solcVersion st)).
Proof.
  intros Hok.
  destruct (getSolcWrapper_cases E solcVersion st) as
    [(w & _ & ->)|[(f & Hnone & Hf & ->)|(_ & _ & ->)]]; simpl; try exact Hok.
  intros k w. unfold setWrappers; simpl. rewrite lookup_insert.
  case_decide as Hk.
  - intros [= <-]. simpl. subst k. repeat split; [exact Hf|lia].
  - intros Hw. destruct (Hok k w Hw) as (? & ? & ?). repeat split; [assumption..|lia].
Qed.

Lemma registryOk_empty (st : DriverState) :
  solcWrappersByVersion st = ∅ -> registryOk st.
Proof. intros Hempty k w. rewrite Hempty, lookup_empty. discriminate. Qed.

Lemma getSolcWrapper_version (E : Collaborators) (solcVersion : string)
    (st st' : DriverState) (w : SolcWrapper) :
  registryOk st ->
  _getSolcWrapperForVersion E solcVersion st = (Ok w, st') ->
  wrapperVersion w = normalizeSolcVersion E solcVersion.
Proof.
  intros Hok Hget.
  destruct (getSolcWrapper_cases E solcVersion st) as
    [(w0 & Hreg & Heq)|[(f & _ & _ & Heq)|(_ & _ & Heq)]];
    rewrite Heq in Hget; try discriminate; injection Hget as <- <-.
  - apply (Hok _ _ Hreg).
  - reflexivity.
Qed.

Lemma getSolcWrapper_files (E : Collaborators) (solcVersion : string) (st : DriverState) :
  artifactFiles (snd (_getSolcWrapperForVersion E solcVersion st)) = artifactFiles st
  /\ compileCalls (snd (_getSolcWrapperForVersion E solcVersion st)) = compileCalls st.
Proof.
  destruct (getSolcWrapper_cases E solcVersion st) as
    [(w & _ & ->)|[(f & _ & _ & ->)|(_ & _ & ->)]]; simpl; split; reflexivity.
Qed.

(** C8: the wrapper class is chosen by the prefix of the normalized
    version among [0.1.], [0.2.], [0.3.], [0.4.], [0.5.], [0.6], [0.7] and
    [0.8]; a version with none of these prefixes throws the error of an
    unsupported version.  A request for a version that has one of the
    prefixes and is not yet registered returns a new wrapper of the class
    of that prefix, constructed with the normalized version, and registers
    it under the normalized version; a request for a registered version
    returns the registered wrapper and changes nothing; so a second request
    whose version normalizes to the same string gets the very same wrapper
    object without allocating. *)
Theorem wrapper_selected_by_prefix_and_cached (E : Collaborators) :
  (forall f solcVersion st,
      startsWith solcVersion (familyPrefix f) = true ->
      _createSolcInstance solcVersion st =
      (Ok {| wrapperId := allocated st; wrapperFamily := f; wrapperVersion := solcVersion |},
       setWrappers st (solcWrappersByVersion st) (S (allocated st))))
  /\ (forall solcVersion st,
      ~ supported solcVersion ->
      _createSolcInstance solcVersion st = (Throw (UnsupportedVersionError solcVersion), st))
  /\ (forall f solcVersion st,
      solcWrappersByVersion st !! normalizeSolcVersion E solcVersion = None ->
      startsWith (normalizeSolcVersion E solcVersion) (familyPrefix f) = true ->
      _getSolcWrapperForVersion E solcVersion st =
      (Ok {| wrapperId := allocated st; wrapperFamily := f;
             wrapperVersion := normalizeSolcVersion E solcVersion |},
       setWrappers st
         (<[normalizeSolcVersion E solcVersion :=
              {| wrapperId := allocated st; wrapperFamily := f;
                 wrapperVersion := normalizeSolcVersion E solcVersion |}]>
            (solcWrappersByVersion st))
         (S (allocated st))))
  /\ (forall solcVersion st w,
      solcWrappersByVersion st !! normalizeSolcVersion E solcVersion = Some w ->
      _getSolcWrapperForVersion E solcVersion st = (Ok w, st))
  /\ (forall solcVersion st,
      solcWrappersByVersion st !! normalizeSolcVersion E solcVersion = None ->
      ~ supported (normalizeSolcVersion E solcVersion) ->
      _getSolcWrapperForVersion E solcVersion st =
      (Throw (UnsupportedVersionError (normalizeSolcVersion E solcVersion)), st))
  /\ (forall solcVersion st w st',
      _getSolcWrapperForVersion E solcVersion st = (Ok w, st') ->
      (solcWrappersByVersion st !! normalizeSolcVersion E solcVersion = Some w /\ st' = st)
      \/ (solcWrappersByVersion st !! normalizeSolcVersion E solcVersion = None
          /\ wrapperId w = allocated st
          /\ wrapperVersion w = normalizeSolcVersion E solcVersion
          /\ startsWith (normalizeSolcVersion E solcVersion)
                        (familyPrefix (wrapperFamily w)) = true
          /\ allocated st' = S (allocated st)
          /\ solcWrappersByVersion st' =
             <[normalizeSolcVersion E solcVersion := w]> (solcWrappersByVersion st)))
  /\ (forall v1 v2 st w st',
      normalizeSolcVersion E v1 = normalizeSolcVersion E v2 ->
      _getSolcWrapperForVersion E v1 st = (Ok w, st') ->
      _getSolcWrapperForVersion E v2 st' = (Ok w, st')).
Proof.
  split; [|split; [|split; [|split; [|split; [|split]]]]].
  - intros f v st Hf. rewrite (createSolcInstance_family f) by exact Hf. reflexivity.
  - intros v st Hun. apply createSolcInstance_unsupported. exact Hun.
  - intros f v st Hnone Hf. apply getSolcWrapper_miss; assumption.
  - intros v st w Hreg. apply getSolcWrapper_hit. exact Hreg.
  - intros v st Hnone Hun. apply getSolcWrapper_unsupported; assumption.
  - intros v st w st' Hget.
    destruct (getSolcWrapper_cases E v st) as
      [(w0 & Hreg & Heq)|[(f & Hnone & Hf & Heq)|(_ & _ & Heq)]];
      rewrite Heq in Hget; try discriminate; injection Hget as <- <-.
    + left. split; [exact Hreg|reflexivity].
    + right. simpl. repeat split; assumption.
  - intros v1 v2 st w st' Hnorm Hget.
    apply getSolcWrapper_hit. rewrite <- Hnorm.
    destruct (getSolcWrapper_cases E v1 st) as
      [(w0 & Hreg & Heq)|[(f & Hnone & Hf & Heq)|(_ & _ & Heq)]];
      rewrite Heq in Hget; try discriminate; injection Hget as <- <-.
    + exact Hreg.
    + simpl. apply lookup_insert_eq.
Qed.

Lemma wrapper_selected_by_prefix_and_cached_witness :
  _getSolcWrapperForVersion (Demo.env Demo.standardBackend) "v0.6.12+commit.27d51765"
    Demo.initial =
  (Ok {| wrapperId := 0; wrapperFamily := V06; wrapperVersion := "0.6.12+commit.27d51765" |},
   {| solcWrappersByVersion :=
        {[ "0.6.12+commit.27d51765" :=
             {| wrapperId := 0; wrapperFamily := V06;
                wrapperVersion := "0.6.12+commit.27d51765" |} ]};
      allocated := 1; artifactFiles := ∅; compileCalls := [] |})
  /\ _getSolcWrapperForVersion (Demo.env Demo.standardBackend) "0.6.12+commit.27d51765"
       (snd (_getSolcWrapperForVersion (Demo.env Demo.standardBackend)
               "v0.6.12+commit.27d51765" Demo.initial)) =
     (Ok {| wrapperId := 0; wrapperFamily := V06; wrapperVersion := "0.6.12+commit.27d51765" |},
      snd (_getSolcWrapperForVersion (Demo.env Demo.standardBackend) "v0.6.12+commit.27d51765"
             Demo.initial)).
Proof.
  destruct (wrapper_selected_by_prefix_and_cached (Demo.env Demo.standardBackend))
    as (_ & _ & Hmiss & _ & _ & _ & Hsecond).
  split.
  - apply (Hmiss V06 "v0.6.12+commit.27d51765" Demo.initial); reflexivity.
  - apply (Hsecond "v0.6.12+commit.27d51765" "0.6.12+commit.27d51765" Demo.initial);
      reflexivity.
Defined.

(** ** The artifact-cache gate *)

(** C3 (amended): without an artifact the gate answers "must rebuild".
    With an artifact whose recorded compiler version has a wrapper (already
    registered, or of a supported family) it answers "must rebuild" exactly
    when the schema version differs from the current constant, or that
    wrapper reports different settings, or the recorded source-tree hash
    differs from the new one, and "skip" otherwise.  With an artifact whose
    recorded compiler version has no wrapper the gate gives no answer: it
    throws the error of an unsupported version. *)
Theorem shouldCompile_answers (E : Collaborators) (contractData : ContractData)
    (st : DriverState) :
  match currentArtifactIfExists contractData with
  | None => Compiler._shouldCompile E contractData st = (Ok true, st)
  | Some currentArtifact =>
      let nv := normalizeSolcVersion E (version (compiler currentArtifact)) in
      (is_Some (solcWrappersByVersion st !! nv) \/ supported nv ->
       exists solc st1 answer,
         _getSolcWrapperForVersion E (version (compiler currentArtifact)) st = (Ok solc, st1)
         /\ Compiler._shouldCompile E contractData st = (Ok answer, st1)
         /\ (answer = true <->
             schemaVersion currentArtifact <> LATEST_ARTIFACT_VERSION E
             \/ areCompilerSettingsDifferent E solc (compilerSettings (compiler currentArtifact))
                = true
             \/ artifactSourceTreeHashHex currentArtifact
                <> Some (sourceTreeHashHex contractData)))
      /\ (solcWrappersByVersion st !! nv = None -> ~ supported nv ->
          Compiler._shouldCompile E contractData st = (Throw (UnsupportedVersionError nv), st))
  end.
Proof.
  unfold Compiler._shouldCompile.
  destruct (currentArtifactIfExists contractData) as [a|]; [|reflexivity].
  cbv zeta. split.
  - intros Hwrap.
    assert (exists solc st1,
      _getSolcWrapperForVersion E (version (compiler a)) st = (Ok solc, st1)) as (solc & st1 & Hget).
    { destruct (getSolcWrapper_cases E (version (compiler a)) st) as
        [(w & _ & Heq)|[(f & _ & _ & Heq)|(Hnone & Hun & _)]]; [eauto..|].
      destruct Hwrap as [[w Hw]|Hsup]; [congruence|contradiction]. }
    exists solc, st1. eexists. split; [exact Hget|].
    unfold_driver. rewrite Hget. split; [reflexivity|].
    rewrite !orb_true_iff, !negb_true_iff, !bool_decide_eq_false.
    split; [intros [[?|?]|?]|intros [?|[?|?]]]; auto.
  - intros Hnone Hun. unfold_driver.
    rewrite getSolcWrapper_unsupported by assumption. reflexivity.
Qed.

Lemma shouldCompile_answers_witness :
  Compiler._shouldCompile (Demo.env Demo.standardBackend)
    (Demo.dataOfA (Some Demo.freshArtifact)) Demo.initial
  = (Ok false,
     snd (_getSolcWrapperForVersion (Demo.env Demo.standardBackend)
            "v0.6.12+commit.27d51765" Demo.initial)).
Proof.
  destruct (shouldCompile_answers (Demo.env Demo.standardBackend)
              (Demo.dataOfA (Some Demo.freshArtifact)) Demo.initial) as [Hanswer _].
  destruct Hanswer as (solc & st1 & answer & Hget & Hgate & Hiff).
  - right. exists V06. reflexivity.
  - rewrite Hgate. simpl in Hget. injection Hget as <- <-.
    destruct answer; [|reflexivity].
    exfalso. destruct (proj1 Hiff eq_refl) as [H|[H|H]].
    + apply H. reflexivity.
    + discriminate H.
    + apply H. reflexivity.
Defined.

(** C3 as stated fails: an existing artifact of another schema version,
    recorded with a compiler version of no supported family, must be
    rebuilt according to the claim, but the gate throws instead of
    answering. *)
Lemma shouldCompile_throws_on_foreign_artifact :
  currentArtifactIfExists (Demo.dataOfA (Some Demo.foreignArtifact)) = Some Demo.foreignArtifact
  /\ schemaVersion Demo.foreignArtifact
     <> LATEST_ARTIFACT_VERSION (Demo.env Demo.standardBackend)
  /\ Compiler._shouldCompile (Demo.env Demo.standardBackend)
       (Demo.dataOfA (Some Demo.foreignArtifact)) Demo.initial
     = (Throw (UnsupportedVersionError "0.9.1+commit.0123abcd"), Demo.initial)
  /\ fst (Compiler._shouldCompile (Demo.env Demo.standardBackend)
            (Demo.dataOfA (Some Demo.foreignArtifact)) Demo.initial) <> Ok true.
Proof.
  split; [reflexivity|]. split; [discriminate|]. split; [reflexivity|]. discriminate.
Qed.

(** ** The JSON driver *)

Lemma json_persist_calls (E : Collaborators) (this : DriverFields)
    (contractFileName solcVersion : string) (compilerInput : StandardInput)
    (compilerOutput_ : StandardOutput) (st : DriverState) :
  compileCalls (snd (JSONCompiler._persistCompiledContractAsync E this contractFileName
                       solcVersion compilerInput compilerOutput_ st))
  = compileCalls st.
Proof.
  unfold JSONCompiler._persistCompiledContractAsync.
  apply (forOf_state_inv (fun st' => compileCalls st' = compileCalls st)); [|reflexivity].
  intros [] contractPath st0 H0.
  destruct (JsObj.get contractPath (contracts compilerOutput_)); simpl; exact H0.
Qed.

(** A bundle that is processed to the end has cost exactly one back-end
    call, and its bookkeeping record carries the constant hash. *)
Lemma compileBundle_completed (E : Collaborators) (this : DriverFields) (persist : bool)
    (pathToData pathToData' : gmap string ContractData) (contractFileName : string)
    (st st' : DriverState) :
  JSONCompiler.compileBundle E this persist pathToData contractFileName st
  = (Ok pathToData', st') ->
  (exists call, compileCalls st' = compileCalls st ++ [call])
  /\ exists contractPath contractData,
       pathToData' = <[contractPath := contractData]> pathToData
       /\ sourceTreeHashHex contractData = "0x".
Proof.
  unfold JSONCompiler.compileBundle. unfold_driver.
  destruct (resolveJSON E contractFileName) as [src|e]; [|discriminate].
  destruct (contractContentsOfBundle E (source src)) as [contents|e]; [|discriminate].
  destruct (JSONCompiler.chooseSolcVersion E this contents) as [v|e]; [|discriminate].
  pose proof (getSolcWrapper_files E v st) as [_ Hcalls].
  destruct (_getSolcWrapperForVersion E v st) as [[solc|e] st1]; [|discriminate].
  simpl in Hcalls. unfold issueCompile.
  destruct (solcCompileAsync E solc contents []) as [cr|e]; [|discriminate].
  destruct persist.
  - match goal with
    | |- context [JSONCompiler._persistCompiledContractAsync E this ?a ?b ?c ?d ?s] =>
        pose proof (json_persist_calls E this a b c d s) as Hp;
        destruct (JSONCompiler._persistCompiledContractAsync E this a b c d s)
          as [[[]|e] st2]
    end; [|discriminate].
    intros [= <- <-]. simpl in Hp. split.
    + eexists. rewrite Hp, Hcalls. reflexivity.
    + eexists _, _. split; reflexivity.
  - intros [= <- <-]. simpl. split.
    + eexists. rewrite Hcalls. reflexivity.
    + eexists _, _. split; reflexivity.
Qed.

Lemma json_loop_completed (E : Collaborators) (this : DriverFields) (persist : bool)
    (contractFileNames : list string) :
  forall (pathToData pathToData' : gmap string ContractData) (st st' : DriverState),
  (forall p d, pathToData !! p = Some d -> sourceTreeHashHex d = "0x") ->
  forOf (JSONCompiler.compileBundle E this persist) pathToData contractFileNames st
  = (Ok pathToData', st') ->
  (exists calls, compileCalls st' = compileCalls st ++ calls
                 /\ length calls = length contractFileNames)
  /\ (forall p d, pathToData' !! p = Some d -> sourceTreeHashHex d = "0x").
Proof.
  induction contractFileNames as [|n names IH]; intros m m' st st' Hm Hrun; simpl in Hrun.
  - unfold_driver. injection Hrun as <- <-. split; [|exact Hm].
    exists []. rewrite app_nil_r. split; reflexivity.
  - unfold_driver.
    destruct (JSONCompiler.compileBundle E this persist m n st) as [[m1|e] st1] eqn:Hb;
      [|discriminate].
    apply compileBundle_completed in Hb as [[call Hcall] (cp & cd & -> & Hcd)].
    apply IH in Hrun as [(calls & Hcalls & Hlen) Hm'].
    + split; [|exact Hm'].
      exists (call :: calls). rewrite Hcalls, Hcall, <- app_assoc. simpl.
      split; [reflexivity|]. rewrite Hlen. reflexivity.
    + intros p d. rewrite lookup_insert. case_decide; [intros [= <-]; exact Hcd|apply Hm].
Qed.


(** C9 (amended): [JSONCompiler.getCompilerOutputsAsync] has two outcomes
    only.  When every requested bundle is processed without a throw it
    returns the empty array, whatever the bundles and the configuration;
    when the processing of a bundle throws, that error is what the call
    raises. *)
Theorem json_outputs_empty_or_throw (E : Collaborators) (this : DriverFields)
    (st : DriverState) :
  JSONCompiler.getCompilerOutputsAsync E this st =
  match forOf (JSONCompiler.compileBundle E this false) ∅
              (JSONCompiler.getContractFileNamesToCompile E this) st with
  | (Ok _, st') => (Ok [], st')
  | (Throw e, st') => (Throw e, st')
  end
  /\ forall outputs st',
       JSONCompiler.getCompilerOutputsAsync E this st = (Ok outputs, st') -> outputs = [].
Proof.
  assert (JSONCompiler.getCompilerOutputsAsync E this st =
          match forOf (JSONCompiler.compileBundle E this false) ∅
                      (JSONCompiler.getContractFileNamesToCompile E this) st with
          | (Ok _, st') => (Ok [], st')
          | (Throw e, st') => (Throw e, st')
          end) as Heq.
  { unfold JSONCompiler.getCompilerOutputsAsync, JSONCompiler._compileContractsAsync.
    unfold_driver. simpl.
    destruct (forOf (JSONCompiler.compileBundle E this false) ∅
                (JSONCompiler.getContractFileNamesToCompile E this) st) as [[m|e] st1];
      reflexivity. }
  split; [exact Heq|].
  intros outputs st'. rewrite Heq.
  destruct (forOf (JSONCompiler.compileBundle E this false) ∅
              (JSONCompiler.getContractFileNamesToCompile E this) st) as [[m|e] st1];
    [|discriminate].
  intros [= <- _]. reflexivity.
Qed.

Lemma json_outputs_empty_or_throw_witness :
  JSONCompiler.getCompilerOutputsAsync (Demo.env Demo.standardBackend)
    (Demo.jsonDriver ["A"]) Demo.initial
  = (Ok [],
     snd (JSONCompiler.getCompilerOutputsAsync (Demo.env Demo.standardBackend)
            (Demo.jsonDriver ["A"]) Demo.initial))
  /\ fst (JSONCompiler.getCompilerOutputsAsync (Demo.env Demo.standardBackend)
            (Demo.jsonDriver ["A"]) Demo.initial) = Ok [].
Proof.
  split; [reflexivity|].
  destruct (JSONCompiler.getCompilerOutputsAsync (Demo.env Demo.standardBackend)
              (Demo.jsonDriver ["A"]) Demo.initial) as [[outputs|e] st'] eqn:Hrun.
  - simpl. f_equal.
    apply (proj2 (json_outputs_empty_or_throw (Demo.env Demo.standardBackend)
                    (Demo.jsonDriver ["A"]) Demo.initial) outputs st').
    exact Hrun.
  - discriminate Hrun.
Defined.

(** C9 as stated fails: on a bundle whose constraint no release satisfies
    the call raises and returns no array at all. *)
Lemma json_outputs_throw_on_unsatisfiable_bundle :
  JSONCompiler.getCompilerOutputsAsync (Demo.env Demo.standardBackend)
    (Demo.jsonDriver ["Z"]) Demo.initial
  = (Throw (UnsatisfiableVersionError "^9.9.9"), Demo.initial)
  /\ fst (JSONCompiler.getCompilerOutputsAsync (Demo.env Demo.standardBackend)
            (Demo.jsonDriver ["Z"]) Demo.initial) <> Ok [].
Proof. split; [reflexivity|discriminate]. Qed.

Section json_rerun.
Context (E : Collaborators) (this : DriverFields).









End json_rerun.



(** ** Objects with ordered keys *)

Section jsobj.
Context {V : Type}.
Implicit Types (o : list (string * V)) (k : string) (v : V).

Lemma JsObj_get_set_eq o k v : JsObj.get k (JsObj.set k v o) = Some v.
Proof.
  induction o as [|[k' v'] o IH]; simpl.
  - rewrite decide_True by reflexivity. reflexivity.
  - destruct (decide (k = k')) as [->|Hne]; simpl.
    + rewrite decide_True by reflexivity. reflexivity.
    + rewrite decide_False by exact Hne. exact IH.
Qed.

Lemma JsObj_get_set_ne o k k' v : k <> k' -> JsObj.get k' (JsObj.set k v o) = JsObj.get k' o.
Proof.
  intros Hne. induction o as [|[k0 v0] o IH]; simpl.
  - rewrite decide_False by congruence. reflexivity.
  - destruct (decide (k = k0)) as [->|Hne0]; simpl.
    + rewrite !decide_False by congruence. reflexivity.
    + destruct (decide (k' = k0)); [reflexivity|exact IH].
Qed.

Lemma JsObj_keys_set o k v :
  JsObj.keys (JsObj.set k v o) =
  match JsObj.get k o with
  | Some _ => JsObj.keys o
  | None => JsObj.keys o ++ [k]
  end.
Proof.
  unfold JsObj.keys. induction o as [|[k' v'] o IH]; simpl.
  - reflexivity.
  - destruct (decide (k = k')) as [->|Hne]; simpl; [reflexivity|].
    rewrite IH. destruct (JsObj.get k o); reflexivity.
Qed.

Lemma JsObj_elem_of_keys o k : k ∈ JsObj.keys o <-> is_Some (JsObj.get k o).
Proof.
  unfold JsObj.keys. induction o as [|[k' v'] o IH]; simpl.
  - split; [intros H; inversion H|intros [? ?]; discriminate].
  - rewrite elem_of_cons, IH. destruct (decide (k = k')) as [->|Hne].
    + split; [eauto|left; reflexivity].
    + split; [intros [?|?]; [contradiction|assumption]|right; assumption].
Qed.

Lemma JsObj_elem_of_keys_set o k k' v :
  k' ∈ JsObj.keys (JsObj.set k v o) <-> k' = k \/ k' ∈ JsObj.keys o.
Proof.
  rewrite !JsObj_elem_of_keys. destruct (decide (k = k')) as [->|Hne].
  - rewrite JsObj_get_set_eq. split; [left; reflexivity|eauto].
  - rewrite JsObj_get_set_ne by exact Hne.
    split; [right; assumption|intros [?|?]; [congruence|assumption]].
Qed.

End jsobj.

(** ** The planner *)

Section planner.
Context (E : Collaborators) (this : DriverFields).

Lemma planContract_cases (independently : bool) (plan : Compiler.Plan)
    (contractName_ : string) (st : DriverState) :
  Compiler.planContract E this independently plan contractName_ st =
  match spyWalk E contractName_ with
  | Throw e => (Throw e, st)
  | Ok walk =>
      match Compiler._shouldCompile E (contractDataFor E this st contractName_ walk) st with
      | (Throw e, st1) => (Throw e, st1)
      | (Ok false, st1) => (Ok plan, st1)
      | (Ok true, st1) =>
          match Compiler.chooseSolcVersion E this (contractSource walk) with
          | Throw e => (Throw e, st1)
          | Ok solcVersion =>
              (Ok (planWith independently plan walk
                     (contractDataFor E this st contractName_ walk) solcVersion), st1)
          end
      end
  end.
Proof.
  unfold Compiler.planContract. unfold_driver.
  destruct (spyWalk E contractName_) as [walk|e]; [|reflexivity].
  fold (contractDataFor E this st contractName_ walk).
  destruct (Compiler._shouldCompile E (contractDataFor E this st contractName_ walk) st)
    as [[[|]|e] st1]; simpl; reflexivity.
Qed.

(** The gate touches the registry only. *)
Lemma shouldCompile_state (contractData : ContractData) (st : DriverState) :
  artifactFiles (snd (Compiler._shouldCompile E contractData st)) = artifactFiles st
  /\ compileCalls (snd (Compiler._shouldCompile E contractData st)) = compileCalls st
  /\ (registryOk st -> registryOk (snd (Compiler._shouldCompile E contractData st))).
Proof.
  unfold Compiler._shouldCompile.
  destruct (currentArtifactIfExists contractData) as [a|];
    [|split; [|split]; simpl; auto].
  unfold_driver.
  pose proof (getSolcWrapper_files E (version (compiler a)) st) as [Hf Hc].
  pose proof (getSolcWrapper_registryOk E (version (compiler a)) st) as Hr.
  destruct (_getSolcWrapperForVersion E (version (compiler a)) st) as [[solc|e] st1];
    simpl in *; (split; [|split]); assumption.
Qed.

Lemma planContract_state (independently : bool) (plan : Compiler.Plan)
    (contractName_ : string) (st : DriverState) :
  artifactFiles (snd (Compiler.planContract E this independently plan contractName_ st))
  = artifactFiles st
  /\ compileCalls (snd (Compiler.planContract E this independently plan contractName_ st))
     = compileCalls st
  /\ (registryOk st ->
      registryOk (snd (Compiler.planContract E this independently plan contractName_ st))).
Proof.
  rewrite planContract_cases.
  destruct (spyWalk E contractName_) as [walk|e]; [|split; [|split]; simpl; auto].
  pose proof (shouldCompile_state (contractDataFor E this st contractName_ walk) st) as H.
  destruct (Compiler._shouldCompile E (contractDataFor E this st contractName_ walk) st)
    as [[[|]|e] st1]; simpl in *; try exact H.
  destruct (Compiler.chooseSolcVersion E this (contractSource walk)); exact H.
Qed.

(** Planning reads the artifacts directory and never writes it, and it
    issues no back-end call. *)
Lemma planContracts_state (independently : bool) (contractNames : list string)
    (plan : Compiler.Plan) (st : DriverState) :
  let st' := snd (forOf (Compiler.planContract E this independently) plan contractNames st) in
  artifactFiles st' = artifactFiles st
  /\ compileCalls st' = compileCalls st
  /\ (registryOk st -> registryOk st').
Proof.
  cbv zeta.
  apply (forOf_state_inv (fun st' =>
           artifactFiles st' = artifactFiles st /\ compileCalls st' = compileCalls st
           /\ (registryOk st -> registryOk st'))); [|split; [|split]; auto].
  intros plan0 n st0 (Hf & Hc & Hr).
  destruct (planContract_state independently plan0 n st0) as (Hf' & Hc' & Hr').
  split; [|split]; [congruence|congruence|auto].
Qed.

Lemma chooseSolcVersion_pinned (pin : string) (contractSource_ : ContractSource) :
  truthy (_solcVersionIfExists this) = Some pin ->
  Compiler.chooseSolcVersion E this contractSource_ = Ok pin.
Proof. intros H. unfold Compiler.chooseSolcVersion. rewrite H. reflexivity. Qed.

Lemma planContracts_pinned_keys (pin : string) (independently : bool)
    (contractNames : list string) (plan plan' : Compiler.Plan) (st st' : DriverState) :
  truthy (_solcVersionIfExists this) = Some pin ->
  (forall v, v ∈ JsObj.keys (Compiler.compilationUnitsByVersion plan) -> v = pin) ->
  forOf (Compiler.planContract E this independently) plan contractNames st = (Ok plan', st') ->
  forall v, v ∈ JsObj.keys (Compiler.compilationUnitsByVersion plan') -> v = pin.
Proof.
  intros Hpin Hplan Hrun.
  refine (forOf_inv
            (fun pl _ => forall v, v ∈ JsObj.keys (Compiler.compilationUnitsByVersion pl)
                                   -> v = pin)
            _ _ contractNames plan st plan' st' Hplan Hrun).
  intros pl n st0 pl' st0' Hinv. rewrite planContract_cases.
  destruct (spyWalk E n) as [walk|e]; [|discriminate].
  destruct (Compiler._shouldCompile E (contractDataFor E this st0 n walk) st0)
    as [[[|]|e] st1]; try discriminate.
  - rewrite (chooseSolcVersion_pinned pin) by exact Hpin.
    intros [= <- <-] v. simpl. rewrite JsObj_elem_of_keys_set.
    intros [->|Hv]; [reflexivity|apply Hinv; exact Hv].
  - intros [= <- <-]. exact Hinv.
Qed.

End planner.

Lemma truthy_Some (s : option string) (v : string) : truthy s = Some v -> s = Some v /\ v <> "".
Proof.
  unfold truthy. destruct s as [w|]; [|discriminate].
  destruct (decide (w = "")); [discriminate|]. intros [= <-]. split; [reflexivity|assumption].
Qed.

(** ** The version selector *)

Section selector.
Context (E : Collaborators).
Hypothesis semverLt_irrefl : forall a, semverLt E a a = false.
Hypothesis semverLt_trans :
  forall a b c, semverLt E a b = true -> semverLt E b c = true -> semverLt E a c = true.

Lemma scan_best (range : string) (versions : list string) :
  forall seen max, bestOf E range seen max ->
    bestOf E range (seen ++ versions) (fold_left (maxSatisfyingStep E range) versions max).
Proof.
  induction versions as [|v versions IH]; intros seen max Hbest; simpl.
  - rewrite app_nil_r. exact Hbest.
  - replace (seen ++ v :: versions) with ((seen ++ [v]) ++ versions)
      by (rewrite <- app_assoc; reflexivity).
    apply IH. unfold maxSatisfyingStep, bestOf in *.
    destruct (rangeTest E range v) eqn:Htest.
    + destruct max as [m|].
      * destruct Hbest as (Hin & Hm & Hmax).
        destruct (semverLt E m v) eqn:Hlt.
        -- split; [apply elem_of_app; right; apply list_elem_of_singleton; reflexivity|].
           split; [exact Htest|].
           intros w Hw Hwt. apply elem_of_app in Hw as [Hw|Hw].
           ++ destruct (semverLt E v w) eqn:Hvw; [|reflexivity].
              rewrite <- (Hmax w Hw Hwt). symmetry. eapply semverLt_trans; eassumption.
           ++ apply list_elem_of_singleton in Hw as ->. apply semverLt_irrefl.
        -- split; [apply elem_of_app; left; exact Hin|]. split; [exact Hm|].
           intros w Hw Hwt. apply elem_of_app in Hw as [Hw|Hw]; [auto|].
           apply list_elem_of_singleton in Hw as ->. exact Hlt.
      * split; [apply elem_of_app; right; apply list_elem_of_singleton; reflexivity|].
        split; [exact Htest|].
        intros w Hw Hwt. apply elem_of_app in Hw as [Hw|Hw].
        -- rewrite (Hbest w Hw) in Hwt. discriminate.
        -- apply list_elem_of_singleton in Hw as ->. apply semverLt_irrefl.
    + destruct max as [m|].
      * destruct Hbest as (Hin & Hm & Hmax).
        split; [apply elem_of_app; left; exact Hin|]. split; [exact Hm|].
        intros w Hw Hwt. apply elem_of_app in Hw as [Hw|Hw]; [auto|].
        apply list_elem_of_singleton in Hw as ->. congruence.
      * intros w Hw. apply elem_of_app in Hw as [Hw|Hw]; [auto|].
        apply list_elem_of_singleton in Hw as ->. exact Htest.
Qed.

(** [maxSatisfying] returns a satisfying version that no satisfying
    version exceeds, and nothing only when no version satisfies. *)
Lemma maxSatisfying_spec (versions : list string) (range : string) :
  bestOf E range versions (maxSatisfying E versions range).
Proof.
  apply (scan_best range versions [] None). intros w Hw. inversion Hw.
Qed.

End selector.

(** C5: without a pin, the version chosen for a contract is the release
    recorded for the greatest short version of the index that satisfies the
    range of the contract's pragma (given that the semver order is a strict
    order and that the empty string is no version); when no short version
    of the index satisfies the range the selection throws the error of an
    unsatisfiable constraint.  A run that reaches such a contract after the
    gate asked to rebuild it fails with that error, and the artifact files
    are the ones the run started with. *)
Theorem version_selected_without_pin (E : Collaborators) (this : DriverFields) :
  truthy (_solcVersionIfExists this) = None ->
  (forall a, semverLt E a a = false) ->
  (forall a b c, semverLt E a b = true -> semverLt E b c = true -> semverLt E a c = true) ->
  (forall range, rangeTest E range "" = false) ->
  (forall contractSource_,
      let range := parseSolidityVersionRange E (source contractSource_) in
      match Compiler.chooseSolcVersion E this contractSource_ with
      | Ok solcVersion =>
          exists short full,
            short ∈ JsObj.keys (releases E)
            /\ rangeTest E range short = true
            /\ (forall w, w ∈ JsObj.keys (releases E) -> rangeTest E range w = true ->
                          semverLt E short w = false)
            /\ JsObj.get short (releases E) = Some full
            /\ solcVersion = normalizeSolcVersion E full
      | Throw e =>
          e = UnsatisfiableVersionError range
          /\ forall w, w ∈ JsObj.keys (releases E) -> rangeTest E range w = false
      end)
  /\ (forall pre n post opts st plan1 st1 walk st2,
      forOf (Compiler.planContract E this (shouldCompileIndependently opts))
            Compiler.emptyPlan pre st = (Ok plan1, st1) ->
      spyWalk E n = Ok walk ->
      Compiler._shouldCompile E (contractDataFor E this st1 n walk) st1 = (Ok true, st2) ->
      (forall w, w ∈ JsObj.keys (releases E) ->
         rangeTest E (parseSolidityVersionRange E (source (contractSource walk))) w = false) ->
      Compiler._compileContractsAsync E this (pre ++ n :: post) opts st
      = (Throw (UnsatisfiableVersionError
                  (parseSolidityVersionRange E (source (contractSource walk)))), st2)
      /\ artifactFiles st2 = artifactFiles st).
Proof.
  intros Hnopin Hirrefl Htrans Hempty.
  assert (forall contractSource_,
      let range := parseSolidityVersionRange E (source contractSource_) in
      match Compiler.chooseSolcVersion E this contractSource_ with
      | Ok solcVersion =>
          exists short full,
            short ∈ JsObj.keys (releases E)
            /\ rangeTest E range short = true
            /\ (forall w, w ∈ JsObj.keys (releases E) -> rangeTest E range w = true ->
                          semverLt E short w = false)
            /\ JsObj.get short (releases E) = Some full
            /\ solcVersion = normalizeSolcVersion E full
      | Throw e =>
          e = UnsatisfiableVersionError range
          /\ forall w, w ∈ JsObj.keys (releases E) -> rangeTest E range w = false
      end) as Hchoose.
  { intros src range. unfold Compiler.chooseSolcVersion. rewrite Hnopin. fold range.
    pose proof (maxSatisfying_spec E Hirrefl Htrans (JsObj.keys (releases E)) range) as Hbest.
    unfold bestOf in Hbest.
    destruct (maxSatisfying E (JsObj.keys (releases E)) range) as [m|]; simpl.
    - destruct Hbest as (Hin & Hm & Hmax).
      destruct (decide (m = "")) as [->|_]; [rewrite Hempty in Hm; discriminate|].
      pose proof (proj1 (JsObj_elem_of_keys _ _) Hin) as [full Hfull].
      rewrite Hfull. exists m, full. auto.
    - split; [reflexivity|exact Hbest]. }
  split; [exact Hchoose|].
  intros pre n post opts st plan1 st1 walk st2 Hpre Hwalk Hgate Hnone.
  split.
  - unfold Compiler._compileContractsAsync, Compiler.planContracts. unfold_driver.
    rewrite forOf_app, Hpre. simpl. unfold_driver.
    rewrite planContract_cases, Hwalk, Hgate.
    specialize (Hchoose (contractSource walk)). cbv zeta in Hchoose.
    destruct (Compiler.chooseSolcVersion E this (contractSource walk)) as [v|e].
    + destruct Hchoose as (short & full & Hin & Hsat & _).
      rewrite (Hnone short Hin) in Hsat. discriminate.
    + destruct Hchoose as [-> _]. reflexivity.
  - pose proof (planContracts_state E this (shouldCompileIndependently opts) pre
                  Compiler.emptyPlan st) as (Hf & _). cbv zeta in Hf.
    rewrite Hpre in Hf. simpl in Hf.
    pose proof (shouldCompile_state E (contractDataFor E this st1 n walk) st1) as (Hf' & _).
    rewrite Hgate in Hf'. simpl in Hf'. congruence.
Qed.

(** The order and the ranges of the concrete project. *)

Lemma tripleLt_irrefl (a : nat * nat * nat) : Demo.tripleLt a a = false.
Proof.
  destruct a as [[a1 a2] a3]. unfold Demo.tripleLt.
  apply not_true_iff_false. intros H.
  repeat (rewrite ?orb_true_iff, ?andb_true_iff, ?Nat.ltb_lt, ?Nat.eqb_eq in H). lia.
Qed.

Lemma tripleLt_trans (a b c : nat * nat * nat) :
  Demo.tripleLt a b = true -> Demo.tripleLt b c = true -> Demo.tripleLt a c = true.
Proof.
  destruct a as [[a1 a2] a3], b as [[b1 b2] b3], c as [[c1 c2] c3]. unfold Demo.tripleLt.
  repeat (rewrite ?orb_true_iff, ?andb_true_iff, ?Nat.ltb_lt, ?Nat.eqb_eq). lia.
Qed.

Lemma versionLt_irrefl (a : string) : Demo.versionLt a a = false.
Proof.
  unfold Demo.versionLt. destruct (Demo.parseVersion a); [apply tripleLt_irrefl|reflexivity].
Qed.

Lemma versionLt_trans (a b c : string) :
  Demo.versionLt a b = true -> Demo.versionLt b c = true -> Demo.versionLt a c = true.
Proof.
  unfold Demo.versionLt.
  destruct (Demo.parseVersion a), (Demo.parseVersion b), (Demo.parseVersion c);
    try discriminate. apply tripleLt_trans.
Qed.

Lemma caretTest_empty (range : string) : Demo.caretTest range "" = false.
Proof.
  unfold Demo.caretTest. destruct range as [|c r]; [reflexivity|].
  destruct (Ascii.eqb_spec c "^"%char) as [->|Hne].
  - destruct (Demo.parseVersion r) as [[[x y] z]|]; reflexivity.
  - destruct c as [[] [] [] [] [] [] [] []]; try reflexivity. contradiction.
Qed.

Lemma version_selected_without_pin_witness :
  truthy (_solcVersionIfExists (Demo.driver ["A"; "Z"] false)) = None
  /\ Compiler.chooseSolcVersion (Demo.env Demo.standardBackend)
       (Demo.driver ["A"; "Z"] false) Demo.srcA = Ok "0.6.12+commit.27d51765"
  /\ Compiler._compileContractsAsync (Demo.env Demo.standardBackend)
       (Demo.driver ["A"; "Z"] false) (["A"] ++ "Z" :: []) Demo.persisting Demo.initial
     = (Throw (UnsatisfiableVersionError "^9.9.9"),
        snd (Compiler._compileContractsAsync (Demo.env Demo.standardBackend)
               (Demo.driver ["A"; "Z"] false) ["A"; "Z"] Demo.persisting Demo.initial))
  /\ artifactFiles
       (snd (Compiler._compileContractsAsync (Demo.env Demo.standardBackend)
               (Demo.driver ["A"; "Z"] false) ["A"; "Z"] Demo.persisting Demo.initial))
     = artifactFiles Demo.initial.
Proof.
  split; [reflexivity|]. split; [reflexivity|].
  eapply (proj2 (version_selected_without_pin (Demo.env Demo.standardBackend)
                   (Demo.driver ["A"; "Z"] false) eq_refl
                   versionLt_irrefl versionLt_trans caretTest_empty)
            ["A"] "Z" [] Demo.persisting Demo.initial _ _ Demo.walkZ
            (snd (Compiler._compileContractsAsync (Demo.env Demo.standardBackend)
                    (Demo.driver ["A"; "Z"] false) ["A"; "Z"] Demo.persisting
                    Demo.initial))).
  - vm_compute. reflexivity.
  - reflexivity.
  - vm_compute. reflexivity.
  - intros w Hw. simpl in Hw.
    repeat (apply elem_of_cons in Hw as [->|Hw]; [reflexivity|]).
    inversion Hw.
Defined.

(** ** The shape of the plan *)

Lemma fillUnit_keys (rcss : list ContractSource) :
  forall (unit_ : ContractContentsByPath) (k : string),
  k ∈ JsObj.keys (Compiler.fillUnit unit_ rcss) <->
  k ∈ JsObj.keys unit_ \/ exists rcs, rcs ∈ rcss /\ absolutePath rcs = k.
Proof.
  unfold Compiler.fillUnit.
  induction rcss as [|rcs rcss IH]; intros unit_ k; simpl.
  - split; [left; assumption|]. intros [H|(rcs & H & _)]; [exact H|inversion H].
  - rewrite IH, JsObj_elem_of_keys_set. split.
    + intros [[->|H]|(r & Hr & Hk)].
      * right. exists rcs. split; [left|reflexivity].
      * left. exact H.
      * right. exists r. split; [right; exact Hr|exact Hk].
    + intros [H|(r & Hr & Hk)].
      * left. right. exact H.
      * apply elem_of_cons in Hr as [->|Hr].
        -- left. left. symmetry. exact Hk.
        -- right. exists r. split; assumption.
Qed.

Lemma unitCount_set_append (units : CompilationUnitsByVersion) (solcVersion : string)
    (unit_ : ContractContentsByPath) :
  unitCount (JsObj.set solcVersion (default [] (JsObj.get solcVersion units) ++ [unit_]) units)
  = S (unitCount units).
Proof.
  unfold unitCount, JsObj.values.
  induction units as [|[k us] units IH]; simpl.
  - reflexivity.
  - destruct (decide (solcVersion = k)) as [->|Hne]; simpl.
    + rewrite !length_app. simpl. lia.
    + rewrite !length_app. simpl in IH. rewrite IH. lia.
Qed.

Section plan_shape.
Context (E : Collaborators) (this : DriverFields).

(** A completed planning step either skipped its contract or made it a
    survivor and placed its files. *)
Lemma planContract_survivor (independently : bool) (plan plan' : Compiler.Plan)
    (contractName_ : string) (st st' : DriverState) :
  Compiler.planContract E this independently plan contractName_ st = (Ok plan', st') ->
  (survivorOf E this st contractName_ = [] /\ plan' = plan)
  \/ exists walk solcVersion,
       survivorOf E this st contractName_ =
         [{| survivorName := contractName_; survivorWalk := walk;
             survivorVersion := solcVersion |}]
       /\ plan' = planWith independently plan walk
                    (contractDataFor E this st contractName_ walk) solcVersion.
Proof.
  rewrite planContract_cases. unfold survivorOf.
  destruct (spyWalk E contractName_) as [walk|e]; [|discriminate].
  destruct (Compiler._shouldCompile E (contractDataFor E this st contractName_ walk) st)
    as [[[|]|e] st1]; try discriminate.
  - destruct (Compiler.chooseSolcVersion E this (contractSource walk)) as [v|e];
      [|discriminate].
    intros [= <- <-]. right. exists walk, v. split; reflexivity.
  - intros [= <- <-]. left. split; reflexivity.
Qed.

Lemma planWith_batched_single (plan : Compiler.Plan) (walk : SpyWalk)
    (contractData : ContractData) (solcVersion : string) :
  singleUnits (Compiler.compilationUnitsByVersion plan) ->
  singleUnits (Compiler.compilationUnitsByVersion
                 (planWith false plan walk contractData solcVersion)).
Proof.
  intros Hsingle v us. simpl.
  destruct (decide (solcVersion = v)) as [->|Hne].
  - rewrite JsObj_get_set_eq. intros [= <-].
    destruct (JsObj.get v (Compiler.compilationUnitsByVersion plan)) as [us0|] eqn:Hget; simpl.
    + destruct (Hsingle v us0 Hget) as [u ->]. eauto.
    + eauto.
  - rewrite JsObj_get_set_ne by exact Hne. apply Hsingle.
Qed.

(** In batched mode the first unit of a version only gains files. *)
Lemma planWith_batched_grows (plan : Compiler.Plan) (walk : SpyWalk)
    (contractData : ContractData) (solcVersion v : string) (u : ContractContentsByPath) :
  JsObj.get v (Compiler.compilationUnitsByVersion plan) = Some [u] ->
  exists u', JsObj.get v (Compiler.compilationUnitsByVersion
                            (planWith false plan walk contractData solcVersion)) = Some [u']
             /\ forall k, k ∈ JsObj.keys u -> k ∈ JsObj.keys u'.
Proof.
  intros Hget. simpl. destruct (decide (solcVersion = v)) as [->|Hne].
  - rewrite JsObj_get_set_eq, Hget. simpl. eexists. split; [reflexivity|].
    intros k Hk. apply fillUnit_keys. left. exact Hk.
  - rewrite JsObj_get_set_ne by exact Hne. exists u. split; [exact Hget|auto].
Qed.

Lemma batched_loop (contractNames : list string) :
  forall (plan plan' : Compiler.Plan) (st st' : DriverState),
  singleUnits (Compiler.compilationUnitsByVersion plan) ->
  forOf (Compiler.planContract E this false) plan contractNames st = (Ok plan', st') ->
  singleUnits (Compiler.compilationUnitsByVersion plan')
  /\ (forall v u, JsObj.get v (Compiler.compilationUnitsByVersion plan) = Some [u] ->
        exists u', JsObj.get v (Compiler.compilationUnitsByVersion plan') = Some [u']
                   /\ forall k, k ∈ JsObj.keys u -> k ∈ JsObj.keys u')
  /\ (forall s, s ∈ survivors E this false plan contractNames st ->
        exists u, JsObj.get (survivorVersion s) (Compiler.compilationUnitsByVersion plan')
                  = Some [u]
                  /\ forall rcs, rcs ∈ resolvedContractSources (survivorWalk s) ->
                                 absolutePath rcs ∈ JsObj.keys u).
Proof.
  induction contractNames as [|n names IH]; intros plan plan' st st' Hsingle Hrun;
    simpl in Hrun; unfold_driver.
  - injection Hrun as <- <-. split; [exact Hsingle|]. split; [eauto|].
    intros s Hs. inversion Hs.
  - simpl.
    destruct (Compiler.planContract E this false plan n st) as [[plan1|e] st1] eqn:Hstep;
      [|discriminate].
    apply planContract_survivor in Hstep as [[Hnone ->]|(walk & v & Hsurv & ->)].
    + rewrite Hnone. simpl. apply (IH _ _ _ _ Hsingle Hrun).
    + rewrite Hsurv.
      destruct (IH _ _ _ _ (planWith_batched_single plan walk _ v Hsingle) Hrun)
        as (Hsingle' & Hgrow & Hsurvivors).
      split; [exact Hsingle'|]. split.
      * intros v0 u Hget.
        destruct (planWith_batched_grows plan walk
                    (contractDataFor E this st n walk) v v0 u Hget) as (u1 & Hget1 & Hsub1).
        destruct (Hgrow v0 u1 Hget1) as (u2 & Hget2 & Hsub2).
        exists u2. split; [exact Hget2|auto].
      * intros s Hs. apply elem_of_cons in Hs as [->|Hs]; [|apply Hsurvivors; exact Hs].
        simpl.
        assert (exists u1,
          JsObj.get v (Compiler.compilationUnitsByVersion
                         (planWith false plan walk (contractDataFor E this st n walk) v))
          = Some [u1]
          /\ forall rcs, rcs ∈ resolvedContractSources walk ->
                         absolutePath rcs ∈ JsObj.keys u1) as (u1 & Hget1 & Hin1).
        { simpl. rewrite JsObj_get_set_eq.
          destruct (JsObj.get v (Compiler.compilationUnitsByVersion plan)) as [us0|] eqn:Hget;
            simpl.
          - destruct (Hsingle v us0 Hget) as [u0 ->]. eexists. split; [reflexivity|].
            intros rcs Hrcs. apply fillUnit_keys. right. eauto.
          - eexists. split; [reflexivity|].
            intros rcs Hrcs. apply fillUnit_keys. right. eauto. }
        destruct (Hgrow v u1 Hget1) as (u2 & Hget2 & Hsub2).
        exists u2. split; [exact Hget2|auto].
Qed.

Lemma independent_loop (contractNames : list string) :
  forall (plan plan' : Compiler.Plan) (st st' : DriverState),
  forOf (Compiler.planContract E this true) plan contractNames st = (Ok plan', st') ->
  unitCount (Compiler.compilationUnitsByVersion plan')
  = unitCount (Compiler.compilationUnitsByVersion plan)
    + length (survivors E this true plan contractNames st)
  /\ forall v,
       default [] (JsObj.get v (Compiler.compilationUnitsByVersion plan'))
       = default [] (JsObj.get v (Compiler.compilationUnitsByVersion plan))
         ++ map (fun s => Compiler.fillUnit [] (resolvedContractSources (survivorWalk s)))
                (filter (fun s => survivorVersion s = v)
                        (survivors E this true plan contractNames st)).
Proof.
  induction contractNames as [|n names IH]; intros plan plan' st st' Hrun;
    simpl in Hrun; unfold_driver.
  - injection Hrun as <- <-. simpl. split; [lia|]. intros v. rewrite app_nil_r. reflexivity.
  - simpl.
    destruct (Compiler.planContract E this true plan n st) as [[plan1|e] st1] eqn:Hstep;
      [|discriminate].
    apply planContract_survivor in Hstep as [[Hnone ->]|(walk & v & Hsurv & ->)].
    + rewrite Hnone. simpl. apply (IH _ _ _ _ Hrun).
    + rewrite Hsurv. destruct (IH _ _ _ _ Hrun) as [Hcount Hunits]. split.
      * rewrite Hcount. simpl. rewrite unitCount_set_append. lia.
      * intros v0. rewrite Hunits. simpl. rewrite filter_cons. simpl.
        destruct (decide (v = v0)) as [->|Hne].
        -- rewrite JsObj_get_set_eq. simpl. rewrite <- app_assoc. reflexivity.
        -- rewrite JsObj_get_set_ne by exact Hne. reflexivity.
Qed.

End plan_shape.

Lemma fillUnit_get (rcss : list ContractSource) :
  forall (unit_ : ContractContentsByPath) (k : string),
  (exists rcs, rcs ∈ rcss /\ absolutePath rcs = k
               /\ JsObj.get k (Compiler.fillUnit unit_ rcss) = Some (source rcs))
  \/ ((forall rcs, rcs ∈ rcss -> absolutePath rcs <> k)
      /\ JsObj.get k (Compiler.fillUnit unit_ rcss) = JsObj.get k unit_).
Proof.
  unfold Compiler.fillUnit.
  induction rcss as [|rcs rcss IH]; intros unit_ k; simpl.
  - right. split; [intros rcs Hin; inversion Hin|reflexivity].
  - destruct (IH (JsObj.set (absolutePath rcs) (source rcs) unit_) k)
      as [(r & Hr & Hk & Hget)|[Hnone Hget]].
    + left. exists r. split; [right; exact Hr|]. split; assumption.
    + destruct (decide (absolutePath rcs = k)) as [Heq|Hne].
      * left. exists rcs. split; [left|]. split; [exact Heq|].
        rewrite Hget, <- Heq. apply JsObj_get_set_eq.
      * right. split.
        -- intros r Hr. apply elem_of_cons in Hr as [->|Hr]; [exact Hne|auto].
        -- rewrite Hget. apply JsObj_get_set_ne. exact Hne.
Qed.

Lemma batchedUnit_get (ss : list Survivor) :
  forall (unit0 : ContractContentsByPath) (k : string),
  (exists s rcs, s ∈ ss /\ rcs ∈ resolvedContractSources (survivorWalk s)
                 /\ absolutePath rcs = k
                 /\ JsObj.get k (batchedUnit unit0 ss) = Some (source rcs))
  \/ ((forall s rcs, s ∈ ss -> rcs ∈ resolvedContractSources (survivorWalk s) ->
                     absolutePath rcs <> k)
      /\ JsObj.get k (batchedUnit unit0 ss) = JsObj.get k unit0).
Proof.
  unfold batchedUnit.
  induction ss as [|s ss IH]; intros unit0 k; simpl.
  - right. split; [intros s rcs Hin; inversion Hin|reflexivity].
  - destruct (IH (Compiler.fillUnit unit0 (resolvedContractSources (survivorWalk s))) k)
      as [(s' & r & Hs' & Hr & Hk & Hget)|[Hnone Hget]].
    + left. exists s', r. split; [right; exact Hs'|]. auto.
    + destruct (fillUnit_get (resolvedContractSources (survivorWalk s)) unit0 k)
        as [(r & Hr & Hk & Hget')|[Hnone' Hget']].
      * left. exists s, r. split; [left|]. split; [exact Hr|]. split; [exact Hk|].
        rewrite Hget. exact Hget'.
      * right. split.
        -- intros s' r Hs' Hr. apply elem_of_cons in Hs' as [->|Hs']; [auto|eauto].
        -- rewrite Hget. exact Hget'.
Qed.

Section batched_shape.
Context (E : Collaborators) (this : DriverFields).

(** In batched mode the unit of a version is the one it had, filled with
    the files of the survivors of that version in request order. *)
Lemma batched_units (contractNames : list string) :
  forall (plan plan' : Compiler.Plan) (st st' : DriverState),
  singleUnits (Compiler.compilationUnitsByVersion plan) ->
  forOf (Compiler.planContract E this false) plan contractNames st = (Ok plan', st') ->
  forall v,
    default [] (JsObj.get v (Compiler.compilationUnitsByVersion plan'))
    = match filter (fun s => survivorVersion s = v)
                   (survivors E this false plan contractNames st) with
      | [] => default [] (JsObj.get v (Compiler.compilationUnitsByVersion plan))
      | ss =>
          [batchedUnit
             (default [] (head (default [] (JsObj.get v
                                              (Compiler.compilationUnitsByVersion plan)))))
             ss]
      end.
Proof.
  induction contractNames as [|n names IH]; intros plan plan' st st' Hsingle Hrun v;
    simpl in Hrun; unfold_driver.
  - injection Hrun as <- <-. reflexivity.
  - simpl.
    destruct (Compiler.planContract E this false plan n st) as [[plan1|e] st1] eqn:Hstep;
      [|discriminate].
    apply planContract_survivor in Hstep as [[Hnone ->]|(walk & sv & Hsurv & ->)].
    + rewrite Hnone. simpl. apply (IH _ _ _ _ Hsingle Hrun).
    + rewrite Hsurv.
      pose proof (IH _ _ _ _ (planWith_batched_single plan walk
                                (contractDataFor E this st n walk) sv Hsingle) Hrun v)
        as Hrest.
      rewrite Hrest. simpl. rewrite filter_cons. simpl.
      destruct (decide (sv = v)) as [->|Hne].
      * rewrite JsObj_get_set_eq.
        destruct (JsObj.get v (Compiler.compilationUnitsByVersion plan)) as [us|] eqn:Hget;
          [destruct (Hsingle v us Hget) as [u ->]|]; simpl;
          destruct (filter (fun s => survivorVersion s = v)
                      (survivors E this false
                         (planWith false plan walk (contractDataFor E this st n walk) v)
                         names st1)); reflexivity.
      * rewrite JsObj_get_set_ne by exact Hne.
        destruct (filter (fun s => survivorVersion s = v)
                    (survivors E this false
                       (planWith false plan walk (contractDataFor E this st n walk) sv)
                       names st1)); reflexivity.
Qed.

End batched_shape.

(** C6: when planning completes in batched mode, every version of the plan
    has exactly one unit, and that unit is the empty object filled with the
    files recorded for the survivors of the version, in request order: every
    file recorded for a survivor is a key of the unit of its version, stored
    with the source text that a survivor of that version recorded for the
    path.  In independent mode the units of a version are, in request
    order, one freshly filled unit per survivor of that version, and the
    plan has as many units as there are survivors.  Filling a unit stores
    under every recorded path a source text recorded for that path. *)
Theorem plan_units_per_mode (E : Collaborators) (this : DriverFields)
    (independently : bool) (contractNames : list string) (st st' : DriverState)
    (plan : Compiler.Plan) :
  Compiler.planContracts E this independently contractNames st = (Ok plan, st') ->
  (if independently then
     unitCount (Compiler.compilationUnitsByVersion plan)
     = length (survivors E this true Compiler.emptyPlan contractNames st)
     /\ forall v,
          default [] (JsObj.get v (Compiler.compilationUnitsByVersion plan))
          = map (fun s => Compiler.fillUnit [] (resolvedContractSources (survivorWalk s)))
                (filter (fun s => survivorVersion s = v)
                        (survivors E this true Compiler.emptyPlan contractNames st))
   else
     (forall v units, JsObj.get v (Compiler.compilationUnitsByVersion plan) = Some units ->
                      exists unit_, units = [unit_])
     /\ (forall v,
           default [] (JsObj.get v (Compiler.compilationUnitsByVersion plan))
           = match filter (fun s => survivorVersion s = v)
                          (survivors E this false Compiler.emptyPlan contractNames st) with
             | [] => []
             | ss => [batchedUnit [] ss]
             end)
     /\ forall s, s ∈ survivors E this false Compiler.emptyPlan contractNames st ->
          exists unit_,
            JsObj.get (survivorVersion s) (Compiler.compilationUnitsByVersion plan)
            = Some [unit_]
            /\ forall rcs, rcs ∈ resolvedContractSources (survivorWalk s) ->
                 absolutePath rcs ∈ JsObj.keys unit_
                 /\ exists s' rcs',
                      s' ∈ survivors E this false Compiler.emptyPlan contractNames st
                      /\ survivorVersion s' = survivorVersion s
                      /\ rcs' ∈ resolvedContractSources (survivorWalk s')
                      /\ absolutePath rcs' = absolutePath rcs
                      /\ JsObj.get (absolutePath rcs) unit_ = Some (source rcs'))
  /\ (forall unit_ rcss rcs,
        rcs ∈ rcss ->
        exists rcs', rcs' ∈ rcss /\ absolutePath rcs' = absolutePath rcs
                     /\ JsObj.get (absolutePath rcs) (Compiler.fillUnit unit_ rcss)
                        = Some (source rcs')).
Proof.
  unfold Compiler.planContracts. intros Hrun. split.
  2:{ intros unit_ rcss rcs Hin.
      destruct (fillUnit_get rcss unit_ (absolutePath rcs))
        as [(r & Hr & Hk & Hget)|[Hnone _]]; [eauto|].
      exfalso. exact (Hnone rcs Hin eq_refl). }
  destruct independently.
  - destruct (independent_loop E this contractNames _ _ _ _ Hrun) as [Hcount Hunits].
    split; [exact Hcount|]. intros v. rewrite Hunits. reflexivity.
  - assert (singleUnits (Compiler.compilationUnitsByVersion Compiler.emptyPlan)) as Hempty
      by (intros v us; discriminate).
    destruct (batched_loop E this contractNames _ _ _ _ Hempty Hrun) as (Hsingle & _ & Hsurv).
    pose proof (batched_units E this contractNames _ _ _ _ Hempty Hrun) as Hunits.
    split; [exact Hsingle|]. split; [exact Hunits|].
    intros s Hs. destruct (Hsurv s Hs) as (u & Hget & Hkeys).
    exists u. split; [exact Hget|]. intros rcs Hrcs. split; [auto|].
    specialize (Hunits (survivorVersion s)). rewrite Hget in Hunits. simpl in Hunits.
    assert (s ∈ filter (fun s0 => survivorVersion s0 = survivorVersion s)
                       (survivors E this false Compiler.emptyPlan contractNames st)) as Hin
      by (apply list_elem_of_filter; auto).
    destruct (filter (fun s0 => survivorVersion s0 = survivorVersion s)
                (survivors E this false Compiler.emptyPlan contractNames st))
      as [|s0 ss] eqn:Hfilter; [inversion Hin|].
    injection Hunits as ->.
    destruct (batchedUnit_get (s0 :: ss) [] (absolutePath rcs))
      as [(s' & r & Hs' & Hr & Hk & Hgot)|[Hnone _]].
    + exists s', r.
      assert (s' ∈ filter (fun s1 => survivorVersion s1 = survivorVersion s)
                          (survivors E this false Compiler.emptyPlan contractNames st))
        as Hs'f by (rewrite Hfilter; exact Hs').
      apply list_elem_of_filter in Hs'f as [Hv' Hsurv'].
      repeat split; assumption.
    + exfalso. exact (Hnone s rcs Hin Hrcs eq_refl).
Qed.

Lemma plan_units_per_mode_witness :
  (exists plan st',
     Demo.plannedIndependently = (Ok plan, st')
     /\ unitCount (Compiler.compilationUnitsByVersion plan) = 3
     /\ default [] (JsObj.get "0.6.12+commit.27d51765"
                      (Compiler.compilationUnitsByVersion plan))
        = [ [("/p/contracts/A.sol", source Demo.srcA); ("/p/contracts/L.sol", source Demo.srcL)];
            [("/p/contracts/B.sol", source Demo.srcB); ("/p/contracts/L.sol", source Demo.srcL)];
            [("/p/contracts/L.sol", source Demo.srcL)] ])
  /\ exists plan st',
       Compiler.planContracts (Demo.env Demo.standardBackend) (Demo.driver ["A"; "B"] false)
         false ["A"; "B"] Demo.initial = (Ok plan, st')
       /\ default [] (JsObj.get "0.6.12+commit.27d51765"
                        (Compiler.compilationUnitsByVersion plan))
          = [Demo.unitS4]
       /\ JsObj.get "/p/contracts/L.sol" Demo.unitS4 = Some (source Demo.srcL).
Proof.
  split.
  - destruct Demo.plannedIndependently as [[plan|e] st'] eqn:Hrun.
    + exists plan, st'. split; [reflexivity|].
      destruct (plan_units_per_mode (Demo.env Demo.standardBackend)
                  (Demo.driver ["A"; "B"; "L"] true) true ["A"; "B"; "L"] Demo.initial st'
                  plan Hrun) as [[Hcount Hunits] _].
      split.
      * rewrite Hcount. vm_compute. reflexivity.
      * rewrite Hunits. vm_compute. reflexivity.
    + vm_compute in Hrun. discriminate Hrun.
  - destruct (Compiler.planContracts (Demo.env Demo.standardBackend)
                (Demo.driver ["A"; "B"] false) false ["A"; "B"] Demo.initial)
      as [[plan|e] st'] eqn:Hrun; [|vm_compute in Hrun; discriminate Hrun].
    exists plan, st'. split; [reflexivity|].
    destruct (plan_units_per_mode (Demo.env Demo.standardBackend)
                (Demo.driver ["A"; "B"] false) false ["A"; "B"] Demo.initial st'
                plan Hrun) as [(_ & Hunits & _) _].
    split; [rewrite Hunits; vm_compute; reflexivity|reflexivity].
Defined.

(** ** The writer *)

Lemma forOf_ext {A S : Type} (f g : S -> A -> Driver S) :
  (forall s x st, f s x st = g s x st) ->
  forall l s st, forOf f s l st = forOf g s l st.
Proof.
  intros Hfg l. induction l as [|x l IH]; intros s st; simpl; [reflexivity|].
  unfold_driver. rewrite Hfg. destruct (g s x st) as [[s1|e] st1]; [apply IH|reflexivity].
Qed.

Lemma forOf_map {A B S : Type} (body : S -> B -> Driver S) (g : A -> B) :
  forall l s st, forOf body s (map g l) st = forOf (fun s x => body s (g x)) s l st.
Proof.
  intros l. induction l as [|x l IH]; intros s st; simpl; [reflexivity|].
  unfold_driver. destruct (body s (g x) st) as [[s1|e] st1]; [apply IH|reflexivity].
Qed.

Lemma forOf_concat {A S : Type} (body : S -> A -> Driver S) :
  forall ls s st,
    forOf body s (concat ls) st = forOf (fun s l => forOf body s l) s ls st.
Proof.
  intros ls. induction ls as [|l ls IH]; intros s st; simpl; [reflexivity|].
  rewrite forOf_app. unfold_driver.
  destruct (forOf body s l st) as [[s1|e] st1]; [apply IH|reflexivity].
Qed.

Section writer.
Context (E : Collaborators) (this : DriverFields).

(** The three nested loops of the writer take the visits in order. *)
Lemma persistAll_visits (plan : Compiler.Plan) (versions : list string)
    (compilationResults : list (list CompilationResult)) (st : DriverState) :
  Compiler.persistAll E this plan versions compilationResults st
  = forOf (writeVisit E this (Compiler.contractPathToData plan)) ∅
          (visits plan versions compilationResults) st.
Proof.
  unfold Compiler.persistAll, visits. rewrite forOf_concat, forOf_map.
  apply forOf_ext. intros cache [v rs] st0.
  unfold Compiler.writeVersion, visitsOfVersion. simpl.
  rewrite forOf_concat, forOf_map.
  apply forOf_ext. intros cache1 [u r] st1.
  unfold Compiler.writeUnit, visitsOfUnit. simpl. rewrite forOf_map. reflexivity.
Qed.

Lemma beats_smallestSeen (earlier : list Visit) (v : Visit) :
  beats earlier v =
  match smallestSeen (visitPath v) earlier with
  | Some m => visitSize v <? m
  | None => true
  end.
Proof.
  unfold beats. induction earlier as [|u earlier IH]; simpl; [reflexivity|].
  rewrite IH. destruct (decide (visitPath u = visitPath v)) as [Heq|Hne].
  - destruct (smallestSeen (visitPath v) earlier) as [m|].
    + destruct (visitSize v <? visitSize u) eqn:H1, (visitSize v <? m) eqn:H2;
        simpl; symmetry;
        rewrite ?Nat.ltb_lt, ?Nat.ltb_ge in *; lia.
    + rewrite andb_true_r. reflexivity.
  - reflexivity.
Qed.

Lemma smallestSeen_snoc (contractPath : string) (earlier : list Visit) (v : Visit) :
  smallestSeen contractPath (earlier ++ [v]) =
  if decide (visitPath v = contractPath) then
    Some (match smallestSeen contractPath earlier with
          | Some m => Nat.min m (visitSize v)
          | None => visitSize v
          end)
  else smallestSeen contractPath earlier.
Proof.
  induction earlier as [|u earlier IH]; simpl.
  - destruct (decide (visitPath v = contractPath)); reflexivity.
  - rewrite IH. destruct (decide (visitPath u = contractPath)),
      (decide (visitPath v = contractPath)); try reflexivity.
    destruct (smallestSeen contractPath earlier); f_equal; lia.
Qed.

End writer.

Section writer_refinement.
Context (E : Collaborators) (this : DriverFields) (pathToData : gmap string ContractData).

(** A completed visit stepped over a path that is no root, or left alone
    an artifact whose recorded unit is not larger, or persisted and
    recorded the size of its unit. *)
Lemma writeVisit_cases (artifactCache artifactCache' : gmap string nat) (v : Visit)
    (st st' : DriverState) :
  writeVisit E this pathToData artifactCache v st = (Ok artifactCache', st') ->
  (pathToData !! visitPath v = None /\ artifactCache' = artifactCache /\ st' = st)
  \/ exists contractData,
       pathToData !! visitPath v = Some contractData
       /\ ((exists size, artifactCache !! visitPath v = Some size /\ size <= visitSize v
                         /\ artifactCache' = artifactCache /\ st' = st)
           \/ ((forall size, artifactCache !! visitPath v = Some size -> visitSize v < size)
               /\ Compiler._persistCompiledContractAsync E this (contractName contractData)
                    (visitVersion v) (input (visitResult v)) (output (visitResult v)) st
                  = (Ok tt, st')
               /\ artifactCache' = <[visitPath v := visitSize v]> artifactCache)).
Proof.
  unfold writeVisit, Compiler.writeContract.
  destruct (pathToData !! visitPath v) as [cd|]; unfold_driver.
  - intros Hrun. right. exists cd. split; [reflexivity|].
    destruct (Compiler.contractsOfPath (output (visitResult v)) (visitPath v)) as [byName|];
      [|discriminate].
    destruct (JsObj.get (contractName cd) byName); [|discriminate].
    destruct (artifactCache !! visitPath v) as [size|] eqn:Hcache.
    + destruct (bool_decide (size <= visitSize v)) eqn:Hle.
      * apply bool_decide_eq_true in Hle. injection Hrun as <- <-.
        left. exists size. auto.
      * apply bool_decide_eq_false in Hle. right.
        destruct (Compiler._persistCompiledContractAsync E this (contractName cd)
                    (visitVersion v) (input (visitResult v)) (output (visitResult v)) st)
          as [[[]|e] st1]; [|discriminate].
        injection Hrun as <- <-. split; [|split; reflexivity].
        intros size' [= <-]. lia.
    + right.
      destruct (Compiler._persistCompiledContractAsync E this (contractName cd)
                  (visitVersion v) (input (visitResult v)) (output (visitResult v)) st)
        as [[[]|e] st1]; [|discriminate].
      injection Hrun as <- <-. split; [|split; reflexivity].
      intros size' [=].
  - intros [= <- <-]. left. auto.
Qed.

(** The writer makes exactly the persist calls of the winning visits, and
    its cache holds the smallest unit size seen for each root. *)
Lemma writer_refines (vs : list Visit) :
  forall (earlier : list Visit) (artifactCache artifactCache' : gmap string nat)
         (st st' : DriverState),
  (forall p, artifactCache !! p = smallestSeen p earlier) ->
  forOf (writeVisit E this pathToData) artifactCache vs st = (Ok artifactCache', st') ->
  forOf (persistVisit E this pathToData) tt (winnersFrom earlier (rootVisits pathToData vs)) st
  = (Ok tt, st')
  /\ forall p, artifactCache' !! p = smallestSeen p (earlier ++ rootVisits pathToData vs).
Proof.
  induction vs as [|v vs IH]; intros earlier cache cache' st st' Hagree Hrun;
    simpl in Hrun; unfold_driver.
  - injection Hrun as <- <-. simpl. split; [reflexivity|].
    intros p. rewrite app_nil_r. apply Hagree.
  - destruct (writeVisit E this pathToData cache v st) as [[cache1|e] st1] eqn:Hstep;
      [|discriminate].
    apply writeVisit_cases in Hstep
      as [(Hnone & -> & ->)|(cd & Hsome & [(size & Hsz & Hle & -> & ->)|(Hlt & Hp & ->)])].
    + unfold rootVisits. rewrite filter_cons_False by (rewrite Hnone; intros [? ?]; discriminate).
      apply (IH _ _ _ _ _ Hagree Hrun).
    + unfold rootVisits. rewrite filter_cons_True by (rewrite Hsome; eauto).
      fold (rootVisits pathToData vs). simpl.
      rewrite beats_smallestSeen, <- Hagree, Hsz.
      replace (visitSize v <? size) with false by (symmetry; apply Nat.ltb_ge; exact Hle).
      simpl.
      replace (earlier ++ v :: rootVisits pathToData vs)
        with ((earlier ++ [v]) ++ rootVisits pathToData vs)
        by (rewrite <- app_assoc; reflexivity).
      eapply IH; [|exact Hrun].
      intros p. rewrite smallestSeen_snoc, <- Hagree.
      destruct (decide (visitPath v = p)) as [<-|]; [|reflexivity].
      rewrite Hsz. f_equal. lia.
    + unfold rootVisits. rewrite filter_cons_True by (rewrite Hsome; eauto).
      fold (rootVisits pathToData vs). simpl.
      rewrite beats_smallestSeen, <- Hagree.
      replace (match cache !! visitPath v with
               | Some m => visitSize v <? m
               | None => true
               end) with true.
      2:{ destruct (cache !! visitPath v) as [m|] eqn:Hm; [|reflexivity].
          symmetry. apply Nat.ltb_lt. apply Hlt. reflexivity. }
      simpl. unfold_driver.
      unfold persistVisit at 1. rewrite Hsome, Hp.
      replace (earlier ++ v :: rootVisits pathToData vs)
        with ((earlier ++ [v]) ++ rootVisits pathToData vs)
        by (rewrite <- app_assoc; reflexivity).
      eapply IH; [|exact Hrun].
      intros p. rewrite smallestSeen_snoc, lookup_insert.
      destruct (decide (visitPath v = p)) as [<-|Hne].
      * rewrite <- Hagree.
        destruct (cache !! visitPath v) as [m|] eqn:Hm; [|reflexivity].
        f_equal. specialize (Hlt m eq_refl). lia.
      * apply Hagree.
Qed.

End writer_refinement.

(** ** Which visits win *)

Lemma beats_spec (earlier : list Visit) (v : Visit) :
  beats earlier v = true <->
  forall u, u ∈ earlier -> visitPath u = visitPath v -> visitSize v < visitSize u.
Proof.
  unfold beats. induction earlier as [|x earlier IH]; simpl.
  - split; [|reflexivity]. intros _ u Hu. inversion Hu.
  - rewrite andb_true_iff, IH. split.
    + intros [Hx Hrest] u Hu Hp. apply elem_of_cons in Hu as [->|Hu]; [|auto].
      rewrite decide_True in Hx by exact Hp. apply Nat.ltb_lt. exact Hx.
    + intros H. split.
      * destruct (decide (visitPath x = visitPath v)) as [Hp|]; [|reflexivity].
        apply Nat.ltb_lt. apply H; [left|exact Hp].
      * intros u Hu. apply H. right. exact Hu.
Qed.

Lemma beats_false (earlier : list Visit) (v : Visit) :
  beats earlier v = false ->
  exists x, x ∈ earlier /\ visitPath x = visitPath v /\ visitSize x <= visitSize v.
Proof.
  unfold beats. induction earlier as [|x earlier IH]; simpl; [discriminate|].
  rewrite andb_false_iff. intros [Hx|Hrest].
  - destruct (decide (visitPath x = visitPath v)) as [Hp|]; [|discriminate].
    apply Nat.ltb_ge in Hx. exists x. split; [left|]. split; assumption.
  - destruct (IH Hrest) as (y & Hy & Hp & Hle). exists y. split; [right; exact Hy|].
    split; assumption.
Qed.

(** A winner beats everything visited before it. *)
Lemma winners_beat (vs : list Visit) :
  forall earlier w, w ∈ winnersFrom earlier vs ->
    exists before after, vs = before ++ w :: after /\ beats (earlier ++ before) w = true.
Proof.
  induction vs as [|v vs IH]; intros earlier w Hw; simpl in Hw; [inversion Hw|].
  apply elem_of_app in Hw as [Hw|Hw].
  - destruct (beats earlier v) eqn:Hb; [|inversion Hw].
    apply list_elem_of_singleton in Hw as ->.
    exists [], vs. rewrite app_nil_r. split; [reflexivity|exact Hb].
  - destruct (IH _ _ Hw) as (before & after & -> & Hb).
    exists (v :: before), after. split; [reflexivity|].
    rewrite <- app_assoc in Hb. exact Hb.
Qed.

(** Where no visit of a path wins, each of them is matched or undercut by
    an earlier visit of that path. *)
Lemma no_winner (contractPath : string) (vs : list Visit) :
  forall earlier,
    ofPath contractPath (winnersFrom earlier vs) = [] ->
    forall u, u ∈ vs -> visitPath u = contractPath ->
      exists x, x ∈ earlier /\ visitPath x = contractPath /\ visitSize x <= visitSize u.
Proof.
  unfold ofPath. induction vs as [|v vs IH]; intros earlier Hnone u Hu Hp;
    [inversion Hu|].
  simpl in Hnone. rewrite filter_app in Hnone.
  apply app_eq_nil in Hnone as [Hv Hrest].
  assert (visitPath v = contractPath ->
          exists x, x ∈ earlier /\ visitPath x = contractPath /\ visitSize x <= visitSize v)
    as Hhead.
  { intros Hpv. destruct (beats earlier v) eqn:Hb.
    - rewrite filter_cons_True in Hv by exact Hpv. discriminate.
    - destruct (beats_false _ _ Hb) as (x & Hx & Hpx & Hle).
      exists x. split; [exact Hx|]. split; [congruence|exact Hle]. }
  apply elem_of_cons in Hu as [->|Hu]; [auto|].
  destruct (IH _ Hrest u Hu Hp) as (x & Hx & Hpx & Hle).
  apply elem_of_app in Hx as [Hx|Hx]; [eauto|].
  apply list_elem_of_singleton in Hx as ->.
  destruct (Hhead Hpx) as (y & Hy & Hpy & Hley).
  exists y. split; [exact Hy|]. split; [exact Hpy|lia].
Qed.

(** The last winner of a path beats everything before it and is matched
    or exceeded in size by every later visit of the path. *)
Lemma last_winner (contractPath : string) (vs : list Visit) :
  forall earlier w,
    last (ofPath contractPath (winnersFrom earlier vs)) = Some w ->
    visitPath w = contractPath
    /\ exists before after,
         vs = before ++ w :: after
         /\ beats (earlier ++ before) w = true
         /\ forall u, u ∈ after -> visitPath u = contractPath -> visitSize w <= visitSize u.
Proof.
  unfold ofPath. induction vs as [|v vs IH]; intros earlier w Hlast; simpl in Hlast;
    [discriminate|].
  rewrite filter_app in Hlast. apply last_app_Some in Hlast as [Hlast|[Hnone Hlast]].
  - destruct (IH _ _ Hlast) as (Hp & before & after & -> & Hb & Hafter).
    split; [exact Hp|]. exists (v :: before), after. split; [reflexivity|].
    rewrite <- app_assoc in Hb. split; [exact Hb|exact Hafter].
  - apply last_None in Hnone.
    destruct (beats earlier v) eqn:Hb; [|discriminate].
    destruct (decide (visitPath v = contractPath)) as [Hp|Hp].
    + rewrite filter_cons_True in Hlast by exact Hp. injection Hlast as <-.
      split; [exact Hp|]. exists [], vs. rewrite app_nil_r.
      split; [reflexivity|]. split; [exact Hb|].
      intros u Hu Hpu.
      destruct (no_winner contractPath vs _ Hnone u Hu Hpu) as (x & Hx & Hpx & Hle).
      apply elem_of_app in Hx as [Hx|Hx].
      * pose proof (proj1 (beats_spec earlier v) Hb x Hx) as Hlt.
        specialize (Hlt ltac:(congruence)). lia.
      * apply list_elem_of_singleton in Hx as ->. exact Hle.
    + rewrite filter_cons_False in Hlast by exact Hp. discriminate.
Qed.

(** ** Locating the compiled record *)

(** C7: for a path of a unit that the planner recorded, the writer looks
    the record up under the path and, when the output has no such key,
    under the empty key.  When the object it finds lacks the contract name
    it throws the missing-contract error.  When the output has neither key
    there is no object to look into, and what is thrown is the engine's
    [TypeError], not the missing-contract error. *)
Theorem writer_lookup_failures (E : Collaborators) (this : DriverFields)
    (pathToData : gmap string ContractData) (solcVersion : string)
    (compilationResult : CompilationResult) (unitSize : nat)
    (artifactCache : gmap string nat) (contractPath : string)
    (contractData : ContractData) (st : DriverState) :
  pathToData !! contractPath = Some contractData ->
  (Compiler.contractsOfPath (output compilationResult) contractPath =
   match JsObj.get contractPath (contracts (output compilationResult)) with
   | Some byName => Some byName
   | None => JsObj.get "" (contracts (output compilationResult))
   end)
  /\ (forall byName,
        Compiler.contractsOfPath (output compilationResult) contractPath = Some byName ->
        JsObj.get (contractName contractData) byName = None ->
        Compiler.writeContract E this pathToData solcVersion compilationResult unitSize
          artifactCache contractPath st
        = (Throw (MissingContractError (contractName contractData) contractPath), st))
  /\ (JsObj.get contractPath (contracts (output compilationResult)) = None ->
      JsObj.get "" (contracts (output compilationResult)) = None ->
      Compiler.writeContract E this pathToData solcVersion compilationResult unitSize
        artifactCache contractPath st
      = (Throw TypeError, st)).
Proof.
  intros Hroot. split; [reflexivity|]. split.
  - intros byName Hfound Hmissing. unfold Compiler.writeContract.
    rewrite Hroot, Hfound, Hmissing. reflexivity.
  - intros Hpath Hempty. unfold Compiler.writeContract, Compiler.contractsOfPath.
    rewrite Hroot, Hpath, Hempty. reflexivity.
Qed.

Lemma writer_lookup_failures_witness :
  Compiler.writeContract (Demo.env Demo.contractlessBackend) (Demo.driver ["A"] false)
    {[ "/p/contracts/A.sol" := Demo.dataOfA None ]} "0.6.12+commit.27d51765"
    {| input := {| settings := "{}" |};
       output := {| contracts := []; sources := [("/p/contracts/A.sol", "{}")] |} |}
    1 ∅ "/p/contracts/A.sol" Demo.initial
  = (Throw TypeError, Demo.initial)
  /\ Demo.ranContractless = (Throw TypeError, snd Demo.ranContractless)
  /\ artifactFiles (snd Demo.ranContractless) = ∅.
Proof.
  split; [|split; reflexivity].
  apply (writer_lookup_failures (Demo.env Demo.contractlessBackend) (Demo.driver ["A"] false)
           {[ "/p/contracts/A.sol" := Demo.dataOfA None ]} "0.6.12+commit.27d51765"
           {| input := {| settings := "{}" |};
              output := {| contracts := []; sources := [("/p/contracts/A.sol", "{}")] |} |}
           1 ∅ "/p/contracts/A.sol" (Demo.dataOfA None) Demo.initial).
  - reflexivity.
  - reflexivity.
  - reflexivity.
Defined.

(** ** Scenario S4 *)

(** C1 as stated fails: the batched run of S4 against a back-end that
    answers in the standard shape writes more than the three files. *)
Lemma batched_run_writes_more_than_three_files :
  fst Demo.ranBatched = Ok tt
  /\ dom (artifactFiles (snd Demo.ranBatched))
     <> {[ "artifacts/A-A.json"; "artifacts/B-B.json"; "artifacts/A-L.json" ]}
  /\ is_Some (artifactFiles (snd Demo.ranBatched) !! "artifacts/A-B.json")
  /\ is_Some (artifactFiles (snd Demo.ranBatched) !! "artifacts/B-A.json")
  /\ is_Some (artifactFiles (snd Demo.ranBatched) !! "artifacts/B-L.json").
Proof.
  split; [reflexivity|]. split.
  - intros H.
    assert ("artifacts/A-B.json" ∈ dom (artifactFiles (snd Demo.ranBatched))) as Hin
      by (apply elem_of_dom; vm_compute; eauto).
    rewrite H in Hin. set_solver.
  - repeat split; vm_compute; eauto.
Qed.

Section persist.
Context (E : Collaborators) (this : DriverFields).

Lemma persist_loop (contractFileName solcVersion : string) (compilerInput : StandardInput)
    (compilerOutput_ : StandardOutput) (paths : list string) :
  (forall p, p ∈ paths -> is_Some (Compiler.contractsOfPath compilerOutput_ p)) ->
  forall st, exists st',
    forOf (fun (_ : unit) contractPath =>
             let contractName_ := basename E contractPath (SOLIDITY_FILE_EXTENSION E) in
             match Compiler.contractsOfPath compilerOutput_ contractPath with
             | None => throw TypeError
             | Some byName =>
                 writeFileAsync
                   (Compiler.currentArtifactPath this contractFileName contractName_)
                   (Compiler.newArtifact E contractName_ solcVersion
                      (JsObj.get contractName_ byName) compilerInput compilerOutput_)
             end) tt paths st
    = (Ok tt, st')
    /\ dom (artifactFiles st')
       = dom (artifactFiles st)
         ∪ list_to_set (map (fun contractPath =>
                               Compiler.currentArtifactPath this contractFileName
                                 (basename E contractPath (SOLIDITY_FILE_EXTENSION E)))
                            paths).
Proof.
  induction paths as [|p paths IH]; intros Hall st; simpl.
  - exists st. split; [reflexivity|]. rewrite (right_id_L ∅ (∪)). reflexivity.
  - unfold_driver.
    destruct (Hall p ltac:(left)) as [byName Hfound]. rewrite Hfound.
    unfold writeFileAsync at 1.
    edestruct IH as (st' & Hrun & Hdom); [intros q Hq; apply Hall; right; exact Hq|].
    exists st'. split; [exact Hrun|].
    rewrite Hdom. simpl. rewrite dom_insert_L.
    rewrite (comm_L (∪) {[_]} (dom (artifactFiles st))), <- (assoc_L (∪)). reflexivity.
Qed.

(** Persisting an output without the anonymous source writes one file per
    listed source, named after the requested name and the source. *)
Lemma persist_files (contractFileName solcVersion : string) (compilerInput : StandardInput)
    (compilerOutput_ : StandardOutput) (st : DriverState) :
  JsObj.get "" (sources compilerOutput_) = None ->
  (forall p, p ∈ JsObj.keys (sources compilerOutput_) ->
             is_Some (Compiler.contractsOfPath compilerOutput_ p)) ->
  exists st',
    Compiler._persistCompiledContractAsync E this contractFileName solcVersion
      compilerInput compilerOutput_ st = (Ok tt, st')
    /\ dom (artifactFiles st')
       = dom (artifactFiles st)
         ∪ list_to_set (map (fun contractPath =>
                               Compiler.currentArtifactPath this contractFileName
                                 (basename E contractPath (SOLIDITY_FILE_EXTENSION E)))
                            (JsObj.keys (sources compilerOutput_))).
Proof.
  intros Hmodern Hall. unfold Compiler._persistCompiledContractAsync. rewrite Hmodern.
  apply persist_loop. exact Hall.
Qed.

(** A root whose record is found and whose artifact was not written yet
    is persisted. *)
Lemma writeContract_fresh (pathToData : gmap string ContractData) (solcVersion : string)
    (compilationResult : CompilationResult) (unitSize : nat)
    (artifactCache : gmap string nat) (contractPath : string)
    (contractData : ContractData) (byName : JsObject string) (st : DriverState) :
  pathToData !! contractPath = Some contractData ->
  Compiler.contractsOfPath (output compilationResult) contractPath = Some byName ->
  is_Some (JsObj.get (contractName contractData) byName) ->
  artifactCache !! contractPath = None ->
  Compiler.writeContract E this pathToData solcVersion compilationResult unitSize
    artifactCache contractPath st
  = match Compiler._persistCompiledContractAsync E this (contractName contractData)
            solcVersion (input compilationResult) (output compilationResult) st with
    | (Ok _, st') => (Ok (<[contractPath := unitSize]> artifactCache), st')
    | (Throw e, st') => (Throw e, st')
    end.
Proof.
  intros Hroot Hfound [record Hrecord] Hcache. unfold Compiler.writeContract.
  rewrite Hroot, Hfound, Hrecord, Hcache. unfold_driver. reflexivity.
Qed.

End persist.

(** C1 (amended): in batched mode, for the run of S4 (A imports L, B
    imports L, both requested, one shared unit), whenever the back-end
    answers for that unit with an output that has no anonymous source, an
    entry for every source it lists and the contracts A and B, the run
    completes and the artifact files are exactly one per requested root and
    listed source, [<root>-<source name>.json]: with the three files of the
    unit listed, these are A-A, A-L, A-B, B-A, B-L and B-B. *)
Theorem batched_scenario_files
    (backend : SolcWrapper -> JsObject string -> JsObject string -> result CompilationResult)
    (compilationResult : CompilationResult) :
  backend Demo.wrapperS4 Demo.unitS4 [] = Ok compilationResult ->
  JsObj.get "" (sources (output compilationResult)) = None ->
  (forall p, p ∈ JsObj.keys (sources (output compilationResult)) ->
             is_Some (Compiler.contractsOfPath (output compilationResult) p)) ->
  (exists byName,
      Compiler.contractsOfPath (output compilationResult) "/p/contracts/A.sol" = Some byName
      /\ is_Some (JsObj.get "A" byName)) ->
  (exists byName,
      Compiler.contractsOfPath (output compilationResult) "/p/contracts/B.sol" = Some byName
      /\ is_Some (JsObj.get "B" byName)) ->
  exists st',
    Compiler.compileAsync (Demo.env backend)
      (Compiler.new (Demo.env backend) None (Demo.options ["A"; "B"] false None)) Demo.initial
    = (Ok tt, st')
    /\ dom (artifactFiles st')
       = list_to_set (Demo.filesFor ["A"; "B"] (output compilationResult)).
Proof.
  intros Hbackend Hmodern Hall (byA & HfoundA & HrecA) (byB & HfoundB & HrecB).
  set (cr := compilationResult) in *.
  set (E := Demo.env backend).
  set (this := Compiler.new E None (Demo.options ["A"; "B"] false None)).
  assert (Compiler.planContracts E this false ["A"; "B"] Demo.initial
          = (Ok Demo.planS4, Demo.initial)) as Hplan by (vm_compute; reflexivity).
  unfold Compiler.compileAsync, Compiler._compileContractsAsync. unfold_driver.
  change (Compiler.getContractNamesToCompile E this) with ["A"; "B"].
  change (shouldCompileIndependently _) with false.
  rewrite Hplan.
  change (JsObj.keys (Compiler.compilationUnitsByVersion Demo.planS4))
    with ["0.6.12+commit.27d51765"].
  change (getDependencyNameToPackagePath E _) with (@nil (string * string)).
  destruct (_getSolcWrapperForVersion E "0.6.12+commit.27d51765" Demo.initial)
    as [r1 st1] eqn:Hw.
  assert (r1 = Ok Demo.wrapperS4 /\ artifactFiles st1 = ∅) as [-> Hfiles1].
  { vm_compute in Hw. injection Hw as <- <-. split; reflexivity. }
  unfold Compiler.dispatch, Compiler.dispatchVersions, Compiler.dispatchVersion.
  rewrite Hw.
  change (default [] (JsObj.get "0.6.12+commit.27d51765"
                        (Compiler.compilationUnitsByVersion Demo.planS4)))
    with [Demo.unitS4].
  unfold Compiler.issueUnits, issueCompile.
  change (solcCompileAsync E) with backend. rewrite Hbackend.
  cbn [promiseAll shouldPersist].
  rewrite persistAll_visits.
  change (visits Demo.planS4 ["0.6.12+commit.27d51765"] [[cr]]) with
    [ {| visitPath := "/p/contracts/A.sol"; visitSize := 3;
         visitVersion := "0.6.12+commit.27d51765"; visitResult := cr |};
      {| visitPath := "/p/contracts/L.sol"; visitSize := 3;
         visitVersion := "0.6.12+commit.27d51765"; visitResult := cr |};
      {| visitPath := "/p/contracts/B.sol"; visitSize := 3;
         visitVersion := "0.6.12+commit.27d51765"; visitResult := cr |} ].
  cbn [forOf]. unfold_driver. unfold writeVisit.
  cbn [visitPath visitSize visitVersion visitResult].
  assert (Compiler.contractPathToData Demo.planS4 !! "/p/contracts/A.sol"
          = Some (Demo.dataOfA None)) as HrootA by reflexivity.
  assert (Compiler.contractPathToData Demo.planS4 !! "/p/contracts/L.sol" = None) as HrootL
    by reflexivity.
  assert (Compiler.contractPathToData Demo.planS4 !! "/p/contracts/B.sol"
          = Some Demo.dataOfB) as HrootB by reflexivity.
  rewrite (writeContract_fresh E this _ _ _ _ _ _ _ byA _ HrootA HfoundA HrecA)
    by reflexivity.
  destruct (persist_files E this (contractName (Demo.dataOfA None)) "0.6.12+commit.27d51765"
              (input cr) (output cr)
              (addCall st1 {| callWrapper := Demo.wrapperS4; callContracts := Demo.unitS4;
                              callRemappings := [] |}) Hmodern Hall)
    as (stA & HpersistA & HdomA).
  rewrite HpersistA.
  unfold Compiler.writeContract at 1. rewrite HrootL. unfold_driver.
  rewrite (writeContract_fresh E this _ _ _ _ _ _ _ byB _ HrootB HfoundB HrecB)
    by reflexivity.
  destruct (persist_files E this (contractName Demo.dataOfB) "0.6.12+commit.27d51765"
              (input cr) (output cr) stA Hmodern Hall)
    as (stB & HpersistB & HdomB).
  rewrite HpersistB.
  exists stB. split; [reflexivity|].
  rewrite HdomB, HdomA. simpl artifactFiles. rewrite Hfiles1, dom_empty_L.
  rewrite (left_id_L ∅ (∪)).
  unfold Demo.filesFor. simpl flat_map. rewrite app_nil_r, list_to_set_app_L.
  reflexivity.
Qed.

Lemma batched_scenario_files_witness :
  exists st',
    Demo.ranBatched = (Ok tt, st')
    /\ dom (artifactFiles st')
       = list_to_set ["artifacts/A-A.json"; "artifacts/A-L.json"; "artifacts/A-B.json";
                      "artifacts/B-A.json"; "artifacts/B-L.json"; "artifacts/B-B.json"].
Proof.
  destruct (batched_scenario_files Demo.standardBackend (Demo.standardResult Demo.unitS4))
    as (st' & Hrun & Hdom).
  - reflexivity.
  - reflexivity.
  - intros p Hp. simpl in Hp.
    repeat (apply elem_of_cons in Hp as [->|Hp]; [vm_compute; eauto|]).
    inversion Hp.
  - eexists. split; [reflexivity|]. vm_compute. eauto.
  - eexists. split; [reflexivity|]. vm_compute. eauto.
  - exists st'. split; [exact Hrun|]. rewrite Hdom. reflexivity.
Defined.

(** ** The dispatcher *)

Section dispatcher.
Context (E : Collaborators) (this : DriverFields).

Lemma issueUnits_state (solc : SolcWrapper) (remappings : JsObject string)
    (units : list (JsObject string)) :
  forall st,
    let st' := snd (Compiler.issueUnits E solc remappings units st) in
    solcWrappersByVersion st' = solcWrappersByVersion st
    /\ allocated st' = allocated st
    /\ artifactFiles st' = artifactFiles st
    /\ compileCalls st'
       = compileCalls st
         ++ map (fun u => {| callWrapper := solc; callContracts := u;
                             callRemappings := remappings |}) units.
Proof.
  induction units as [|u units IH]; intros st; simpl.
  - rewrite app_nil_r. auto.
  - specialize (IH (addCall st {| callWrapper := solc; callContracts := u;
                                  callRemappings := remappings |})).
    destruct (Compiler.issueUnits E solc remappings units
                (addCall st {| callWrapper := solc; callContracts := u;
                               callRemappings := remappings |})) as [rs st2].
    simpl in *. destruct IH as (Hw & Ha & Hf & Hc).
    rewrite Hw, Ha, Hf, Hc, <- app_assoc. auto.
Qed.

(** What the dispatcher adds to the call history goes to wrappers built
    for the normalized versions of the plan. *)
Lemma dispatchVersions_calls (plan : Compiler.Plan) (remappings : JsObject string)
    (versions : list string) :
  forall st, registryOk st ->
    let st' := snd (Compiler.dispatchVersions E plan remappings versions st) in
    registryOk st'
    /\ artifactFiles st' = artifactFiles st
    /\ exists calls,
         compileCalls st' = compileCalls st ++ calls
         /\ forall c, c ∈ calls ->
              exists v, v ∈ versions
                        /\ wrapperVersion (callWrapper c) = normalizeSolcVersion E v.
Proof.
  induction versions as [|v versions IH]; intros st Hok; simpl.
  - split; [exact Hok|]. split; [reflexivity|]. exists []. rewrite app_nil_r.
    split; [reflexivity|]. intros c Hc. inversion Hc.
  - unfold Compiler.dispatchVersion.
    pose proof (getSolcWrapper_registryOk E v st Hok) as Hok1.
    pose proof (getSolcWrapper_files E v st) as [Hf1 Hc1].
    pose proof (getSolcWrapper_version E v st) as Hv1.
    destruct (_getSolcWrapperForVersion E v st) as [[solc|e] st1]; simpl in *.
    + pose proof (issueUnits_state solc remappings
                    (default [] (JsObj.get v (Compiler.compilationUnitsByVersion plan))) st1)
        as Hissue. cbv zeta in Hissue.
      destruct (Compiler.issueUnits E solc remappings
                  (default [] (JsObj.get v (Compiler.compilationUnitsByVersion plan))) st1)
        as [rs st2]. simpl in Hissue. destruct Hissue as (Hw2 & Ha2 & Hf2 & Hc2).
      assert (registryOk st2) as Hok2.
      { intros k w. rewrite Hw2, Ha2. apply Hok1. }
      specialize (IH st2 Hok2). cbv zeta in IH.
      destruct (Compiler.dispatchVersions E plan remappings versions st2) as [rs' st3].
      simpl in *. destruct IH as (Hok3 & Hf3 & calls & Hc3 & Hcalls).
      split; [exact Hok3|]. split; [congruence|].
      eexists. split; [rewrite Hc3, Hc2, Hc1, <- app_assoc; reflexivity|].
      intros c Hc. apply elem_of_app in Hc as [Hc|Hc].
      * apply list_elem_of_fmap in Hc as (u & -> & _). simpl.
        exists v. split; [left|]. apply (Hv1 st1 solc Hok eq_refl).
      * destruct (Hcalls c Hc) as (v' & Hv' & Hwv). exists v'. split; [right; exact Hv'|exact Hwv].
    + specialize (IH st1 Hok1). cbv zeta in IH.
      destruct (Compiler.dispatchVersions E plan remappings versions st1) as [rs' st3].
      simpl in *. destruct IH as (Hok3 & Hf3 & calls & Hc3 & Hcalls).
      split; [exact Hok3|]. split; [congruence|].
      exists calls. split; [congruence|].
      intros c Hc. destruct (Hcalls c Hc) as (v' & Hv' & Hwv).
      exists v'. split; [right; exact Hv'|exact Hwv].
Qed.

Lemma persist_calls (contractFileName solcVersion : string) (compilerInput : StandardInput)
    (compilerOutput_ : StandardOutput) (st : DriverState) :
  compileCalls (snd (Compiler._persistCompiledContractAsync E this contractFileName
                       solcVersion compilerInput compilerOutput_ st))
  = compileCalls st.
Proof.
  unfold Compiler._persistCompiledContractAsync.
  destruct (JsObj.get "" (sources compilerOutput_)).
  - destruct (JsObj.get "" (contracts compilerOutput_)); reflexivity.
  - apply (forOf_state_inv (fun st' => compileCalls st' = compileCalls st)); [|reflexivity].
    intros [] contractPath st0 H0.
    destruct (Compiler.contractsOfPath compilerOutput_ contractPath); simpl; exact H0.
Qed.

Lemma persistAll_calls (plan : Compiler.Plan) (versions : list string)
    (compilationResults : list (list CompilationResult)) (st : DriverState) :
  compileCalls (snd (Compiler.persistAll E this plan versions compilationResults st))
  = compileCalls st.
Proof.
  rewrite persistAll_visits.
  apply (forOf_state_inv (fun st' => compileCalls st' = compileCalls st)); [|reflexivity].
  intros cache v st0 H0. unfold writeVisit, Compiler.writeContract.
  destruct (Compiler.contractPathToData plan !! visitPath v) as [cd|]; [|exact H0].
  destruct (Compiler.contractsOfPath (output (visitResult v)) (visitPath v)) as [byName|];
    [|exact H0].
  destruct (JsObj.get (contractName cd) byName); [|exact H0].
  match goal with |- context [if ?b then _ else _] => destruct b end; [exact H0|].
  unfold_driver.
  pose proof (persist_calls (contractName cd) (visitVersion v) (input (visitResult v))
                (output (visitResult v)) st0) as Hp.
  destruct (Compiler._persistCompiledContractAsync E this (contractName cd) (visitVersion v)
              (input (visitResult v)) (output (visitResult v)) st0) as [[[]|e] st1];
    simpl in *; congruence.
Qed.

(** Every call that a run adds to the history goes to a wrapper built for
    the normalized form of a version of its plan. *)
Lemma run_calls (contractNames : list string) (opts : CompileContractsOpts)
    (st : DriverState) (pin : string) :
  registryOk st ->
  truthy (_solcVersionIfExists this) = Some pin ->
  exists calls,
    compileCalls (snd (Compiler._compileContractsAsync E this contractNames opts st))
    = compileCalls st ++ calls
    /\ forall c, c ∈ calls -> wrapperVersion (callWrapper c) = normalizeSolcVersion E pin.
Proof.
  intros Hok Hpin. unfold Compiler._compileContractsAsync. unfold_driver.
  pose proof (planContracts_state E this (shouldCompileIndependently opts) contractNames
                Compiler.emptyPlan st) as Hplan. cbv zeta in Hplan.
  unfold Compiler.planContracts.
  destruct (forOf (Compiler.planContract E this (shouldCompileIndependently opts))
              Compiler.emptyPlan contractNames st) as [[plan|e] st1] eqn:Hrun;
    simpl in Hplan.
  2:{ exists []. rewrite app_nil_r. simpl. destruct Hplan as (_ & Hc & _).
      split; [exact Hc|]. intros c Hin. inversion Hin. }
  destruct Hplan as (_ & Hc1 & Hok1). specialize (Hok1 Hok).
  pose proof (planContracts_pinned_keys E this pin (shouldCompileIndependently opts)
                contractNames Compiler.emptyPlan plan st st1 Hpin
                ltac:(simpl; intros v Hv; inversion Hv) Hrun) as Hkeys.
  unfold Compiler.dispatch.
  pose proof (dispatchVersions_calls plan
                (getDependencyNameToPackagePath E (Compiler.allResolvedContractSources plan))
                (JsObj.keys (Compiler.compilationUnitsByVersion plan)) st1 Hok1) as Hd.
  cbv zeta in Hd.
  destruct (Compiler.dispatchVersions E plan
              (getDependencyNameToPackagePath E (Compiler.allResolvedContractSources plan))
              (JsObj.keys (Compiler.compilationUnitsByVersion plan)) st1) as [rs st2].
  simpl in Hd. destruct Hd as (_ & _ & calls & Hc2 & Hcalls).
  exists calls.
  assert (forall c, c ∈ calls -> wrapperVersion (callWrapper c) = normalizeSolcVersion E pin)
    as Hpinned.
  { intros c Hc. destruct (Hcalls c Hc) as (v & Hv & ->). rewrite (Hkeys v Hv). reflexivity. }
  split; [|exact Hpinned].
  destruct (promiseAll rs) as [results|e]; simpl; [|congruence].
  destruct (shouldPersist opts); simpl; [|congruence].
  unfold_driver.
  pose proof (persistAll_calls plan (JsObj.keys (Compiler.compilationUnitsByVersion plan))
                results st2) as Hp.
  destruct (Compiler.persistAll E this plan
              (JsObj.keys (Compiler.compilationUnitsByVersion plan)) results st2)
    as [[cache|e] st3]; simpl in *; congruence.
Qed.
End dispatcher.


(** * Further properties *)

(** ** Outcomes of the dispatcher *)

Lemma promiseAll_Ok {A : Type} (l : list (result A)) (xs : list A) :
  promiseAll l = Ok xs -> l = map Ok xs.
Proof.
  revert xs. induction l as [|[a|e] l IH]; intros xs; simpl.
  - intros [= <-]. reflexivity.
  - destruct (promiseAll l) as [l''|e]; [|discriminate].
    intros [= <-]. simpl. f_equal. apply IH. reflexivity.
  - discriminate.
Qed.

Section dispatch_shape.
Context (E : Collaborators).

Lemma issueUnits_length (solc : SolcWrapper) (remappings : JsObject string)
    (units : list (JsObject string)) :
  forall st, length (fst (Compiler.issueUnits E solc remappings units st)) = length units.
Proof.
  induction units as [|u units IH]; intros st; simpl; [reflexivity|].
  specialize (IH (addCall st {| callWrapper := solc; callContracts := u;
                                callRemappings := remappings |})).
  destruct (Compiler.issueUnits E solc remappings units
              (addCall st {| callWrapper := solc; callContracts := u;
                             callRemappings := remappings |})) as [rs st2].
  simpl in *. rewrite IH. reflexivity.
Qed.

(** Dispatching touches no file; a version whose promise is fulfilled has
    one result per unit, and its calls are its units, in order. *)
Lemma dispatchVersions_shape (plan : Compiler.Plan) (remappings : JsObject string)
    (versions : list string) :
  forall st,
    let rs := fst (Compiler.dispatchVersions E plan remappings versions st) in
    let st' := snd (Compiler.dispatchVersions E plan remappings versions st) in
    artifactFiles st' = artifactFiles st
    /\ length rs = length versions
    /\ (forall results, promiseAll rs = Ok results ->
          Forall2 (fun v res =>
                     length res
                     = length (default [] (JsObj.get v (Compiler.compilationUnitsByVersion plan))))
                  versions results
          /\ exists calls,
               compileCalls st' = compileCalls st ++ calls
               /\ map callContracts calls
                  = concat (map (fun v => default [] (JsObj.get v
                                            (Compiler.compilationUnitsByVersion plan)))
                                versions)
               /\ forall c, c ∈ calls -> callRemappings c = remappings).
Proof.
  induction versions as [|v versions IH]; intros st; simpl.
  - split; [reflexivity|]. split; [reflexivity|].
    intros results [= <-]. split; [constructor|].
    exists []. rewrite app_nil_r. split; [reflexivity|]. split; [reflexivity|].
    intros c Hc. inversion Hc.
  - unfold Compiler.dispatchVersion.
    pose proof (getSolcWrapper_files E v st) as [Hf1 Hc1].
    destruct (_getSolcWrapperForVersion E v st) as [[solc|e] st1]; simpl in Hf1, Hc1.
    + pose proof (issueUnits_state E solc remappings
                    (default [] (JsObj.get v (Compiler.compilationUnitsByVersion plan))) st1)
        as Hissue. cbv zeta in Hissue.
      pose proof (issueUnits_length solc remappings
                    (default [] (JsObj.get v (Compiler.compilationUnitsByVersion plan))) st1)
        as Hlen.
      destruct (Compiler.issueUnits E solc remappings
                  (default [] (JsObj.get v (Compiler.compilationUnitsByVersion plan))) st1)
        as [rs1 st2]. simpl in Hissue, Hlen. destruct Hissue as (_ & _ & Hf2 & Hc2).
      specialize (IH st2). cbv zeta in IH.
      destruct (Compiler.dispatchVersions E plan remappings versions st2) as [rs st3].
      simpl in *. destruct IH as (Hf3 & Hlen3 & IH).
      split; [congruence|]. split; [congruence|].
      intros results Hall.
      destruct (promiseAll rs1) as [res1|e1] eqn:H1; [|discriminate].
      destruct (promiseAll rs) as [results'|e'] eqn:H2; [|discriminate].
      injection Hall as <-.
      destruct (IH results' eq_refl) as (Hshape & calls & Hcalls & Hunits & Hremap).
      split.
      * constructor; [|exact Hshape].
        apply promiseAll_Ok in H1. rewrite H1, length_map in Hlen. exact Hlen.
      * eexists. split; [rewrite Hcalls, Hc2, Hc1, <- app_assoc; reflexivity|].
        split.
        -- rewrite map_app, Hunits. f_equal.
           rewrite map_map. simpl. apply map_id.
        -- intros c Hc. apply elem_of_app in Hc as [Hc|Hc]; [|auto].
           apply list_elem_of_fmap in Hc as (u & -> & _). reflexivity.
    + specialize (IH st1). cbv zeta in IH.
      destruct (Compiler.dispatchVersions E plan remappings versions st1) as [rs st3].
      simpl in *. destruct IH as (Hf3 & Hlen3 & _).
      split; [congruence|]. split; [congruence|]. discriminate.
Qed.

End dispatch_shape.

(** ** The phases of a run *)

Lemma JsObj_set_NoDup {V : Type} (o : list (string * V)) (k : string) (v : V) :
  NoDup (JsObj.keys o) -> NoDup (JsObj.keys (JsObj.set k v o)).
Proof.
  intros Hnd. rewrite JsObj_keys_set.
  destruct (JsObj.get k o) eqn:Hget; [exact Hnd|].
  apply NoDup_app. split; [exact Hnd|]. split; [|apply NoDup_singleton].
  intros x Hx Hk. apply list_elem_of_singleton in Hk as ->.
  apply JsObj_elem_of_keys in Hx as [? Hx]. congruence.
Qed.

Lemma JsObj_values_by_key {V : Type} (d : V) (o : list (string * V)) :
  NoDup (JsObj.keys o) ->
  map (fun k => default d (JsObj.get k o)) (JsObj.keys o) = JsObj.values o.
Proof.
  unfold JsObj.keys, JsObj.values.
  induction o as [|[k v] o IH]; intros Hnd; simpl; [reflexivity|].
  apply NoDup_cons in Hnd as [Hk Hnd].
  rewrite decide_True by reflexivity. simpl. f_equal.
  rewrite <- (IH Hnd). apply map_ext_in. intros k' Hk'.
  rewrite decide_False; [reflexivity|].
  intros ->. apply Hk. apply list_elem_of_In. exact Hk'.
Qed.

Section run.
Context (E : Collaborators) (this : DriverFields).

(** The three phases of a run. *)
Lemma run_phases (contractNames : list string) (opts : CompileContractsOpts)
    (st : DriverState) :
  Compiler._compileContractsAsync E this contractNames opts st =
  match Compiler.planContracts E this (shouldCompileIndependently opts) contractNames st with
  | (Throw e, st1) => (Throw e, st1)
  | (Ok plan, st1) =>
      match Compiler.dispatch E plan
              (getDependencyNameToPackagePath E (Compiler.allResolvedContractSources plan))
              (JsObj.keys (Compiler.compilationUnitsByVersion plan)) st1 with
      | (Throw e, st2) => (Throw e, st2)
      | (Ok results, st2) =>
          if shouldPersist opts then
            match Compiler.persistAll E this plan
                    (JsObj.keys (Compiler.compilationUnitsByVersion plan)) results st2 with
            | (Ok _, st3) => (Ok (map (map output) results), st3)
            | (Throw e, st3) => (Throw e, st3)
            end
          else (Ok (map (map output) results), st2)
      end
  end.
Proof.
  unfold Compiler._compileContractsAsync. unfold_driver.
  destruct (Compiler.planContracts E this (shouldCompileIndependently opts) contractNames st)
    as [[plan|e] st1]; [|reflexivity].
  destruct (Compiler.dispatch E plan
              (getDependencyNameToPackagePath E (Compiler.allResolvedContractSources plan))
              (JsObj.keys (Compiler.compilationUnitsByVersion plan)) st1)
    as [[results|e] st2]; [|reflexivity].
  destruct (shouldPersist opts); [|reflexivity].
  destruct (Compiler.persistAll E this plan
              (JsObj.keys (Compiler.compilationUnitsByVersion plan)) results st2)
    as [[cache|e] st3]; reflexivity.
Qed.

Lemma dispatch_files (plan : Compiler.Plan) (remappings : JsObject string)
    (versions : list string) (st : DriverState) :
  artifactFiles (snd (Compiler.dispatch E plan remappings versions st)) = artifactFiles st.
Proof.
  unfold Compiler.dispatch.
  pose proof (dispatchVersions_shape E plan remappings versions st) as H. cbv zeta in H.
  destruct (Compiler.dispatchVersions E plan remappings versions st) as [rs st'].
  simpl in *. apply H.
Qed.

Lemma planContracts_NoDup (independently : bool) (contractNames : list string)
    (plan : Compiler.Plan) (st st' : DriverState) :
  Compiler.planContracts E this independently contractNames st = (Ok plan, st') ->
  NoDup (JsObj.keys (Compiler.compilationUnitsByVersion plan)).
Proof.
  unfold Compiler.planContracts. intros Hrun.
  refine (forOf_inv (fun pl _ => NoDup (JsObj.keys (Compiler.compilationUnitsByVersion pl)))
            _ _ contractNames Compiler.emptyPlan st plan st' _ Hrun); [|constructor].
  intros pl n st0 pl' st0' Hinv Hstep.
  apply planContract_survivor in Hstep as [[_ ->]|(walk & v & _ & ->)]; [exact Hinv|].
  simpl. apply JsObj_set_NoDup. exact Hinv.
Qed.

Lemma planContracts_no_survivor (independently : bool) (contractNames : list string) :
  forall (plan plan' : Compiler.Plan) (st st' : DriverState),
  forOf (Compiler.planContract E this independently) plan contractNames st = (Ok plan', st') ->
  survivors E this independently plan contractNames st = [] ->
  plan' = plan.
Proof.
  induction contractNames as [|n names IH]; intros plan plan' st st' Hrun Hnone;
    simpl in *; unfold_driver.
  - injection Hrun as <- _. reflexivity.
  - destruct (Compiler.planContract E this independently plan n st) as [[plan1|e] st1] eqn:Hstep;
      [|discriminate].
    apply app_eq_nil in Hnone as [Hhead Hrest].
    apply planContract_survivor in Hstep as [[_ ->]|(walk & v & Hsurv & _)].
    + eapply IH; eassumption.
    + rewrite Hsurv in Hhead. discriminate.
Qed.

End run.

(** X1: a run that fails before the writer starts leaves every artifact
    file as it was.  When planning throws, the run throws that error with
    the files and the call history unchanged; when planning completes and
    the dispatch throws (a wrapper that does not exist, a unit that does
    not compile), the run throws that error and the files are unchanged:
    nothing is written unless every unit of every version compiled. *)
Theorem failure_before_writing (E : Collaborators) (this : DriverFields)
    (contractNames : list string) (opts : CompileContractsOpts) (st : DriverState) :
  (forall e st1,
      Compiler.planContracts E this (shouldCompileIndependently opts) contractNames st
      = (Throw e, st1) ->
      Compiler._compileContractsAsync E this contractNames opts st = (Throw e, st1)
      /\ artifactFiles st1 = artifactFiles st
      /\ compileCalls st1 = compileCalls st)
  /\ (forall plan st1 e st2,
      Compiler.planContracts E this (shouldCompileIndependently opts) contractNames st
      = (Ok plan, st1) ->
      Compiler.dispatch E plan
        (getDependencyNameToPackagePath E (Compiler.allResolvedContractSources plan))
        (JsObj.keys (Compiler.compilationUnitsByVersion plan)) st1 = (Throw e, st2) ->
      Compiler._compileContractsAsync E this contractNames opts st = (Throw e, st2)
      /\ artifactFiles st2 = artifactFiles st).
Proof.
  pose proof (planContracts_state E this (shouldCompileIndependently opts) contractNames
                Compiler.emptyPlan st) as Hplan. cbv zeta in Hplan.
  fold (Compiler.planContracts E this (shouldCompileIndependently opts) contractNames) in Hplan.
  split.
  - intros e st1 Hthrow. rewrite run_phases, Hthrow. rewrite Hthrow in Hplan. simpl in Hplan.
    destruct Hplan as (Hf & Hc & _). auto.
  - intros plan st1 e st2 Hok Hthrow. rewrite run_phases, Hok, Hthrow.
    rewrite Hok in Hplan. simpl in Hplan. destruct Hplan as (Hf & _).
    split; [reflexivity|].
    pose proof (dispatch_files E plan
                  (getDependencyNameToPackagePath E (Compiler.allResolvedContractSources plan))
                  (JsObj.keys (Compiler.compilationUnitsByVersion plan)) st1) as Hd.
    rewrite Hthrow in Hd. simpl in Hd. congruence.
Qed.

Lemma failure_before_writing_witness :
  fst (Compiler._compileContractsAsync (Demo.env Scenarios.failingBackend)
         (Demo.driver ["A"] false) ["A"] Demo.persisting Demo.initial)
  = Throw (CompilationError 1)
  /\ artifactFiles
       (snd (Compiler._compileContractsAsync (Demo.env Scenarios.failingBackend)
               (Demo.driver ["A"] false) ["A"] Demo.persisting Demo.initial))
     = artifactFiles Demo.initial.
Proof.
  destruct (failure_before_writing (Demo.env Scenarios.failingBackend) (Demo.driver ["A"] false)
              ["A"] Demo.persisting Demo.initial) as [_ Hdispatch].
  destruct (Compiler.planContracts (Demo.env Scenarios.failingBackend) (Demo.driver ["A"] false)
              (shouldCompileIndependently Demo.persisting) ["A"] Demo.initial)
    as [[plan|e] st1] eqn:Hplan; [|vm_compute in Hplan; discriminate Hplan].
  destruct (Compiler.dispatch (Demo.env Scenarios.failingBackend) plan
              (getDependencyNameToPackagePath (Demo.env Scenarios.failingBackend)
                 (Compiler.allResolvedContractSources plan))
              (JsObj.keys (Compiler.compilationUnitsByVersion plan)) st1)
    as [[results|e] st2] eqn:Hd.
  - vm_compute in Hplan. injection Hplan as <- <-. vm_compute in Hd. discriminate Hd.
  - destruct (Hdispatch plan st1 e st2 eq_refl Hd) as [Hrun Hfiles].
    rewrite Hrun. split; [|exact Hfiles].
    vm_compute in Hplan. injection Hplan as <- <-. vm_compute in Hd.
    injection Hd as <- _. reflexivity.
Defined.


(** X2: when planning completes and the cache gate skipped every
    requested contract, the run returns no output at all, issues no
    back-end call and writes no file. *)
Theorem skipped_run_is_idle (E : Collaborators) (this : DriverFields)
    (contractNames : list string) (opts : CompileContractsOpts) (st st1 : DriverState)
    (plan : Compiler.Plan) :
  Compiler.planContracts E this (shouldCompileIndependently opts) contractNames st
  = (Ok plan, st1) ->
  survivors E this (shouldCompileIndependently opts) Compiler.emptyPlan contractNames st = [] ->
  Compiler._compileContractsAsync E this contractNames opts st = (Ok [], st1)
  /\ compileCalls st1 = compileCalls st
  /\ artifactFiles st1 = artifactFiles st.
Proof.
  intros Hplan Hnone.
  assert (plan = Compiler.emptyPlan) as ->
    by (eapply planContracts_no_survivor; eassumption).
  pose proof (planContracts_state E this (shouldCompileIndependently opts) contractNames
                Compiler.emptyPlan st) as Hst. cbv zeta in Hst.
  fold (Compiler.planContracts E this (shouldCompileIndependently opts) contractNames) in Hst.
  rewrite Hplan in Hst. simpl in Hst. destruct Hst as (Hf & Hc & _).
  split; [|split; assumption].
  rewrite run_phases, Hplan. simpl.
  destruct (shouldPersist opts); reflexivity.
Qed.

Lemma skipped_run_is_idle_witness :
  Compiler._compileContractsAsync Scenarios.upToDate (Demo.driver ["A"] false) ["A"]
    Demo.persisting Demo.initial
  = (Ok [], snd (Compiler.planContracts Scenarios.upToDate (Demo.driver ["A"] false) false ["A"]
                   Demo.initial))
  /\ compileCalls (snd (Compiler.planContracts Scenarios.upToDate (Demo.driver ["A"] false) false
                          ["A"] Demo.initial)) = []
  /\ artifactFiles (snd (Compiler.planContracts Scenarios.upToDate (Demo.driver ["A"] false) false
                           ["A"] Demo.initial)) = ∅.
Proof.
  destruct (Compiler.planContracts Scenarios.upToDate (Demo.driver ["A"] false) false ["A"]
              Demo.initial) as [[plan|e] st1] eqn:Hplan;
    [|vm_compute in Hplan; discriminate Hplan].
  apply (skipped_run_is_idle Scenarios.upToDate (Demo.driver ["A"] false) ["A"] Demo.persisting
           Demo.initial st1 plan Hplan).
  vm_compute. reflexivity.
Defined.


(** X3: a run that completes has issued exactly one back-end call per
    compilation unit of its plan, version by version in the order of the
    plan and unit by unit, every call with the import remappings computed
    from all recorded sources; it returns one list of outputs per version,
    with one output per unit of that version. *)
Theorem one_call_per_unit (E : Collaborators) (this : DriverFields)
    (contractNames : list string) (opts : CompileContractsOpts) (st st' : DriverState)
    (outputs : list (list StandardOutput)) :
  Compiler._compileContractsAsync E this contractNames opts st = (Ok outputs, st') ->
  exists plan st1 calls,
    Compiler.planContracts E this (shouldCompileIndependently opts) contractNames st
    = (Ok plan, st1)
    /\ compileCalls st' = compileCalls st ++ calls
    /\ map callContracts calls = unitsInOrder (Compiler.compilationUnitsByVersion plan)
    /\ (forall c, c ∈ calls ->
          callRemappings c
          = getDependencyNameToPackagePath E (Compiler.allResolvedContractSources plan))
    /\ Forall2 (fun v outs =>
                  length outs
                  = length (default [] (JsObj.get v (Compiler.compilationUnitsByVersion plan))))
               (JsObj.keys (Compiler.compilationUnitsByVersion plan)) outputs.
Proof.
  rewrite run_phases.
  pose proof (planContracts_state E this (shouldCompileIndependently opts) contractNames
                Compiler.emptyPlan st) as Hst. cbv zeta in Hst.
  fold (Compiler.planContracts E this (shouldCompileIndependently opts) contractNames) in Hst.
  destruct (Compiler.planContracts E this (shouldCompileIndependently opts) contractNames st)
    as [[plan|e] st1] eqn:Hplan; [|discriminate].
  simpl in Hst. destruct Hst as (_ & Hc1 & _).
  unfold Compiler.dispatch.
  pose proof (dispatchVersions_shape E plan
                (getDependencyNameToPackagePath E (Compiler.allResolvedContractSources plan))
                (JsObj.keys (Compiler.compilationUnitsByVersion plan)) st1) as Hd.
  cbv zeta in Hd.
  destruct (Compiler.dispatchVersions E plan
              (getDependencyNameToPackagePath E (Compiler.allResolvedContractSources plan))
              (JsObj.keys (Compiler.compilationUnitsByVersion plan)) st1) as [rs st2].
  simpl in Hd. destruct Hd as (_ & _ & Hd).
  destruct (promiseAll rs) as [results|e] eqn:Hall; [|discriminate].
  destruct (Hd results eq_refl) as (Hshape & calls & Hc2 & Hunits & Hremap).
  intros Hrun.
  assert (outputs = map (map output) results /\ compileCalls st' = compileCalls st2)
    as [-> Hc3].
  { destruct (shouldPersist opts).
    - pose proof (persistAll_calls E this plan
                    (JsObj.keys (Compiler.compilationUnitsByVersion plan)) results st2) as Hp.
      destruct (Compiler.persistAll E this plan
                  (JsObj.keys (Compiler.compilationUnitsByVersion plan)) results st2)
        as [[cache|e] st3]; [|discriminate].
      injection Hrun as <- <-. split; [reflexivity|exact Hp].
    - injection Hrun as <- <-. split; reflexivity. }
  exists plan, st1, calls. split; [reflexivity|].
  split; [congruence|]. split.
  - rewrite Hunits. unfold unitsInOrder. f_equal.
    apply JsObj_values_by_key. eapply planContracts_NoDup. exact Hplan.
  - split; [exact Hremap|].
    apply Forall2_fmap_r. eapply Forall2_impl; [exact Hshape|].
    intros v res Hlen. simpl. rewrite length_map. exact Hlen.
Qed.

Lemma one_call_per_unit_witness :
  exists plan st1 calls,
    Compiler.planContracts (Demo.env Demo.standardBackend) (Demo.driver ["A"; "B"; "L"] true)
      true ["A"; "B"; "L"] Demo.initial = (Ok plan, st1)
    /\ compileCalls
         (snd (Compiler._compileContractsAsync (Demo.env Demo.standardBackend)
                 (Demo.driver ["A"; "B"; "L"] true) ["A"; "B"; "L"]
                 {| shouldCompileIndependently := true; shouldPersist := true |} Demo.initial))
       = compileCalls Demo.initial ++ calls
    /\ map callContracts calls = unitsInOrder (Compiler.compilationUnitsByVersion plan)
    /\ length calls = 3.
Proof.
  destruct (Compiler._compileContractsAsync (Demo.env Demo.standardBackend)
              (Demo.driver ["A"; "B"; "L"] true) ["A"; "B"; "L"]
              {| shouldCompileIndependently := true; shouldPersist := true |} Demo.initial)
    as [[outputs|e] st'] eqn:Hrun; [|vm_compute in Hrun; discriminate Hrun].
  destruct (one_call_per_unit _ _ _ _ _ _ _ Hrun)
    as (plan & st1 & calls & Hplan & Hcalls & Hunits & _ & _).
  exists plan, st1, calls. split; [exact Hplan|]. split; [exact Hcalls|].
  split; [exact Hunits|].
  rewrite <- (length_map callContracts), Hunits.
  vm_compute in Hplan. injection Hplan as <- _. reflexivity.
Defined.

(** ** What a run writes *)

Section frame.
Context (E : Collaborators) (this : DriverFields).

Lemma persist_frame (contractFileName solcVersion : string) (compilerInput : StandardInput)
    (compilerOutput_ : StandardOutput) (st : DriverState) (p : string) :
  let st' := snd (Compiler._persistCompiledContractAsync E this contractFileName
                    solcVersion compilerInput compilerOutput_ st) in
  solcWrappersByVersion st' = solcWrappersByVersion st
  /\ allocated st' = allocated st
  /\ ((forall x, p <> Compiler.currentArtifactPath this contractFileName x) ->
      artifactFiles st' !! p = artifactFiles st !! p)
  /\ (is_Some (artifactFiles st !! p) -> is_Some (artifactFiles st' !! p)).
Proof.
  cbv zeta. unfold Compiler._persistCompiledContractAsync.
  destruct (JsObj.get "" (sources compilerOutput_)).
  - destruct (JsObj.get "" (contracts compilerOutput_)); simpl; [|auto].
    split; [reflexivity|]. split; [reflexivity|]. split.
    + intros Hp. apply lookup_insert_ne. intros Heq. exact (Hp _ (eq_sym Heq)).
    + intros Hsome. rewrite lookup_insert_is_Some. 
      destruct (decide (Compiler.currentArtifactPath this contractFileName contractFileName = p));
        auto.
  - apply (forOf_state_inv
             (fun st' => solcWrappersByVersion st' = solcWrappersByVersion st
                         /\ allocated st' = allocated st
                         /\ ((forall x,
                                p <> Compiler.currentArtifactPath this contractFileName x) ->
                             artifactFiles st' !! p = artifactFiles st !! p)
                         /\ (is_Some (artifactFiles st !! p) -> is_Some (artifactFiles st' !! p))));
      [|auto].
    intros [] contractPath st0 (Hw & Ha & Hother & Hkept).
    destruct (Compiler.contractsOfPath compilerOutput_ contractPath); simpl; [|auto].
    split; [exact Hw|]. split; [exact Ha|]. split.
    + intros Hp. rewrite lookup_insert_ne; [auto|].
      intros Heq. exact (Hp _ (eq_sym Heq)).
    + intros Hsome. rewrite lookup_insert_is_Some.
      match goal with |- ?a = p \/ _ => destruct (decide (a = p)) end; auto.
Qed.

Lemma persistAll_frame (plan : Compiler.Plan) (versions : list string)
    (compilationResults : list (list CompilationResult)) (st : DriverState) (p : string) :
  let st' := snd (Compiler.persistAll E this plan versions compilationResults st) in
  solcWrappersByVersion st' = solcWrappersByVersion st
  /\ allocated st' = allocated st
  /\ ((forall k contractData x,
         Compiler.contractPathToData plan !! k = Some contractData ->
         p <> Compiler.currentArtifactPath this (contractName contractData) x) ->
      artifactFiles st' !! p = artifactFiles st !! p)
  /\ (is_Some (artifactFiles st !! p) -> is_Some (artifactFiles st' !! p)).
Proof.
  cbv zeta. rewrite persistAll_visits.
  apply (forOf_state_inv
           (fun st' => solcWrappersByVersion st' = solcWrappersByVersion st
                       /\ allocated st' = allocated st
                       /\ ((forall k contractData x,
                              Compiler.contractPathToData plan !! k = Some contractData ->
                              p <> Compiler.currentArtifactPath this
                                     (contractName contractData) x) ->
                           artifactFiles st' !! p = artifactFiles st !! p)
                       /\ (is_Some (artifactFiles st !! p) -> is_Some (artifactFiles st' !! p))));
    [|auto].
  intros cache v st0 H0. unfold writeVisit, Compiler.writeContract.
  destruct (Compiler.contractPathToData plan !! visitPath v) as [cd|] eqn:Hcd; [|exact H0].
  destruct (Compiler.contractsOfPath (output (visitResult v)) (visitPath v)) as [byName|];
    [|exact H0].
  destruct (JsObj.get (contractName cd) byName); [|exact H0].
  match goal with |- context [if ?b then _ else _] => destruct b end; [exact H0|].
  unfold_driver.
  pose proof (persist_frame (contractName cd) (visitVersion v) (input (visitResult v))
                (output (visitResult v)) st0 p) as Hp. cbv zeta in Hp.
  destruct (Compiler._persistCompiledContractAsync E this (contractName cd) (visitVersion v)
              (input (visitResult v)) (output (visitResult v)) st0) as [[[]|e] st1];
    simpl in *; destruct H0 as (Hw & Ha & Hother & Hkept);
    destruct Hp as (Hw1 & Ha1 & Hother1 & Hkept1);
    (split; [congruence|]; split; [congruence|]; split;
     [intros Hfree; rewrite Hother1 by (intros x; eapply Hfree; exact Hcd); auto|auto]).
Qed.

(** The records of a plan belong to requested names. *)
Lemma planContracts_records (independently : bool) (P : ContractData -> Prop)
    (contractNames : list string) :
  (forall n st walk, n ∈ contractNames -> P (contractDataFor E this st n walk)) ->
  forall (plan plan' : Compiler.Plan) (st st' : DriverState),
  (forall k cd, Compiler.contractPathToData plan !! k = Some cd -> P cd) ->
  forOf (Compiler.planContract E this independently) plan contractNames st = (Ok plan', st') ->
  forall k cd, Compiler.contractPathToData plan' !! k = Some cd -> P cd.
Proof.
  induction contractNames as [|n names IH]; intros Hnames plan plan' st st' Hplan Hrun;
    simpl in Hrun; unfold_driver.
  - injection Hrun as <- <-. exact Hplan.
  - destruct (Compiler.planContract E this independently plan n st) as [[plan1|e] st1] eqn:Hstep;
      [|discriminate].
    assert (forall n0 st0 walk, n0 ∈ names -> P (contractDataFor E this st0 n0 walk)) as Hrest
      by (intros; apply Hnames; right; assumption).
    apply planContract_survivor in Hstep as [[_ ->]|(walk & v & _ & ->)].
    + exact (IH Hrest _ _ _ _ Hplan Hrun).
    + refine (IH Hrest _ _ _ _ _ Hrun). simpl. intros k cd Hk.
      apply lookup_insert_Some in Hk as [[_ <-]|[_ Hk]]; [|eauto].
      apply Hnames. left.
Qed.

End frame.

(** X4: whatever its outcome, a run changes no file other than
    [<artifactsDir>/<name>-<x>.json] for the base name of a requested
    contract, and it removes no file. *)
Theorem run_writes_only_requested_artifacts (E : Collaborators) (this : DriverFields)
    (contractNames : list string) (opts : CompileContractsOpts) (st : DriverState)
    (p : string) :
  let st' := snd (Compiler._compileContractsAsync E this contractNames opts st) in
  ((forall n x, n ∈ contractNames ->
      p <> Compiler.currentArtifactPath this (basename E n (SOLIDITY_FILE_EXTENSION E)) x) ->
   artifactFiles st' !! p = artifactFiles st !! p)
  /\ (is_Some (artifactFiles st !! p) -> is_Some (artifactFiles st' !! p)).
Proof.
  cbv zeta. rewrite run_phases.
  pose proof (planContracts_state E this (shouldCompileIndependently opts) contractNames
                Compiler.emptyPlan st) as Hst. cbv zeta in Hst.
  fold (Compiler.planContracts E this (shouldCompileIndependently opts) contractNames) in Hst.
  destruct (Compiler.planContracts E this (shouldCompileIndependently opts) contractNames st)
    as [[plan|e] st1] eqn:Hplan; simpl in Hst; destruct Hst as (Hf1 & _).
  2:{ simpl. rewrite Hf1. auto. }
  pose proof (dispatch_files E plan
                (getDependencyNameToPackagePath E (Compiler.allResolvedContractSources plan))
                (JsObj.keys (Compiler.compilationUnitsByVersion plan)) st1) as Hf2.
  destruct (Compiler.dispatch E plan
              (getDependencyNameToPackagePath E (Compiler.allResolvedContractSources plan))
              (JsObj.keys (Compiler.compilationUnitsByVersion plan)) st1)
    as [[results|e] st2]; simpl in Hf2.
  2:{ simpl. rewrite Hf2, Hf1. auto. }
  destruct (shouldPersist opts).
  2:{ simpl. rewrite Hf2, Hf1. auto. }
  pose proof (persistAll_frame E this plan
                (JsObj.keys (Compiler.compilationUnitsByVersion plan)) results st2 p) as Hp.
  cbv zeta in Hp. destruct Hp as (_ & _ & Hother & Hkept).
  rewrite Hf2, Hf1 in Hother, Hkept.
  assert (artifactFiles
            (snd (Compiler.persistAll E this plan
                    (JsObj.keys (Compiler.compilationUnitsByVersion plan)) results st2))
          = artifactFiles
              (snd (match Compiler.persistAll E this plan
                            (JsObj.keys (Compiler.compilationUnitsByVersion plan)) results st2
                    with
                    | (Ok _, st3) => (Ok (map (map output) results), st3)
                    | (Throw e, st3) => (Throw e, st3)
                    end))) as <-.
  { destruct (Compiler.persistAll E this plan
                (JsObj.keys (Compiler.compilationUnitsByVersion plan)) results st2)
      as [[c|e] st3]; reflexivity. }
  split; [|exact Hkept].
  intros Hfree. apply Hother. intros k cd x Hk.
  assert (exists n, n ∈ contractNames
                    /\ contractName cd = basename E n (SOLIDITY_FILE_EXTENSION E))
    as (n & Hn & ->).
  { refine (planContracts_records E this (shouldCompileIndependently opts)
              (fun cd => exists n, n ∈ contractNames
                         /\ contractName cd = basename E n (SOLIDITY_FILE_EXTENSION E))
              contractNames _ Compiler.emptyPlan plan st st1 _ Hplan k cd Hk).
    - intros n st0 walk Hn. exists n. split; [exact Hn|reflexivity].
    - simpl. intros k0 cd0 Hk0. rewrite lookup_empty in Hk0. discriminate. }
  apply Hfree. exact Hn.
Qed.

Lemma run_writes_only_requested_artifacts_witness :
  artifactFiles (snd Demo.ranBatched) !! "artifacts/C-A.json" = None
  /\ is_Some (artifactFiles (snd Demo.ranBatched) !! "artifacts/A-L.json").
Proof.
  destruct (run_writes_only_requested_artifacts (Demo.env Demo.standardBackend)
              (Demo.driver ["A"; "B"] false) ["A"; "B"] Demo.persisting Demo.initial
              "artifacts/C-A.json") as [Hother _].
  split; [|vm_compute; eauto].
  assert (artifactFiles (snd Demo.ranBatched)
          = artifactFiles
              (snd (Compiler._compileContractsAsync (Demo.env Demo.standardBackend)
                      (Demo.driver ["A"; "B"] false) ["A"; "B"] Demo.persisting Demo.initial)))
    as -> by (vm_compute; reflexivity).
  rewrite Hother; [reflexivity|].
  intros n x Hn.
  apply elem_of_cons in Hn as [->|Hn]; [simpl; discriminate|].
  apply elem_of_cons in Hn as [->|Hn]; [simpl; discriminate|inversion Hn].
Defined.


(** X5: the artifacts that either driver builds carry no source-tree
    hash, so the cache gate never skips a contract whose existing artifact
    is one of them: it answers that the contract must be rebuilt, or fails
    because the version named in the artifact has no wrapper class. *)
Theorem gate_rebuilds_own_artifacts (E : Collaborators) (contractName_ solcVersion : string)
    (compiledContract : option CompiledContract) (compilerInput : StandardInput)
    (compilerOutput_ : StandardOutput) (hash requested : string) (st : DriverState) :
  let answers (artifact : ContractArtifact) :=
    fst (Compiler._shouldCompile E
           {| currentArtifactIfExists := Some artifact; sourceTreeHashHex := hash;
              contractName := requested |} st) in
  let outcome (r : result bool) :=
    r = Ok true \/ r = Throw (UnsupportedVersionError (normalizeSolcVersion E solcVersion)) in
  outcome (answers (Compiler.newArtifact E contractName_ solcVersion compiledContract
                      compilerInput compilerOutput_))
  /\ outcome (answers (JSONCompiler.newArtifact E contractName_ solcVersion compiledContract
                         compilerInput)).
Proof.
  cbv zeta. unfold Compiler._shouldCompile. simpl. unfold_driver.
  destruct (getSolcWrapper_cases E solcVersion st)
    as [(w & _ & ->)|[(f & _ & _ & ->)|(_ & _ & ->)]]; simpl;
    rewrite ?orb_true_r; auto.
Qed.

(** ** The artifact of a root *)

Lemma append_cancel_l (a x y : string) : a +:+ x = a +:+ y -> x = y.
Proof. induction a as [|c a IH]; simpl; [auto|]. intros [= H]. auto. Qed.

Lemma list_ascii_of_append (a b : string) :
  String.list_ascii_of_string (a +:+ b)
  = String.list_ascii_of_string a ++ String.list_ascii_of_string b.
Proof. induction a as [|c a IH]; simpl; [reflexivity|]. rewrite IH. reflexivity. Qed.

Lemma append_cancel_r (x y b : string) : x +:+ b = y +:+ b -> x = y.
Proof.
  intros H. apply (f_equal String.list_ascii_of_string) in H.
  rewrite !list_ascii_of_append in H. apply app_inv_tail in H.
  apply (f_equal String.string_of_list_ascii) in H.
  rewrite !String.string_of_list_ascii_of_string in H. exact H.
Qed.

Lemma currentArtifactPath_inj (this : DriverFields) (contractFileName x y : string) :
  Compiler.currentArtifactPath this contractFileName x
  = Compiler.currentArtifactPath this contractFileName y -> x = y.
Proof.
  unfold Compiler.currentArtifactPath. intros H.
  apply append_cancel_l, append_cancel_l, append_cancel_r in H.
  apply append_cancel_l, append_cancel_l in H. exact H.
Qed.

Lemma last_filter_split {A : Type} (P : A -> Prop) `{!forall x, Decision (P x)}
    (l : list A) (w : A) :
  last (filter P l) = Some w ->
  exists l1 l2, l = l1 ++ w :: l2 /\ P w /\ Forall (fun x => ~ P x) l2.
Proof.
  induction l as [|x l IH]; simpl; [discriminate|].
  destruct (last (filter P l)) as [w'|] eqn:Hlast.
  - intros Hw.
    assert (w' = w) as ->.
    { destruct (decide (P x)).
      - rewrite filter_cons_True in Hw by assumption.
        destruct (filter P l) as [|y ys] eqn:Hf; [discriminate|].
        rewrite last_cons, Hlast in Hw. congruence.
      - rewrite filter_cons_False in Hw by assumption. congruence. }
    destruct (IH eq_refl) as (l1 & l2 & -> & Hw' & Hl2).
    exists (x :: l1), l2. auto.
  - apply last_None in Hlast. intros Hw.
    destruct (decide (P x)) as [Hx|Hx].
    + rewrite filter_cons_True, Hlast in Hw by assumption. injection Hw as <-.
      exists [], l. split; [reflexivity|]. split; [exact Hx|].
      apply Forall_forall. intros y Hy Hpy.
      assert (y ∈ filter P l) as Hin by (apply list_elem_of_filter; auto).
      rewrite Hlast in Hin. inversion Hin.
    + rewrite filter_cons_False, Hlast in Hw by assumption. discriminate.
Qed.

Section root_artifact.
Context (E : Collaborators) (this : DriverFields).

(** The loop of [_persistCompiledContractAsync] leaves alone the file of
    a source whose base name none of the listed sources has. *)
Lemma persist_loop_frame (contractFileName solcVersion : string)
    (compilerInput : StandardInput) (compilerOutput_ : StandardOutput) (name_ : string)
    (paths : list string) :
  (forall q, q ∈ paths -> basename E q (SOLIDITY_FILE_EXTENSION E) <> name_) ->
  forall st,
    artifactFiles
      (snd (forOf (fun (_ : unit) contractPath =>
                     let contractName_ :=
                       basename E contractPath (SOLIDITY_FILE_EXTENSION E) in
                     match Compiler.contractsOfPath compilerOutput_ contractPath with
                     | None => throw TypeError
                     | Some byName =>
                         writeFileAsync
                           (Compiler.currentArtifactPath this contractFileName contractName_)
                           (Compiler.newArtifact E contractName_ solcVersion
                              (JsObj.get contractName_ byName) compilerInput compilerOutput_)
                     end) tt paths st))
      !! Compiler.currentArtifactPath this contractFileName name_
    = artifactFiles st !! Compiler.currentArtifactPath this contractFileName name_.
Proof.
  induction paths as [|q paths IH]; intros Hother st; simpl; [reflexivity|].
  unfold_driver.
  destruct (Compiler.contractsOfPath compilerOutput_ q) as [byName|]; [|reflexivity].
  unfold writeFileAsync at 1.
  rewrite IH by (intros q' Hq'; apply Hother; right; exact Hq'). simpl.
  apply lookup_insert_ne. intros Heq. apply currentArtifactPath_inj in Heq.
  exact (Hother q ltac:(left) Heq).
Qed.

(** When the loop completes, the file of a listed source whose base name
    no other listed source has holds the artifact built for that source. *)
Lemma persist_loop_content (contractFileName solcVersion : string)
    (compilerInput : StandardInput) (compilerOutput_ : StandardOutput)
    (contractPath : string) (byName : JsObject CompiledContract) (paths : list string) :
  Compiler.contractsOfPath compilerOutput_ contractPath = Some byName ->
  (forall q, q ∈ paths ->
     basename E q (SOLIDITY_FILE_EXTENSION E)
     = basename E contractPath (SOLIDITY_FILE_EXTENSION E) -> q = contractPath) ->
  contractPath ∈ paths ->
  forall st st',
    forOf (fun (_ : unit) contractPath =>
             let contractName_ := basename E contractPath (SOLIDITY_FILE_EXTENSION E) in
             match Compiler.contractsOfPath compilerOutput_ contractPath with
             | None => throw TypeError
             | Some byName =>
                 writeFileAsync
                   (Compiler.currentArtifactPath this contractFileName contractName_)
                   (Compiler.newArtifact E contractName_ solcVersion
                      (JsObj.get contractName_ byName) compilerInput compilerOutput_)
             end) tt paths st = (Ok tt, st') ->
    artifactFiles st'
      !! Compiler.currentArtifactPath this contractFileName
           (basename E contractPath (SOLIDITY_FILE_EXTENSION E))
    = Some (Compiler.newArtifact E (basename E contractPath (SOLIDITY_FILE_EXTENSION E))
              solcVersion
              (JsObj.get (basename E contractPath (SOLIDITY_FILE_EXTENSION E)) byName)
              compilerInput compilerOutput_).
Proof.
  intros Hfound. induction paths as [|q paths IH]; intros Hunique Hin st st' Hrun;
    [inversion Hin|].
  simpl in Hrun. unfold_driver.
  destruct (Compiler.contractsOfPath compilerOutput_ q) as [byNameQ|] eqn:Hq;
    [|discriminate].
  unfold writeFileAsync at 1 in Hrun.
  destruct (decide (contractPath ∈ paths)) as [Hrest|Hrest].
  - eapply IH; [|exact Hrest|exact Hrun].
    intros q' Hq'. apply Hunique. right. exact Hq'.
  - apply elem_of_cons in Hin as [->|Hin]; [|contradiction].
    rewrite Hfound in Hq. injection Hq as <-.
    pose proof (persist_loop_frame contractFileName solcVersion compilerInput compilerOutput_
                  (basename E q (SOLIDITY_FILE_EXTENSION E)) paths) as Hframe.
    match type of Hrun with
    | ?run = _ =>
        assert (snd run = st') as Hsnd by (rewrite Hrun; reflexivity);
        match run with
        | forOf _ tt paths ?s => specialize (Hframe
            ltac:(intros q' Hq' Heq; apply Hrest;
                  rewrite <- (Hunique q' ltac:(right; exact Hq') Heq); exact Hq') s)
        end
    end.
    rewrite <- Hsnd. etrans; [exact Hframe|]. simpl.
    apply lookup_insert_eq.
Qed.

(** The persist calls of visits of other roots leave alone a file that
    none of those roots can name. *)
Lemma persistVisits_frame (pathToData : gmap string ContractData) (file : string)
    (vs : list Visit) :
  (forall v contractData x,
      v ∈ vs -> pathToData !! visitPath v = Some contractData ->
      file <> Compiler.currentArtifactPath this (contractName contractData) x) ->
  forall st,
    artifactFiles (snd (forOf (persistVisit E this pathToData) tt vs st)) !! file
    = artifactFiles st !! file.
Proof.
  induction vs as [|v vs IH]; intros Hother st; simpl; [reflexivity|].
  unfold_driver.
  assert (artifactFiles (snd (persistVisit E this pathToData tt v st)) !! file
          = artifactFiles st !! file) as Hstep.
  { unfold persistVisit.
    destruct (pathToData !! visitPath v) as [cd|] eqn:Hcd; [|reflexivity].
    apply persist_frame. intros x. eapply Hother; [left|exact Hcd]. }
  destruct (persistVisit E this pathToData tt v st) as [[[]|e] st1]; simpl in Hstep;
    [|exact Hstep].
  rewrite IH by (intros v' cd x Hv'; apply Hother; right; exact Hv'). exact Hstep.
Qed.

End root_artifact.

Lemma winners_subset (vs : list Visit) :
  forall earlier w, w ∈ winnersFrom earlier vs -> w ∈ vs.
Proof.
  intros earlier w Hw. destruct (winners_beat vs earlier w Hw) as (before & after & -> & _).
  apply elem_of_app. right. left.
Qed.

(** C2 (amended): in a persisting run that completes, the writer has made
    exactly the persist calls of the visits of requested paths whose unit
    is strictly smaller than the unit of every earlier visit of the same
    path, in visit order.  So for every requested path that passed the gate
    and occurs in some unit, the last persist call made for it comes from
    the first visit, in writer order, whose unit size is the least among the
    visits of that path: earlier visits of the path have strictly larger
    units, later ones have units at least as large and leave the artifact
    alone.  The cache ends with that least size.  When the output of that
    visit lists the path, has no anonymous source and no other source of
    the same base name, and no other requested contract can name the file,
    the file [<artifactsDir>/<name of the root>-<base name of its path>.json]
    ends holding the artifact built from that output. *)
Theorem smallest_unit_wins (E : Collaborators) (this : DriverFields) (plan : Compiler.Plan)
    (versions : list string) (compilationResults : list (list CompilationResult))
    (st st' : DriverState) (artifactCache : gmap string nat) :
  Compiler.persistAll E this plan versions compilationResults st = (Ok artifactCache, st') ->
  let vs := rootVisits (Compiler.contractPathToData plan)
                       (visits plan versions compilationResults) in
  forOf (persistVisit E this (Compiler.contractPathToData plan)) tt (winners vs) st
  = (Ok tt, st')
  /\ (forall w, w ∈ winners vs ->
        exists before after,
          vs = before ++ w :: after
          /\ forall u, u ∈ before -> visitPath u = visitPath w -> visitSize w < visitSize u)
  /\ (forall contractPath u, u ∈ vs -> visitPath u = contractPath ->
        exists w before after,
          last (ofPath contractPath (winners vs)) = Some w
          /\ visitPath w = contractPath
          /\ vs = before ++ w :: after
          /\ (forall x, x ∈ before -> visitPath x = contractPath -> visitSize w < visitSize x)
          /\ (forall x, x ∈ after -> visitPath x = contractPath -> visitSize w <= visitSize x))
  /\ (forall contractPath, artifactCache !! contractPath = smallestSeen contractPath vs)
  /\ (forall contractPath contractData w byName,
        Compiler.contractPathToData plan !! contractPath = Some contractData ->
        last (ofPath contractPath (winners vs)) = Some w ->
        JsObj.get "" (sources (output (visitResult w))) = None ->
        contractPath ∈ JsObj.keys (sources (output (visitResult w))) ->
        (forall q, q ∈ JsObj.keys (sources (output (visitResult w))) ->
           basename E q (SOLIDITY_FILE_EXTENSION E)
           = basename E contractPath (SOLIDITY_FILE_EXTENSION E) -> q = contractPath) ->
        Compiler.contractsOfPath (output (visitResult w)) contractPath = Some byName ->
        (forall v other x,
           v ∈ vs -> visitPath v <> contractPath ->
           Compiler.contractPathToData plan !! visitPath v = Some other ->
           Compiler.currentArtifactPath this (contractName contractData)
             (basename E contractPath (SOLIDITY_FILE_EXTENSION E))
           <> Compiler.currentArtifactPath this (contractName other) x) ->
        artifactFiles st'
          !! Compiler.currentArtifactPath this (contractName contractData)
               (basename E contractPath (SOLIDITY_FILE_EXTENSION E))
        = Some (Compiler.newArtifact E
                  (basename E contractPath (SOLIDITY_FILE_EXTENSION E)) (visitVersion w)
                  (JsObj.get (basename E contractPath (SOLIDITY_FILE_EXTENSION E)) byName)
                  (input (visitResult w)) (output (visitResult w)))).
Proof.
  intros Hrun vs. rewrite persistAll_visits in Hrun.
  destruct (writer_refines E this (Compiler.contractPathToData plan)
              (visits plan versions compilationResults) [] ∅ artifactCache st st')
    as [Hcalls Hcache]; [intros p; apply lookup_empty|exact Hrun|].
  split; [exact Hcalls|]. split; [|split; [|split; [exact Hcache|]]].
  - intros w Hw. destruct (winners_beat vs [] w Hw) as (before & after & Hvs & Hb).
    exists before, after. split; [exact Hvs|]. apply beats_spec. exact Hb.
  - intros p u Hu Hp. unfold winners.
    destruct (last (ofPath p (winnersFrom [] vs))) as [w|] eqn:Hlast.
    + destruct (last_winner p vs [] w Hlast) as (Hpw & before & after & Hvs & Hb & Hafter).
      exists w, before, after. split; [reflexivity|]. split; [exact Hpw|].
      split; [exact Hvs|]. split; [|exact Hafter].
      intros x Hx Hpx. apply (proj1 (beats_spec _ _) Hb x Hx). congruence.
    + apply last_None in Hlast.
      destruct (no_winner p vs [] Hlast u Hu Hp) as (x & Hx & _). inversion Hx.
  - intros p cd w byName Hroot Hlast Hmodern Hlisted Hunique Hfound Hothers.
    unfold vs, winners in *. unfold ofPath in Hlast.
    apply last_filter_split in Hlast as (won & later & Hwinners & Hpw & Hlater).
    rewrite Hwinners, forOf_app in Hcalls.
    destruct (forOf (persistVisit E this (Compiler.contractPathToData plan)) tt won st)
      as [[[]|e] st1]; [|discriminate].
    simpl in Hcalls. unfold_driver.
    destruct (persistVisit E this (Compiler.contractPathToData plan) tt w st1)
      as [[[]|e] st2] eqn:Hpersist; [|discriminate].
    pose proof (persistVisits_frame E this (Compiler.contractPathToData plan)
                  (Compiler.currentArtifactPath this (contractName cd)
                     (basename E p (SOLIDITY_FILE_EXTENSION E))) later) as Hframe.
    specialize (Hframe
      ltac:(intros v other x Hv Hother; apply (Hothers v other x);
            [eapply (winners_subset _ []); rewrite Hwinners;
             apply elem_of_app; right; right; exact Hv
            |exact (proj1 (Forall_forall _ _) Hlater v Hv)
            |exact Hother]) st2).
    rewrite Hcalls in Hframe. simpl in Hframe. rewrite Hframe.
    unfold persistVisit in Hpersist. rewrite Hpw, Hroot in Hpersist.
    unfold Compiler._persistCompiledContractAsync in Hpersist. rewrite Hmodern in Hpersist.
    eapply persist_loop_content; [exact Hfound|exact Hunique|exact Hlisted|exact Hpersist].
Qed.

Lemma smallest_unit_wins_witness :
  exists artifactCache st',
    Demo.writtenIndependently = (Ok artifactCache, st')
    /\ map visitSize
         (ofPath "/p/contracts/L.sol"
            (rootVisits (Compiler.contractPathToData Demo.independentPlan)
               (visits Demo.independentPlan
                  (JsObj.keys (Compiler.compilationUnitsByVersion Demo.independentPlan))
                  Demo.independentResults)))
       = [2; 2; 1]
    /\ map visitSize
         (ofPath "/p/contracts/L.sol"
            (winners
               (rootVisits (Compiler.contractPathToData Demo.independentPlan)
                  (visits Demo.independentPlan
                     (JsObj.keys (Compiler.compilationUnitsByVersion Demo.independentPlan))
                     Demo.independentResults))))
       = [2; 1]
    /\ artifactCache !! "/p/contracts/L.sol" = Some 1
    /\ artifactFiles st' !! "artifacts/L-L.json"
       = Some (Compiler.newArtifact (Demo.env Demo.standardBackend) "L"
                 "0.6.12+commit.27d51765" (Some "bytecode:pragma solidity ^0.6.0; contract L {}")
                 {| settings := "{}" |}
                 (output (Demo.standardResult [("/p/contracts/L.sol", source Demo.srcL)]))).
Proof.
  destruct Demo.writtenIndependently as [[artifactCache|e] st'] eqn:Hrun.
  - exists artifactCache, st'. split; [reflexivity|]. split; [vm_compute; reflexivity|].
    split; [vm_compute; reflexivity|].
    destruct (smallest_unit_wins (Demo.env Demo.standardBackend)
                (Demo.driver ["A"; "B"; "L"] true) Demo.independentPlan
                (JsObj.keys (Compiler.compilationUnitsByVersion Demo.independentPlan))
                Demo.independentResults (snd Demo.dispatchedIndependently) st'
                artifactCache Hrun) as (_ & _ & _ & Hcache & Hfile).
    split; [rewrite Hcache; vm_compute; reflexivity|].
    apply (Hfile "/p/contracts/L.sol"
             {| currentArtifactIfExists := None; sourceTreeHashHex := "0xc3";
                contractName := "L" |}
             {| visitPath := "/p/contracts/L.sol"; visitSize := 1;
                visitVersion := "0.6.12+commit.27d51765";
                visitResult :=
                  Demo.standardResult [("/p/contracts/L.sol", source Demo.srcL)] |}
             [("L", "bytecode:pragma solidity ^0.6.0; contract L {}")]).
    + vm_compute. reflexivity.
    + vm_compute. reflexivity.
    + reflexivity.
    + vm_compute. left.
    + intros q Hq _. vm_compute in Hq. apply list_elem_of_singleton in Hq. exact Hq.
    + reflexivity.
    + intros v other x Hv Hne Hother. vm_compute in Hv.
      repeat (apply elem_of_cons in Hv as [->|Hv]);
        try (exfalso; apply Hne; reflexivity);
        try (vm_compute in Hother; injection Hother as <-; simpl; discriminate).
      inversion Hv.
  - vm_compute in Hrun. discriminate Hrun.
Defined.

(** C2 as stated fails: L is requested with A and B, each on its own, so
    the path of L is visited in units of sizes 2, 2 and 1.  The artifact of
    contract L that the call for root A wrote, [A-L.json], comes from a unit
    of size 2 and stays; so does [L-A.json], written for root L from the
    unit of A before the smaller unit of L was reached.  Only [L-L.json]
    comes from the unit of size 1. *)
Lemma larger_unit_artifact_stays :
  exists artifactCache st',
    Demo.writtenIndependently = (Ok artifactCache, st')
    /\ map visitSize
         (ofPath "/p/contracts/L.sol"
            (visits Demo.independentPlan
               (JsObj.keys (Compiler.compilationUnitsByVersion Demo.independentPlan))
               Demo.independentResults))
       = [2; 2; 1]
    /\ (exists artifact,
          artifactFiles st' !! "artifacts/A-L.json" = Some artifact
          /\ artifactContractName artifact = "L"
          /\ artifactSources artifact
             = Some [("/p/contracts/A.sol", "{}"); ("/p/contracts/L.sol", "{}")])
    /\ (exists stale,
          artifactFiles st' !! "artifacts/L-A.json" = Some stale
          /\ artifactSources stale
             = Some [("/p/contracts/A.sol", "{}"); ("/p/contracts/L.sol", "{}")])
    /\ (exists artifact,
          artifactFiles st' !! "artifacts/L-L.json" = Some artifact
          /\ artifactSources artifact = Some [("/p/contracts/L.sol", "{}")]).
Proof.
  destruct Demo.writtenIndependently as [[artifactCache|e] st'] eqn:Hrun.
  - exists artifactCache, st'. split; [reflexivity|].
    vm_compute in Hrun. injection Hrun as _ <-.
    split; [vm_compute; reflexivity|].
    split; [eexists; split; [vm_compute; reflexivity|split; reflexivity]|].
    split; eexists; (split; [vm_compute; reflexivity|reflexivity]).
  - vm_compute in Hrun. discriminate Hrun.
Qed.

(** ** A run under a pin *)

Section recorded_version.
Context (E : Collaborators) (this : DriverFields).

(** Every artifact that a persist call writes records the version it was
    called with. *)
Lemma persist_version (contractFileName solcVersion : string) (compilerInput : StandardInput)
    (compilerOutput_ : StandardOutput) (st : DriverState) :
  forall file artifact,
    artifactFiles (snd (Compiler._persistCompiledContractAsync E this contractFileName
                          solcVersion compilerInput compilerOutput_ st)) !! file
    = Some artifact ->
    artifactFiles st !! file = Some artifact \/ version (compiler artifact) = solcVersion.
Proof.
  unfold Compiler._persistCompiledContractAsync.
  destruct (JsObj.get "" (sources compilerOutput_)).
  - destruct (JsObj.get "" (contracts compilerOutput_)); simpl; [|auto].
    intros file artifact Hfile.
    apply lookup_insert_Some in Hfile as [[_ <-]|[_ Hfile]]; [right; reflexivity|auto].
  - apply (forOf_state_inv
             (fun st' => forall file artifact,
                artifactFiles st' !! file = Some artifact ->
                artifactFiles st !! file = Some artifact
                \/ version (compiler artifact) = solcVersion)); [|auto].
    intros [] contractPath st0 Hinv.
    destruct (Compiler.contractsOfPath compilerOutput_ contractPath); simpl; [|exact Hinv].
    intros file artifact Hfile.
    apply lookup_insert_Some in Hfile as [[_ <-]|[_ Hfile]]; [right; reflexivity|auto].
Qed.

Lemma visits_versions (plan : Compiler.Plan) (versions : list string)
    (compilationResults : list (list CompilationResult)) (v : Visit) :
  v ∈ visits plan versions compilationResults -> visitVersion v ∈ versions.
Proof.
  unfold visits. intros Hv.
  apply list_elem_of_In, in_concat in Hv as (vsv & Hvsv & Hv).
  apply in_map_iff in Hvsv as ([ver rs] & <- & Hzip).
  unfold visitsOfVersion in Hv. simpl in Hv.
  apply in_concat in Hv as (vsu & Hvsu & Hv).
  apply in_map_iff in Hvsu as ([u r] & <- & _).
  unfold visitsOfUnit in Hv. apply in_map_iff in Hv as (p & <- & _). simpl.
  apply list_elem_of_In in Hzip. eapply elem_of_zip_l. exact Hzip.
Qed.

Lemma writeVisits_version (pathToData : gmap string ContractData) (pin : string)
    (vs : list Visit) :
  (forall v, v ∈ vs -> visitVersion v = pin) ->
  forall (artifactCache : gmap string nat) (st : DriverState) file artifact,
    artifactFiles (snd (forOf (writeVisit E this pathToData) artifactCache vs st)) !! file
    = Some artifact ->
    artifactFiles st !! file = Some artifact \/ version (compiler artifact) = pin.
Proof.
  induction vs as [|v vs IH]; intros Hpin cache st file artifact; simpl; [auto|].
  unfold_driver.
  assert (forall file artifact,
            artifactFiles (snd (writeVisit E this pathToData cache v st)) !! file
            = Some artifact ->
            artifactFiles st !! file = Some artifact \/ version (compiler artifact) = pin)
    as Hstep.
  { unfold writeVisit, Compiler.writeContract.
    destruct (pathToData !! visitPath v) as [cd|]; [|auto].
    destruct (Compiler.contractsOfPath (output (visitResult v)) (visitPath v)); [|auto].
    destruct (JsObj.get (contractName cd) _); [|auto].
    match goal with |- context [if ?b then _ else _] => destruct b end; [auto|].
    unfold_driver. intros f a Hf.
    rewrite <- (Hpin v ltac:(left)).
    apply (persist_version (contractName cd) (visitVersion v) (input (visitResult v))
             (output (visitResult v)) st f a).
    destruct (Compiler._persistCompiledContractAsync E this (contractName cd)
                (visitVersion v) (input (visitResult v)) (output (visitResult v)) st)
      as [[[]|e] st1]; exact Hf. }
  destruct (writeVisit E this pathToData cache v st) as [[cache1|e] st1]; simpl in *;
    [|apply Hstep].
  intros Hfile.
  destruct (IH ltac:(intros v' Hv'; apply Hpin; right; exact Hv') cache1 st1 file artifact
              Hfile) as [Hkept|Hversion]; [apply Hstep; exact Hkept|right; exact Hversion].
Qed.

(** Every artifact that a run under a pin writes records the pin as it
    was given. *)
Lemma run_versions (contractNames : list string) (opts : CompileContractsOpts)
    (st : DriverState) (pin : string) :
  truthy (_solcVersionIfExists this) = Some pin ->
  forall file artifact,
    artifactFiles (snd (Compiler._compileContractsAsync E this contractNames opts st)) !! file
    = Some artifact ->
    artifactFiles st !! file = Some artifact \/ version (compiler artifact) = pin.
Proof.
  intros Hpin file artifact. unfold Compiler._compileContractsAsync. unfold_driver.
  pose proof (planContracts_state E this (shouldCompileIndependently opts) contractNames
                Compiler.emptyPlan st) as Hplan. cbv zeta in Hplan.
  unfold Compiler.planContracts.
  destruct (forOf (Compiler.planContract E this (shouldCompileIndependently opts))
              Compiler.emptyPlan contractNames st) as [[plan|e] st1] eqn:Hrun;
    simpl in Hplan; destruct Hplan as (Hf1 & _).
  2:{ simpl. rewrite Hf1. auto. }
  pose proof (planContracts_pinned_keys E this pin (shouldCompileIndependently opts)
                contractNames Compiler.emptyPlan plan st st1 Hpin
                ltac:(simpl; intros v Hv; inversion Hv) Hrun) as Hkeys.
  unfold Compiler.dispatch.
  pose proof (dispatchVersions_shape E plan
                (getDependencyNameToPackagePath E (Compiler.allResolvedContractSources plan))
                (JsObj.keys (Compiler.compilationUnitsByVersion plan)) st1) as Hd.
  cbv zeta in Hd.
  destruct (Compiler.dispatchVersions E plan
              (getDependencyNameToPackagePath E (Compiler.allResolvedContractSources plan))
              (JsObj.keys (Compiler.compilationUnitsByVersion plan)) st1) as [rs st2].
  simpl in Hd. destruct Hd as (Hf2 & _).
  destruct (promiseAll rs) as [results|e]; simpl.
  2:{ rewrite Hf2, Hf1. auto. }
  destruct (shouldPersist opts); simpl.
  2:{ rewrite Hf2, Hf1. auto. }
  unfold_driver.
  pose proof (writeVisits_version (Compiler.contractPathToData plan) pin
                (visits plan (JsObj.keys (Compiler.compilationUnitsByVersion plan)) results)
                ltac:(intros v Hv; apply Hkeys; eapply visits_versions; exact Hv)
                ∅ st2 file artifact) as Hw.
  rewrite <- persistAll_visits in Hw. rewrite Hf2, Hf1 in Hw.
  destruct (Compiler.persistAll E this plan
              (JsObj.keys (Compiler.compilationUnitsByVersion plan)) results st2)
    as [[cache|e] st3]; simpl in *; exact Hw.
Qed.

End recorded_version.

(** C4 (amended): the pin of a driver is the version that [SOLCJS_PATH]
    encodes when that variable is set and the [solcVersion] option
    otherwise.  When the pin is set, the version chosen for a contract is
    the pin as it was given, whatever the pragma of its source says; every
    version of a completed plan is the pin as given, and so is the version
    recorded in every artifact that a run writes.  Normalization is applied
    where the wrapper is fetched: the wrapper fetched for the pin is the one
    of the pin normalized, and every back-end call of a run goes to such a
    wrapper. *)
Theorem pinned_version_dominates (E : Collaborators) (SOLCJS_PATH : option string)
    (opts : CompilerOptions.t) (pin : string) :
  truthy (_solcVersionIfExists (Compiler.new E SOLCJS_PATH opts)) = Some pin ->
  (_solcVersionIfExists (Compiler.new E SOLCJS_PATH opts) =
   match SOLCJS_PATH with
   | Some p => Some (getSolcJSVersionFromPath E p)
   | None => CompilerOptions.solcVersion opts
   end)
  /\ (forall contractSource_,
        Compiler.chooseSolcVersion E (Compiler.new E SOLCJS_PATH opts) contractSource_ = Ok pin)
  /\ (forall independently contractNames st plan st',
        Compiler.planContracts E (Compiler.new E SOLCJS_PATH opts) independently
          contractNames st = (Ok plan, st') ->
        forall v, v ∈ JsObj.keys (Compiler.compilationUnitsByVersion plan) -> v = pin)
  /\ (forall st solc st',
        registryOk st ->
        _getSolcWrapperForVersion E pin st = (Ok solc, st') ->
        wrapperVersion solc = normalizeSolcVersion E pin)
  /\ (forall contractNames (runOpts : CompileContractsOpts) st,
        registryOk st ->
        exists calls,
          compileCalls (snd (Compiler._compileContractsAsync E
                               (Compiler.new E SOLCJS_PATH opts) contractNames runOpts st))
          = compileCalls st ++ calls
          /\ forall c, c ∈ calls ->
                       wrapperVersion (callWrapper c) = normalizeSolcVersion E pin)
  /\ (forall contractNames (runOpts : CompileContractsOpts) st file artifact,
        artifactFiles (snd (Compiler._compileContractsAsync E
                              (Compiler.new E SOLCJS_PATH opts) contractNames runOpts st))
        !! file = Some artifact ->
        artifactFiles st !! file = Some artifact \/ version (compiler artifact) = pin).
Proof.
  intros Hpin. split; [reflexivity|]. split; [|split; [|split; [|split]]].
  - intros src. apply chooseSolcVersion_pinned. exact Hpin.
  - intros independently names st plan st' Hrun.
    eapply planContracts_pinned_keys; [exact Hpin| |exact Hrun].
    simpl. intros v Hv. inversion Hv.
  - intros st solc st' Hok Hget. eapply getSolcWrapper_version; eassumption.
  - intros names copts st Hok. apply run_calls; assumption.
  - intros names copts st file artifact. apply run_versions. exact Hpin.
Qed.

Lemma pinned_version_dominates_witness :
  truthy (_solcVersionIfExists
            (Compiler.new (Demo.env Demo.standardBackend) (Some "/opt/soljson-v0.5.17.js")
               Demo.bothPins))
  = Some "0.5.17+commit.d19bba13.Emscripten.clang"
  /\ parseSolidityVersionRange (Demo.env Demo.standardBackend) (source Demo.srcA) = "^0.6.0"
  /\ Compiler.chooseSolcVersion (Demo.env Demo.standardBackend)
       (Compiler.new (Demo.env Demo.standardBackend) (Some "/opt/soljson-v0.5.17.js")
          Demo.bothPins) Demo.srcA
     = Ok "0.5.17+commit.d19bba13.Emscripten.clang"
  /\ map (fun c => wrapperVersion (callWrapper c))
         (compileCalls
            (snd (Compiler.compileAsync (Demo.env Demo.standardBackend)
                    (Compiler.new (Demo.env Demo.standardBackend)
                       (Some "/opt/soljson-v0.5.17.js") Demo.bothPins) Demo.initial)))
     = ["0.5.17+commit.d19bba13.Emscripten.clang"]
  /\ (exists calls,
       compileCalls
         (snd (Compiler._compileContractsAsync (Demo.env Demo.standardBackend)
                 (Compiler.new (Demo.env Demo.standardBackend)
                    (Some "/opt/soljson-v0.5.17.js") Demo.bothPins)
                 ["A"] Demo.persisting Demo.initial))
       = compileCalls Demo.initial ++ calls
       /\ forall c, c ∈ calls ->
             wrapperVersion (callWrapper c) = "0.5.17+commit.d19bba13.Emscripten.clang")
  /\ truthy (_solcVersionIfExists
               (Compiler.new (Demo.env Demo.standardBackend) None Demo.prefixedPin))
     = Some "v0.5.17+commit.d19bba13"
  /\ Compiler.chooseSolcVersion (Demo.env Demo.standardBackend)
       (Compiler.new (Demo.env Demo.standardBackend) None Demo.prefixedPin) Demo.srcA
     = Ok "v0.5.17+commit.d19bba13"
  /\ (exists calls,
       compileCalls
         (snd (Compiler._compileContractsAsync (Demo.env Demo.standardBackend)
                 (Compiler.new (Demo.env Demo.standardBackend) None Demo.prefixedPin)
                 ["A"] Demo.persisting Demo.initial))
       = compileCalls Demo.initial ++ calls
       /\ forall c, c ∈ calls -> wrapperVersion (callWrapper c) = "0.5.17+commit.d19bba13")
  /\ forall file artifact,
       artifactFiles
         (snd (Compiler._compileContractsAsync (Demo.env Demo.standardBackend)
                 (Compiler.new (Demo.env Demo.standardBackend) None Demo.prefixedPin)
                 ["A"] Demo.persisting Demo.initial))
       !! file = Some artifact ->
       version (compiler artifact) = "v0.5.17+commit.d19bba13".
Proof.
  split; [reflexivity|]. split; [reflexivity|].
  destruct (pinned_version_dominates (Demo.env Demo.standardBackend)
              (Some "/opt/soljson-v0.5.17.js") Demo.bothPins
              "0.5.17+commit.d19bba13.Emscripten.clang" eq_refl)
    as (_ & Hchoose & _ & _ & Hcalls & _).
  split; [apply Hchoose|]. split; [reflexivity|].
  split; [apply (Hcalls ["A"] Demo.persisting Demo.initial), registryOk_empty; reflexivity|].
  split; [reflexivity|].
  destruct (pinned_version_dominates (Demo.env Demo.standardBackend) None Demo.prefixedPin
              "v0.5.17+commit.d19bba13" eq_refl)
    as (_ & Hchoose' & _ & _ & Hcalls' & Hfiles).
  split; [apply Hchoose'|].
  split; [apply (Hcalls' ["A"] Demo.persisting Demo.initial), registryOk_empty; reflexivity|].
  intros file artifact Hfile.
  destruct (Hfiles ["A"] Demo.persisting Demo.initial file artifact Hfile) as [Hold|Hnew];
    [|exact Hnew].
  simpl in Hold. rewrite lookup_empty in Hold. discriminate Hold.
Defined.

(** C4 as stated fails: under the pin [v0.5.17+commit.d19bba13] of the
    [solcVersion] option the
    version chosen for A, the key of the plan and the version recorded in
    the artifact of A all keep the leading [v]; only the wrapper that the
    call goes to was constructed with the version normalized. *)
Lemma pinned_version_keeps_its_prefix :
  truthy (_solcVersionIfExists
            (Compiler.new (Demo.env Demo.standardBackend) None Demo.prefixedPin))
  = Some "v0.5.17+commit.d19bba13"
  /\ normalizeSolcVersion (Demo.env Demo.standardBackend) "v0.5.17+commit.d19bba13"
     = "0.5.17+commit.d19bba13"
  /\ Compiler.chooseSolcVersion (Demo.env Demo.standardBackend)
       (Compiler.new (Demo.env Demo.standardBackend) None Demo.prefixedPin) Demo.srcA
     = Ok "v0.5.17+commit.d19bba13"
  /\ Compiler.chooseSolcVersion (Demo.env Demo.standardBackend)
       (Compiler.new (Demo.env Demo.standardBackend) None Demo.prefixedPin) Demo.srcA
     <> Ok (normalizeSolcVersion (Demo.env Demo.standardBackend) "v0.5.17+commit.d19bba13")
  /\ match fst (Compiler.planContracts (Demo.env Demo.standardBackend)
                  (Compiler.new (Demo.env Demo.standardBackend) None Demo.prefixedPin)
                  false ["A"] Demo.initial) with
     | Ok plan => JsObj.keys (Compiler.compilationUnitsByVersion plan)
     | Throw _ => []
     end = ["v0.5.17+commit.d19bba13"]
  /\ option_map (fun artifact => version (compiler artifact))
       (artifactFiles
          (snd (Compiler._compileContractsAsync (Demo.env Demo.standardBackend)
                  (Compiler.new (Demo.env Demo.standardBackend) None Demo.prefixedPin)
                  ["A"] Demo.persisting Demo.initial))
        !! "artifacts/A-A.json")
     = Some "v0.5.17+commit.d19bba13"
  /\ map (fun c => wrapperVersion (callWrapper c))
       (compileCalls
          (snd (Compiler._compileContractsAsync (Demo.env Demo.standardBackend)
                  (Compiler.new (Demo.env Demo.standardBackend) None Demo.prefixedPin)
                  ["A"] Demo.persisting Demo.initial)))
     = ["0.5.17+commit.d19bba13"].
Proof.
  split; [reflexivity|]. split; [reflexivity|]. split; [reflexivity|].
  split; [intros H; vm_compute in H; discriminate H|].
  split; [vm_compute; reflexivity|]. split; vm_compute; reflexivity.
Qed.

(** ** Outputs, and the writes of the JSON driver *)

(** X6: [getCompilerOutputsAsync] never changes an artifact file,
    whatever its outcome; when it returns, planning in batched mode
    completed and the result holds one output per version of the plan, none
    of them undefined. *)
Theorem outputs_without_writing (E : Collaborators) (this : DriverFields)
    (st : DriverState) :
  artifactFiles (snd (Compiler.getCompilerOutputsAsync E this st)) = artifactFiles st
  /\ forall outputs,
       fst (Compiler.getCompilerOutputsAsync E this st) = Ok outputs ->
       exists plan st1,
         Compiler.planContracts E this false (Compiler.getContractNamesToCompile E this) st
         = (Ok plan, st1)
         /\ length outputs = length (JsObj.keys (Compiler.compilationUnitsByVersion plan))
         /\ forall o, o ∈ outputs -> is_Some o.
Proof.
  unfold Compiler.getCompilerOutputsAsync. unfold_driver. rewrite run_phases. simpl.
  pose proof (planContracts_state E this false (Compiler.getContractNamesToCompile E this)
                Compiler.emptyPlan st) as Hst. cbv zeta in Hst.
  fold (Compiler.planContracts E this false (Compiler.getContractNamesToCompile E this)) in Hst.
  destruct (Compiler.planContracts E this false (Compiler.getContractNamesToCompile E this) st)
    as [[plan|e] st1] eqn:Hplan; simpl in Hst; destruct Hst as (Hf1 & _).
  2:{ simpl. split; [exact Hf1|discriminate]. }
  unfold Compiler.dispatch.
  pose proof (dispatchVersions_shape E plan
                (getDependencyNameToPackagePath E (Compiler.allResolvedContractSources plan))
                (JsObj.keys (Compiler.compilationUnitsByVersion plan)) st1) as Hd.
  cbv zeta in Hd.
  destruct (Compiler.dispatchVersions E plan
              (getDependencyNameToPackagePath E (Compiler.allResolvedContractSources plan))
              (JsObj.keys (Compiler.compilationUnitsByVersion plan)) st1) as [rs st2].
  simpl in Hd. destruct Hd as (Hf2 & _ & Hd).
  destruct (promiseAll rs) as [results|e] eqn:Hall; simpl.
  2:{ split; [congruence|discriminate]. }
  split; [congruence|].
  intros outputs [= <-]. exists plan, st1. split; [reflexivity|].
  destruct (Hd results eq_refl) as (Hshape & _).
  split.
  - rewrite !length_map. symmetry. eapply Forall2_length. exact Hshape.
  - assert (singleUnits (Compiler.compilationUnitsByVersion plan)) as Hsingle.
    { unfold Compiler.planContracts in Hplan.
      eapply (batched_loop E this); [|exact Hplan]. intros v us. discriminate. }
    intros o Ho. apply list_elem_of_fmap in Ho as (outs & -> & Ho).
    apply list_elem_of_fmap in Ho as (res & -> & Hres).
    apply list_elem_of_lookup in Hres as [i Hi].
    destruct (Forall2_lookup_r _ _ _ _ _ Hshape Hi) as (v & Hv & Hlen).
    assert (v ∈ JsObj.keys (Compiler.compilationUnitsByVersion plan)) as Hin
      by (eapply list_elem_of_lookup_2; exact Hv).
    apply JsObj_elem_of_keys in Hin as [us Hus]. rewrite Hus in Hlen. simpl in Hlen.
    destruct (Hsingle v us Hus) as [u ->]. simpl in Hlen.
    destruct res as [|r res]; [discriminate|]. simpl. eauto.
Qed.

Lemma outputs_without_writing_witness :
  artifactFiles (snd (Compiler.getCompilerOutputsAsync (Demo.env Demo.standardBackend)
                        (Demo.driver ["A"; "B"] false) Demo.initial)) = ∅
  /\ exists outputs,
       fst (Compiler.getCompilerOutputsAsync (Demo.env Demo.standardBackend)
              (Demo.driver ["A"; "B"] false) Demo.initial) = Ok outputs
       /\ length outputs = 1
       /\ forall o, o ∈ outputs -> is_Some o.
Proof.
  destruct (outputs_without_writing (Demo.env Demo.standardBackend)
              (Demo.driver ["A"; "B"] false) Demo.initial) as [Hfiles Houtputs].
  split; [exact Hfiles|].
  destruct (fst (Compiler.getCompilerOutputsAsync (Demo.env Demo.standardBackend)
                   (Demo.driver ["A"; "B"] false) Demo.initial)) as [outputs|e] eqn:Hrun;
    [|vm_compute in Hrun; discriminate Hrun].
  destruct (Houtputs outputs eq_refl) as (plan & st1 & Hplan & Hlen & Hsome).
  exists outputs. split; [reflexivity|]. split; [|exact Hsome].
  rewrite Hlen. vm_compute in Hplan. injection Hplan as <- _. reflexivity.
Defined.


Section json.
Context (E : Collaborators) (this : DriverFields).

Lemma json_persist_loop (contractFileName solcVersion : string) (compilerInput : StandardInput)
    (compilerOutput_ : StandardOutput) (paths : list string) :
  (forall p, p ∈ paths -> is_Some (JsObj.get p (contracts compilerOutput_))) ->
  forall st, exists st',
    forOf (fun (_ : unit) contractPath =>
             let contractName_ := basename E contractPath (SOLIDITY_FILE_EXTENSION E) in
             match JsObj.get contractPath (contracts compilerOutput_) with
             | None => throw TypeError
             | Some byName =>
                 writeFileAsync
                   (_artifactsDir this +:+ "/" +:+ (contractFileName +:+ "-" +:+ contractName_)
                    +:+ ".json")
                   (JSONCompiler.newArtifact E contractName_ solcVersion
                      (JsObj.get contractName_ byName) compilerInput)
             end) tt paths st
    = (Ok tt, st')
    /\ solcWrappersByVersion st' = solcWrappersByVersion st
    /\ allocated st' = allocated st
    /\ compileCalls st' = compileCalls st
    /\ dom (artifactFiles st')
       = dom (artifactFiles st)
         ∪ list_to_set (map (fun contractPath =>
                               _artifactsDir this +:+ "/"
                               +:+ (contractFileName +:+ "-"
                                    +:+ basename E contractPath (SOLIDITY_FILE_EXTENSION E))
                               +:+ ".json")
                            paths).
Proof.
  induction paths as [|p paths IH]; intros Hall st; simpl.
  - exists st. split; [reflexivity|]. rewrite (right_id_L ∅ (∪)). auto.
  - unfold_driver.
    destruct (Hall p ltac:(left)) as [byName Hfound]. rewrite Hfound.
    unfold writeFileAsync at 1.
    edestruct IH as (st' & Hrun & Hw & Ha & Hc & Hdom);
      [intros q Hq; apply Hall; right; exact Hq|].
    exists st'. split; [exact Hrun|].
    rewrite Hw, Ha, Hc, Hdom. simpl. rewrite dom_insert_L.
    rewrite (comm_L (∪) {[_]} (dom (artifactFiles st))), <- (assoc_L (∪)). auto.
Qed.

End json.

Section json_files.
Context (E : Collaborators) (this : DriverFields).

(** What the loop of the JSON persist routine leaves in the artifacts
    directory when it completes. *)
Lemma json_persist_loop_files (contractFileName solcVersion : string)
    (compilerInput : StandardInput) (compilerOutput_ : StandardOutput) (paths : list string) :
  forall st st',
    forOf (fun (_ : unit) contractPath =>
             let contractName_ := basename E contractPath (SOLIDITY_FILE_EXTENSION E) in
             match JsObj.get contractPath (contracts compilerOutput_) with
             | None => throw TypeError
             | Some byName =>
                 writeFileAsync
                   (_artifactsDir this +:+ "/" +:+ (contractFileName +:+ "-" +:+ contractName_)
                    +:+ ".json")
                   (JSONCompiler.newArtifact E contractName_ solcVersion
                      (JsObj.get contractName_ byName) compilerInput)
             end) tt paths st
    = (Ok tt, st') ->
    (forall file,
        (forall q, q ∈ paths ->
           file <> Compiler.currentArtifactPath this contractFileName
                     (basename E q (SOLIDITY_FILE_EXTENSION E))) ->
        artifactFiles st' !! file = artifactFiles st !! file)
    /\ (forall p byName,
          p ∈ paths ->
          JsObj.get p (contracts compilerOutput_) = Some byName ->
          (forall q, q ∈ paths ->
             basename E q (SOLIDITY_FILE_EXTENSION E) = basename E p (SOLIDITY_FILE_EXTENSION E) ->
             q = p) ->
          artifactFiles st' !! Compiler.currentArtifactPath this contractFileName
                                 (basename E p (SOLIDITY_FILE_EXTENSION E))
          = Some (JSONCompiler.newArtifact E (basename E p (SOLIDITY_FILE_EXTENSION E))
                    solcVersion
                    (JsObj.get (basename E p (SOLIDITY_FILE_EXTENSION E)) byName)
                    compilerInput)).
Proof.
  induction paths as [|p0 paths IH]; intros st st'; simpl.
  - intros [= <-]. split; [reflexivity|]. intros p byName Hp. inversion Hp.
  - unfold_driver.
    destruct (JsObj.get p0 (contracts compilerOutput_)) as [byName0|] eqn:Hget0;
      [|discriminate].
    unfold writeFileAsync at 1. intros Hrun.
    destruct (IH _ _ Hrun) as [Hframe Hcontent]. split.
    + intros file Hfile. rewrite Hframe by (intros q Hq; apply Hfile; right; exact Hq).
      simpl. apply lookup_insert_ne. intros Heq. apply (Hfile p0 ltac:(left)).
      symmetry. exact Heq.
    + intros p byName Hp Hget Huniq.
      destruct (decide (p ∈ paths)) as [Hin|Hout].
      * apply Hcontent; [exact Hin|exact Hget|].
        intros q Hq. apply Huniq. right. exact Hq.
      * apply elem_of_cons in Hp as [->|Hp]; [|contradiction].
        rewrite Hframe.
        -- simpl. rewrite Hget0 in Hget. injection Hget as <-. apply lookup_insert_eq.
        -- intros q Hq Heq. apply currentArtifactPath_inj in Heq.
           apply Hout. rewrite <- (Huniq q ltac:(right; exact Hq) (eq_sym Heq)). exact Hq.
Qed.

End json_files.

(** X7: when the persist routine of the JSON driver completes, it has
    added one file per key of [output.contracts],
    [<artifactsDir>/<bundle>-<base name of the key>.json], and touched
    neither the wrappers nor the call history; every other file is as it
    was; and the file of a key that shares its base name with no other key
    holds the artifact built from the record that the key's entry has under
    that base name, with the version and the settings of the call. *)
Theorem json_persist_writes_one_file_per_key (E : Collaborators) (this : DriverFields)
    (contractFileName solcVersion : string) (compilerInput : StandardInput)
    (compilerOutput_ : StandardOutput) (st st' : DriverState) :
  JSONCompiler._persistCompiledContractAsync E this contractFileName solcVersion
    compilerInput compilerOutput_ st = (Ok tt, st') ->
  solcWrappersByVersion st' = solcWrappersByVersion st
  /\ allocated st' = allocated st
  /\ compileCalls st' = compileCalls st
  /\ dom (artifactFiles st')
     = dom (artifactFiles st)
       ∪ list_to_set (map (fun contractPath =>
                             _artifactsDir this +:+ "/"
                             +:+ (contractFileName +:+ "-"
                                  +:+ basename E contractPath (SOLIDITY_FILE_EXTENSION E))
                             +:+ ".json")
                          (JsObj.keys (contracts compilerOutput_)))
  /\ (forall file,
        (forall contractPath,
           contractPath ∈ JsObj.keys (contracts compilerOutput_) ->
           file <> _artifactsDir this +:+ "/"
                   +:+ (contractFileName +:+ "-"
                        +:+ basename E contractPath (SOLIDITY_FILE_EXTENSION E))
                   +:+ ".json") ->
        artifactFiles st' !! file = artifactFiles st !! file)
  /\ (forall contractPath byName,
        JsObj.get contractPath (contracts compilerOutput_) = Some byName ->
        (forall other,
           other ∈ JsObj.keys (contracts compilerOutput_) ->
           basename E other (SOLIDITY_FILE_EXTENSION E)
           = basename E contractPath (SOLIDITY_FILE_EXTENSION E) ->
           other = contractPath) ->
        artifactFiles st'
        !! (_artifactsDir this +:+ "/"
            +:+ (contractFileName +:+ "-"
                 +:+ basename E contractPath (SOLIDITY_FILE_EXTENSION E))
            +:+ ".json")
        = Some {| schemaVersion := LATEST_ARTIFACT_VERSION E;
                  artifactContractName := basename E contractPath (SOLIDITY_FILE_EXTENSION E);
                  compilerOutput :=
                    JsObj.get (basename E contractPath (SOLIDITY_FILE_EXTENSION E)) byName;
                  artifactSources := None;
                  compiler := {| name := "solc"; version := solcVersion;
                                 compilerSettings := settings compilerInput |};
                  artifactSourceTreeHashHex := None |}).
Proof.
  intros Hrun.
  destruct (json_persist_loop E this contractFileName solcVersion compilerInput
              compilerOutput_ (JsObj.keys (contracts compilerOutput_))
              ltac:(intros p Hp; apply JsObj_elem_of_keys; exact Hp) st)
    as (st2 & Hrun2 & Hw & Ha & Hc & Hdom).
  unfold JSONCompiler._persistCompiledContractAsync in Hrun.
  pose proof (eq_trans (eq_sym Hrun2) Hrun) as Heq. injection Heq as ->.
  destruct (json_persist_loop_files E this contractFileName solcVersion compilerInput
              compilerOutput_ _ st st' Hrun) as [Hframe Hcontent].
  split; [exact Hw|]. split; [exact Ha|]. split; [exact Hc|]. split; [exact Hdom|].
  split; [exact Hframe|].
  intros contractPath byName Hget Huniq.
  apply (Hcontent contractPath byName); [|exact Hget|exact Huniq].
  apply JsObj_elem_of_keys. eexists. exact Hget.
Qed.

Lemma json_persist_writes_one_file_per_key_witness :
  fst (JSONCompiler._persistCompiledContractAsync (Demo.env Demo.standardBackend)
         (Demo.jsonDriver ["A"]) "A" "0.6.12+commit.27d51765"
         (input (Demo.standardResult Demo.unitS4))
         (output (Demo.standardResult Demo.unitS4)) Demo.initial) = Ok tt
  /\ dom (artifactFiles
            (snd (JSONCompiler._persistCompiledContractAsync (Demo.env Demo.standardBackend)
                    (Demo.jsonDriver ["A"]) "A" "0.6.12+commit.27d51765"
                    (input (Demo.standardResult Demo.unitS4))
                    (output (Demo.standardResult Demo.unitS4)) Demo.initial)))
     = dom (artifactFiles Demo.initial)
       ∪ list_to_set ["artifacts/A-A.json"; "artifacts/A-L.json"; "artifacts/A-B.json"]
  /\ artifactFiles
       (snd (JSONCompiler._persistCompiledContractAsync (Demo.env Demo.standardBackend)
               (Demo.jsonDriver ["A"]) "A" "0.6.12+commit.27d51765"
               (input (Demo.standardResult Demo.unitS4))
               (output (Demo.standardResult Demo.unitS4)) Demo.initial))
     !! "artifacts/A-L.json"
     = Some {| schemaVersion := "2.0.0";
               artifactContractName := "L";
               compilerOutput := Some "bytecode:pragma solidity ^0.6.0; contract L {}";
               artifactSources := None;
               compiler := {| name := "solc"; version := "0.6.12+commit.27d51765";
                              compilerSettings := "{}" |};
               artifactSourceTreeHashHex := None |}.
Proof.
  split; [reflexivity|].
  destruct (json_persist_writes_one_file_per_key (Demo.env Demo.standardBackend)
              (Demo.jsonDriver ["A"]) "A" "0.6.12+commit.27d51765"
              (input (Demo.standardResult Demo.unitS4))
              (output (Demo.standardResult Demo.unitS4)) Demo.initial
              (snd (JSONCompiler._persistCompiledContractAsync
                      (Demo.env Demo.standardBackend) (Demo.jsonDriver ["A"]) "A"
                      "0.6.12+commit.27d51765" (input (Demo.standardResult Demo.unitS4))
                      (output (Demo.standardResult Demo.unitS4)) Demo.initial))
              eq_refl) as (_ & _ & _ & Hdom & _ & Hcontent).
  split; [exact Hdom|].
  apply (Hcontent "/p/contracts/L.sol"
           [("L", "bytecode:pragma solidity ^0.6.0; contract L {}")] eq_refl).
  intros other Hother Hname.
  repeat (apply elem_of_cons in Hother as [->|Hother]; [try reflexivity; discriminate Hname|]).
  inversion Hother.
Defined.

Section json_failure.
Context (E : Collaborators) (this : DriverFields).

(** A bundle that fails has written nothing and was compiled at most
    once. *)
Lemma compileBundle_throws (persist : bool) (m : gmap string ContractData) (n : string)
    (e : Error) (st st' : DriverState) :
  JSONCompiler.compileBundle E this persist m n st = (Throw e, st') ->
  artifactFiles st' = artifactFiles st
  /\ (compileCalls st' = compileCalls st
      \/ exists call, compileCalls st' = compileCalls st ++ [call]).
Proof.
  unfold JSONCompiler.compileBundle. unfold_driver.
  destruct (resolveJSON E n) as [src|e1]; [|intros [= <- <-]; auto].
  destruct (contractContentsOfBundle E (source src)) as [contents|e1];
    [|intros [= <- <-]; auto].
  destruct (JSONCompiler.chooseSolcVersion E this contents) as [v|e1];
    [|intros [= <- <-]; auto].
  pose proof (getSolcWrapper_files E v st) as [Hf1 Hc1].
  destruct (_getSolcWrapperForVersion E v st) as [[solc|e1] st1]; simpl in Hf1, Hc1;
    [|intros [= <- <-]; auto].
  unfold issueCompile.
  destruct (solcCompileAsync E solc contents []) as [res|e1].
  2:{ intros [= <- <-]. simpl. split; [exact Hf1|]. right. rewrite Hc1. eauto. }
  destruct persist; [|discriminate].
  match goal with
  | |- context [JSONCompiler._persistCompiledContractAsync E this n v ?i ?o ?s] =>
      assert (exists st2, JSONCompiler._persistCompiledContractAsync E this n v i o s
                          = (Ok tt, st2)) as [st2 Hrun]
  end.
  { unfold JSONCompiler._persistCompiledContractAsync.
    edestruct json_persist_loop as (st2 & Hrun & _); [|eexists; exact Hrun].
    intros p Hp. apply JsObj_elem_of_keys. exact Hp. }
  rewrite Hrun. discriminate.
Qed.

End json_failure.

(** X8: the JSON driver is not atomic.  When the bundles before [n]
    complete and the bundle [n] fails, the run fails with the error of [n]
    in the state that [n] left: the artifact files are those that the
    earlier bundles wrote, the bundles after [n] are never compiled, and the
    call history has grown by one call per earlier bundle and at most one
    for [n]. *)
Theorem json_failure_keeps_earlier_artifacts (E : Collaborators) (this : DriverFields)
    (pre post : list string) (n : string) (opts : CompileContractsOpts)
    (pathToData : gmap string ContractData) (e : Error) (st st1 st2 : DriverState) :
  forOf (JSONCompiler.compileBundle E this (shouldPersist opts)) ∅ pre st
  = (Ok pathToData, st1) ->
  JSONCompiler.compileBundle E this (shouldPersist opts) pathToData n st1 = (Throw e, st2) ->
  JSONCompiler._compileContractsAsync E this (pre ++ n :: post) opts st = (Throw e, st2)
  /\ artifactFiles st2 = artifactFiles st1
  /\ exists calls,
       compileCalls st2 = compileCalls st ++ calls
       /\ length pre <= length calls <= S (length pre).
Proof.
  intros Hpre Hfail. split; [|split].
  - unfold JSONCompiler._compileContractsAsync. unfold_driver.
    rewrite forOf_app, Hpre. simpl. unfold_driver. rewrite Hfail. reflexivity.
  - eapply compileBundle_throws. exact Hfail.
  - destruct (json_loop_completed E this (shouldPersist opts) pre ∅ pathToData st st1)
      as [(calls & Hcalls & Hlen) _]; [intros p d Hp; rewrite lookup_empty in Hp; discriminate
                                      |exact Hpre|].
    destruct (compileBundle_throws E this _ _ _ _ _ _ Hfail) as [_ [Hsame|[call Hone]]].
    + exists calls. split; [congruence|lia].
    + exists (calls ++ [call]). split; [rewrite Hone, Hcalls, app_assoc; reflexivity|].
      rewrite length_app. simpl. lia.
Qed.

Lemma json_failure_keeps_earlier_artifacts_witness :
  fst (JSONCompiler._compileContractsAsync (Demo.env Demo.standardBackend)
         (Demo.jsonDriver ["A"; "Z"]) ["A"; "Z"] Demo.persisting Demo.initial)
  = Throw (UnsatisfiableVersionError "^9.9.9")
  /\ dom (artifactFiles
            (snd (JSONCompiler._compileContractsAsync (Demo.env Demo.standardBackend)
                    (Demo.jsonDriver ["A"; "Z"]) ["A"; "Z"] Demo.persisting Demo.initial)))
     = {["artifacts/A-Bundle.json"]}.
Proof.
  destruct (forOf (JSONCompiler.compileBundle (Demo.env Demo.standardBackend)
                     (Demo.jsonDriver ["A"; "Z"]) (shouldPersist Demo.persisting))
                  ∅ ["A"] Demo.initial) as [[pathToData|e] st1] eqn:Hpre;
    [|vm_compute in Hpre; discriminate Hpre].
  destruct (JSONCompiler.compileBundle (Demo.env Demo.standardBackend)
              (Demo.jsonDriver ["A"; "Z"]) (shouldPersist Demo.persisting) pathToData "Z" st1)
    as [[pathToData'|e] st2] eqn:Hfail.
  - vm_compute in Hpre. injection Hpre as <- <-. vm_compute in Hfail. discriminate Hfail.
  - destruct (json_failure_keeps_earlier_artifacts (Demo.env Demo.standardBackend)
                (Demo.jsonDriver ["A"; "Z"]) ["A"] [] "Z" Demo.persisting pathToData e
                Demo.initial st1 st2 Hpre Hfail) as (Hrun & Hfiles & _).
    change (["A"] ++ ["Z"]) with ["A"; "Z"] in Hrun. rewrite Hrun. simpl. split.
    + vm_compute in Hpre. injection Hpre as <- <-. vm_compute in Hfail.
      injection Hfail as <- _. reflexivity.
    + rewrite Hfiles. vm_compute in Hpre. injection Hpre as _ <-. reflexivity.
Defined.

(** ** A source without contracts *)

(** X17: persisting an output without the anonymous source stops at the
    first listed source that has no entry in [contracts] (and no anonymous
    entry to fall back on): the call fails with a TypeError, and the files
    of the sources listed before it have been written. *)
Theorem persist_stops_at_source_without_contracts (E : Collaborators) (this : DriverFields)
    (contractFileName solcVersion : string) (compilerInput : StandardInput)
    (compilerOutput_ : StandardOutput) (written rest : list string) (contractPath : string)
    (st : DriverState) :
  JsObj.get "" (sources compilerOutput_) = None ->
  JsObj.keys (sources compilerOutput_) = written ++ contractPath :: rest ->
  (forall p, p ∈ written -> is_Some (Compiler.contractsOfPath compilerOutput_ p)) ->
  Compiler.contractsOfPath compilerOutput_ contractPath = None ->
  exists st',
    Compiler._persistCompiledContractAsync E this contractFileName solcVersion
      compilerInput compilerOutput_ st = (Throw TypeError, st')
    /\ dom (artifactFiles st')
       = dom (artifactFiles st)
         ∪ list_to_set (map (fun p =>
                               Compiler.currentArtifactPath this contractFileName
                                 (basename E p (SOLIDITY_FILE_EXTENSION E)))
                            written).
Proof.
  intros Hmodern Hkeys Hwritten Hmissing.
  unfold Compiler._persistCompiledContractAsync. rewrite Hmodern, Hkeys, forOf_app.
  destruct (persist_loop E this contractFileName solcVersion compilerInput compilerOutput_
              written Hwritten st) as (st' & Hrun & Hdom).
  cbv zeta in Hrun |- *. rewrite Hrun. exists st'. split; [|exact Hdom].
  simpl. unfold_driver. rewrite Hmissing. reflexivity.
Qed.

Lemma persist_stops_at_source_without_contracts_witness :
  exists st',
    Compiler._persistCompiledContractAsync (Demo.env Demo.standardBackend)
      (Demo.driver ["A"] false) "A" "0.6.12+commit.27d51765" {| settings := "{}" |}
      {| contracts := [("/p/contracts/A.sol", [("A", "bytecode")])];
         sources := [("/p/contracts/A.sol", "{}"); ("/p/contracts/Types.sol", "{}")] |}
      Demo.initial = (Throw TypeError, st')
    /\ dom (artifactFiles st') = {["artifacts/A-A.json"]}.
Proof.
  destruct (persist_stops_at_source_without_contracts (Demo.env Demo.standardBackend)
              (Demo.driver ["A"] false) "A" "0.6.12+commit.27d51765" {| settings := "{}" |}
              {| contracts := [("/p/contracts/A.sol", [("A", "bytecode")])];
                 sources := [("/p/contracts/A.sol", "{}"); ("/p/contracts/Types.sol", "{}")] |}
              ["/p/contracts/A.sol"] [] "/p/contracts/Types.sol" Demo.initial)
    as (st' & Hrun & Hdom).
  - reflexivity.
  - reflexivity.
  - intros p Hp. apply list_elem_of_singleton in Hp as ->. vm_compute. eauto.
  - reflexivity.
  - exists st'. split; [exact Hrun|]. rewrite Hdom. vm_compute. reflexivity.
Defined.

(** ** The registry across runs *)

Section registry.
Context (E : Collaborators) (this : DriverFields).

Lemma registryTight_frame (st st' : DriverState) :
  solcWrappersByVersion st' = solcWrappersByVersion st ->
  allocated st' = allocated st ->
  registryTight st -> registryTight st'.
Proof.
  intros Hw Ha (Hok & Hsize & Hinj). unfold registryTight, registryOk.
  rewrite Hw, Ha. split; [exact Hok|]. split; [exact Hsize|exact Hinj].
Qed.

Lemma getSolcWrapper_tight (solcVersion : string) (st : DriverState) :
  registryTight st -> registryTight (snd (_getSolcWrapperForVersion E solcVersion st)).
Proof.
  intros Htight.
  pose proof (getSolcWrapper_registryOk E solcVersion st (proj1 Htight)) as Hok'.
  destruct Htight as (Hok & Hsize & Hinj).
  destruct (getSolcWrapper_cases E solcVersion st)
    as [(w & _ & Hrun)|[(f & Hnone & _ & Hrun)|(_ & _ & Hrun)]];
    rewrite Hrun in *; simpl in *.
  - split; [exact Hok|]. split; [exact Hsize|exact Hinj].
  - split; [exact Hok'|]. split.
    + simpl. rewrite map_size_insert_None by exact Hnone. rewrite Hsize. reflexivity.
    + simpl. intros k1 k2 w1 w2 H1 H2 Hid.
      apply lookup_insert_Some in H1 as [[<- <-]|[Hne1 H1]];
        apply lookup_insert_Some in H2 as [[<- <-]|[Hne2 H2]].
      * reflexivity.
      * simpl in Hid. destruct (Hok _ _ H2) as (_ & _ & Hlt). lia.
      * simpl in Hid. destruct (Hok _ _ H1) as (_ & _ & Hlt). lia.
      * eapply Hinj; eassumption.
  - split; [exact Hok|]. split; [exact Hsize|exact Hinj].
Qed.

Lemma planContract_tight (independently : bool) (plan : Compiler.Plan) (n : string)
    (st : DriverState) :
  registryTight st ->
  registryTight (snd (Compiler.planContract E this independently plan n st)).
Proof.
  intros Htight. rewrite planContract_cases.
  destruct (spyWalk E n) as [walk|e]; [|exact Htight].
  assert (registryTight (snd (Compiler._shouldCompile E (contractDataFor E this st n walk) st)))
    as Hgate.
  { unfold Compiler._shouldCompile.
    destruct (currentArtifactIfExists (contractDataFor E this st n walk)) as [a|];
      [|exact Htight].
    unfold_driver.
    pose proof (getSolcWrapper_tight (version (compiler a)) st Htight) as H1.
    destruct (_getSolcWrapperForVersion E (version (compiler a)) st) as [[w|e] st1];
      exact H1. }
  destruct (Compiler._shouldCompile E (contractDataFor E this st n walk) st)
    as [[[|]|e] st1]; simpl in *; try exact Hgate.
  destruct (Compiler.chooseSolcVersion E this (contractSource walk)); exact Hgate.
Qed.

Lemma dispatchVersions_tight (plan : Compiler.Plan) (remappings : JsObject string)
    (versions : list string) :
  forall st, registryTight st ->
    registryTight (snd (Compiler.dispatchVersions E plan remappings versions st)).
Proof.
  induction versions as [|v versions IH]; intros st Htight; simpl; [exact Htight|].
  unfold Compiler.dispatchVersion.
  pose proof (getSolcWrapper_tight v st Htight) as H1.
  destruct (_getSolcWrapperForVersion E v st) as [[solc|e] st1]; simpl in H1.
  - pose proof (issueUnits_state E solc remappings
                  (default [] (JsObj.get v (Compiler.compilationUnitsByVersion plan))) st1)
      as Hissue. cbv zeta in Hissue.
    destruct (Compiler.issueUnits E solc remappings
                (default [] (JsObj.get v (Compiler.compilationUnitsByVersion plan))) st1)
      as [rs st2]. simpl in Hissue. destruct Hissue as (Hw & Ha & _).
    specialize (IH st2 (registryTight_frame st1 st2 Hw Ha H1)).
    destruct (Compiler.dispatchVersions E plan remappings versions st2) as [rs' st3].
    exact IH.
  - specialize (IH st1 H1).
    destruct (Compiler.dispatchVersions E plan remappings versions st1) as [rs' st3].
    exact IH.
Qed.

Lemma compileBundle_tight (persist : bool) (m : gmap string ContractData) (n : string)
    (st : DriverState) :
  registryTight st ->
  registryTight (snd (JSONCompiler.compileBundle E this persist m n st)).
Proof.
  intros Htight. unfold JSONCompiler.compileBundle. unfold_driver.
  destruct (resolveJSON E n) as [src|e1]; [|exact Htight].
  destruct (contractContentsOfBundle E (source src)) as [contents|e1]; [|exact Htight].
  destruct (JSONCompiler.chooseSolcVersion E this contents) as [v|e1]; [|exact Htight].
  pose proof (getSolcWrapper_tight v st Htight) as H1.
  destruct (_getSolcWrapperForVersion E v st) as [[solc|e1] st1]; simpl in H1; [|exact H1].
  unfold issueCompile.
  assert (registryTight (addCall st1 {| callWrapper := solc; callContracts := contents;
                                        callRemappings := [] |})) as H2
    by (eapply registryTight_frame; [| |exact H1]; reflexivity).
  destruct (solcCompileAsync E solc contents []) as [res|e1]; [|exact H2].
  destruct persist; [|exact H2].
  match goal with
  | |- context [JSONCompiler._persistCompiledContractAsync E this n v ?i ?o ?s] =>
      assert (exists st2, JSONCompiler._persistCompiledContractAsync E this n v i o s
                          = (Ok tt, st2)
                          /\ solcWrappersByVersion st2 = solcWrappersByVersion s
                          /\ allocated st2 = allocated s) as (st2 & Hrun & Hw & Ha)
  end.
  { unfold JSONCompiler._persistCompiledContractAsync.
    edestruct json_persist_loop as (st2 & Hrun & Hw & Ha & _); [|eexists; eauto].
    intros p Hp. apply JsObj_elem_of_keys. exact Hp. }
  rewrite Hrun. simpl. eapply registryTight_frame; eassumption.
Qed.

End registry.

(** X9: a run of either driver keeps the wrapper registry tight: every
    wrapper sits under the version it was built for, with the class of a
    matching prefix; as many wrappers were constructed as are registered;
    and no two versions share a wrapper object. *)
Theorem registry_stays_tight (E : Collaborators) (this : DriverFields)
    (names : list string) (opts : CompileContractsOpts) (st : DriverState) :
  registryTight st ->
  registryTight (snd (Compiler._compileContractsAsync E this names opts st))
  /\ registryTight (snd (JSONCompiler._compileContractsAsync E this names opts st)).
Proof.
  intros Htight. split.
  - rewrite run_phases.
    assert (registryTight
              (snd (Compiler.planContracts E this (shouldCompileIndependently opts) names st)))
      as H1.
    { unfold Compiler.planContracts. apply forOf_state_inv; [|exact Htight].
      intros plan n st0. apply planContract_tight. }
    destruct (Compiler.planContracts E this (shouldCompileIndependently opts) names st)
      as [[plan|e] st1]; simpl in H1; [|exact H1].
    unfold Compiler.dispatch.
    pose proof (dispatchVersions_tight E plan
                  (getDependencyNameToPackagePath E (Compiler.allResolvedContractSources plan))
                  (JsObj.keys (Compiler.compilationUnitsByVersion plan)) st1 H1) as H2.
    destruct (Compiler.dispatchVersions E plan
                (getDependencyNameToPackagePath E (Compiler.allResolvedContractSources plan))
                (JsObj.keys (Compiler.compilationUnitsByVersion plan)) st1) as [rs st2].
    simpl in H2.
    destruct (promiseAll rs) as [results|e]; [|exact H2].
    destruct (shouldPersist opts); [|exact H2].
    pose proof (persistAll_frame E this plan
                  (JsObj.keys (Compiler.compilationUnitsByVersion plan)) results st2 "")
      as Hp. cbv zeta in Hp. destruct Hp as (Hw & Ha & _).
    destruct (Compiler.persistAll E this plan
                (JsObj.keys (Compiler.compilationUnitsByVersion plan)) results st2)
      as [[cache|e] st3]; simpl in *; eapply registryTight_frame; eassumption.
  - unfold JSONCompiler._compileContractsAsync. unfold_driver.
    assert (registryTight
              (snd (forOf (JSONCompiler.compileBundle E this (shouldPersist opts)) ∅ names st)))
      as H1.
    { apply forOf_state_inv; [|exact Htight].
      intros m n st0. apply compileBundle_tight. }
    destruct (forOf (JSONCompiler.compileBundle E this (shouldPersist opts)) ∅ names st)
      as [[m|e] st1]; exact H1.
Qed.

Lemma registry_stays_tight_witness :
  registryTight (snd (Compiler._compileContractsAsync (Demo.env Demo.standardBackend)
                        (Demo.driver ["A"; "B"] false) ["A"; "B"] Demo.persisting
                        Demo.initial))
  /\ registryTight (snd (JSONCompiler._compileContractsAsync (Demo.env Demo.standardBackend)
                           (Demo.jsonDriver ["A"]) ["A"] Demo.persisting Demo.initial)).
Proof.
  assert (registryTight Demo.initial) as Hinitial.
  { split; [apply registryOk_empty; reflexivity|]. split; [reflexivity|].
    intros k1 k2 w1 w2 H1. simpl in H1. rewrite lookup_empty in H1. discriminate H1. }
  split.
  - apply (registry_stays_tight (Demo.env Demo.standardBackend) (Demo.driver ["A"; "B"] false)
             ["A"; "B"] Demo.persisting Demo.initial Hinitial).
  - apply (registry_stays_tight (Demo.env Demo.standardBackend) (Demo.jsonDriver ["A"])
             ["A"] Demo.persisting Demo.initial Hinitial).
Defined.

(** ** Watch mode *)

Lemma uniq_from (l : list string) :
  forall seen,
    NoDup seen ->
    NoDup (fold_left (fun seen x => if decide (x ∈ seen) then seen else seen ++ [x]) l seen)
    /\ forall x,
         x ∈ fold_left (fun seen x => if decide (x ∈ seen) then seen else seen ++ [x]) l seen
         <-> x ∈ seen \/ x ∈ l.
Proof.
  induction l as [|y l IH]; intros seen Hnd; simpl.
  - split; [exact Hnd|]. intros x. split; [auto|]. intros [H|H]; [exact H|inversion H].
  - destruct (decide (y ∈ seen)) as [Hin|Hout].
    + destruct (IH seen Hnd) as [Hnd' Hmem]. split; [exact Hnd'|].
      intros x. rewrite Hmem, elem_of_cons. split.
      * intros [H|H]; auto.
      * intros [H|[->|H]]; auto.
    + assert (NoDup (seen ++ [y])) as Hnd1.
      { apply NoDup_app. split; [exact Hnd|]. split; [|apply NoDup_singleton].
        intros x Hx Hy. apply list_elem_of_singleton in Hy as ->. contradiction. }
      destruct (IH (seen ++ [y]) Hnd1) as [Hnd' Hmem]. split; [exact Hnd'|].
      intros x. rewrite Hmem, elem_of_app, list_elem_of_singleton, elem_of_cons. tauto.
Qed.

Lemma uniq_spec (l : list string) : NoDup (uniq l) /\ forall x, x ∈ uniq l <-> x ∈ l.
Proof.
  destruct (uniq_from l [] (NoDup_nil_2)) as [Hnd Hmem]. split; [exact Hnd|].
  intros x. unfold uniq. rewrite Hmem. split; [intros [H|H]; [inversion H|exact H]|auto].
Qed.

Section watch.
Context (E : Collaborators) (this : DriverFields).

Lemma recordAll_spec (names : list string) :
  forall recorded,
    match CompilerWatch.recordAll E names recorded with
    | Ok all =>
        (forall n, n ∈ names -> exists walk, spyWalk E n = Ok walk)
        /\ forall rcs, rcs ∈ all <->
             rcs ∈ recorded
             \/ exists n walk, n ∈ names /\ spyWalk E n = Ok walk
                               /\ rcs ∈ resolvedContractSources walk
    | Throw e => exists n, n ∈ names /\ spyWalk E n = Throw e
    end.
Proof.
  induction names as [|n names IH]; intros recorded; simpl.
  - split; [intros n Hn; inversion Hn|].
    intros rcs. split; [auto|]. intros [H|(n & _ & Hn & _)]; [exact H|inversion Hn].
  - destruct (spyWalk E n) as [walk|e] eqn:Hwalk.
    + specialize (IH (recorded ++ resolvedContractSources walk)).
      destruct (CompilerWatch.recordAll E names (recorded ++ resolvedContractSources walk))
        as [all|e].
      * destruct IH as [Hall Hmem]. split.
        -- intros n0 Hn0. apply elem_of_cons in Hn0 as [->|Hn0]; eauto.
        -- intros rcs. rewrite Hmem, elem_of_app. split.
           ++ intros [[H|H]|(n0 & w0 & Hn0 & Hw0 & Hr0)]; [auto| |].
              ** right. exists n, walk. split; [left|auto].
              ** right. exists n0, w0. split; [right; exact Hn0|auto].
           ++ intros [H|(n0 & w0 & Hn0 & Hw0 & Hr0)]; [auto|].
              apply elem_of_cons in Hn0 as [->|Hn0].
              ** rewrite Hwalk in Hw0. injection Hw0 as <-. auto.
              ** right. exists n0, w0. auto.
      * destruct IH as (n0 & Hn0 & Hthrow). exists n0. split; [right; exact Hn0|exact Hthrow].
    + exists n. split; [left|exact Hwalk].
Qed.

(** Every file of every unit of a plan was recorded while walking one of
    the requested names. *)
Lemma planContracts_walked (independently : bool) (allNames : list string)
    (contractNames : list string) :
  (forall n, n ∈ contractNames -> n ∈ allNames) ->
  forall (plan plan' : Compiler.Plan) (st st' : DriverState),
  (forall v us u k, JsObj.get v (Compiler.compilationUnitsByVersion plan) = Some us ->
                    u ∈ us -> k ∈ JsObj.keys u -> walkedFrom E allNames k) ->
  forOf (Compiler.planContract E this independently) plan contractNames st = (Ok plan', st') ->
  (forall n, n ∈ contractNames -> exists walk, spyWalk E n = Ok walk)
  /\ forall v us u k, JsObj.get v (Compiler.compilationUnitsByVersion plan') = Some us ->
                      u ∈ us -> k ∈ JsObj.keys u -> walkedFrom E allNames k.
Proof.
  induction contractNames as [|n names IH]; intros Hsub plan plan' st st' Hplan Hrun;
    simpl in Hrun; unfold_driver.
  - injection Hrun as <- <-. split; [intros n Hn; inversion Hn|exact Hplan].
  - destruct (Compiler.planContract E this independently plan n st) as [[plan1|e] st1] eqn:Hstep;
      [|discriminate].
    assert (forall n0, n0 ∈ names -> n0 ∈ allNames) as Hsub'
      by (intros; apply Hsub; right; assumption).
    assert (exists walk, spyWalk E n = Ok walk) as [walk Hwalk].
    { rewrite planContract_cases in Hstep.
      destruct (spyWalk E n) as [walk|e]; [eauto|discriminate]. }
    assert (forall v us u k,
              JsObj.get v (Compiler.compilationUnitsByVersion plan1) = Some us ->
              u ∈ us -> k ∈ JsObj.keys u -> walkedFrom E allNames k) as Hplan1.
    { apply planContract_survivor in Hstep as [[_ ->]|(walk' & sv & Hsurv & ->)];
        [exact Hplan|].
      assert (walk' = walk) as ->.
      { unfold survivorOf in Hsurv. rewrite Hwalk in Hsurv.
        destruct (Compiler._shouldCompile E (contractDataFor E this st n walk) st)
          as [[[|]|?] ?]; try discriminate.
        destruct (Compiler.chooseSolcVersion E this (contractSource walk)); [|discriminate].
        congruence. }
      assert (forall unit_ k,
                (forall k0, k0 ∈ JsObj.keys unit_ -> walkedFrom E allNames k0) ->
                k ∈ JsObj.keys (Compiler.fillUnit unit_ (resolvedContractSources walk)) ->
                walkedFrom E allNames k) as Hfill.
      { intros unit_ k Hunit Hk. apply fillUnit_keys in Hk as [Hk|(rcs & Hrcs & <-)];
          [auto|].
        exists n, walk, rcs. split; [apply Hsub; left|auto]. }
      simpl. intros v us u k Hget Hu Hk.
      destruct (decide (sv = v)) as [->|Hne].
      2:{ rewrite JsObj_get_set_ne in Hget by exact Hne. eapply Hplan; eassumption. }
      rewrite JsObj_get_set_eq in Hget. injection Hget as <-.
      unfold Compiler.placeInUnits in Hu.
      destruct (JsObj.get v (Compiler.compilationUnitsByVersion plan)) as [us0|] eqn:Hget0;
        simpl in Hu.
      - destruct independently.
        + apply elem_of_app in Hu as [Hu|Hu]; [eapply Hplan; eassumption|].
          apply list_elem_of_singleton in Hu as ->.
          eapply Hfill; [|exact Hk]. intros k0 Hk0. inversion Hk0.
        + destruct us0 as [|u0 rest].
          * apply list_elem_of_singleton in Hu as ->.
            eapply Hfill; [|exact Hk]. intros k0 Hk0. inversion Hk0.
          * apply elem_of_cons in Hu as [->|Hu].
            -- eapply Hfill; [|exact Hk]. intros k0 Hk0.
               eapply Hplan; [exact Hget0|left|exact Hk0].
            -- eapply Hplan; [exact Hget0|right; exact Hu|exact Hk].
      - destruct independently; simpl in Hu;
          apply list_elem_of_singleton in Hu as ->;
          (eapply Hfill; [|exact Hk]); intros k0 Hk0; inversion Hk0. }
    destruct (IH Hsub' _ _ _ _ Hplan1 Hrun) as [Hall Hunits].
    split; [|exact Hunits].
    intros n0 Hn0. apply elem_of_cons in Hn0 as [->|Hn0]; eauto.
Qed.

Lemma getPathsToWatch_spec :
  match CompilerWatch._getPathsToWatch E this with
  | Ok paths =>
      NoDup paths
      /\ (forall n, n ∈ Compiler.getContractNamesToCompile E this ->
                    exists walk, spyWalk E n = Ok walk)
      /\ forall k, k ∈ paths <-> walkedFrom E (Compiler.getContractNamesToCompile E this) k
  | Throw e =>
      exists n, n ∈ Compiler.getContractNamesToCompile E this /\ spyWalk E n = Throw e
  end.
Proof.
  unfold CompilerWatch._getPathsToWatch.
  pose proof (recordAll_spec (Compiler.getContractNamesToCompile E this) []) as Hrec.
  destruct (CompilerWatch.recordAll E (Compiler.getContractNamesToCompile E this) [])
    as [all|e]; [|exact Hrec].
  destruct Hrec as [Hall Hmem].
  destruct (uniq_spec (map absolutePath all)) as [Hnd Huniq].
  split; [exact Hnd|]. split; [exact Hall|].
  intros k. rewrite Huniq, list_elem_of_fmap. split.
  - intros (rcs & -> & Hrcs). apply Hmem in Hrcs as [Hrcs|(n & walk & Hn & Hw & Hr)];
      [inversion Hrcs|].
    exists n, walk, rcs. auto.
  - intros (n & walk & rcs & Hn & Hw & Hr & <-). exists rcs. split; [reflexivity|].
    apply Hmem. right. exists n, walk. auto.
Qed.

End watch.

(** X10: when planning the contracts to compile completes, the paths to
    watch are computed too, without duplicates; they are exactly the
    absolute paths recorded while walking the requested names, and they
    include every file of every compilation unit of the plan. *)
Theorem watched_paths_cover_plan (E : Collaborators) (this : DriverFields)
    (independently : bool) (st st1 : DriverState) (plan : Compiler.Plan) :
  Compiler.planContracts E this independently (Compiler.getContractNamesToCompile E this) st
  = (Ok plan, st1) ->
  exists paths,
    CompilerWatch._getPathsToWatch E this = Ok paths
    /\ NoDup paths
    /\ (forall k, k ∈ paths <->
          exists n walk rcs,
            n ∈ Compiler.getContractNamesToCompile E this /\ spyWalk E n = Ok walk
            /\ rcs ∈ resolvedContractSources walk /\ absolutePath rcs = k)
    /\ forall v units unit_ k,
         JsObj.get v (Compiler.compilationUnitsByVersion plan) = Some units ->
         unit_ ∈ units -> k ∈ JsObj.keys unit_ -> k ∈ paths.
Proof.
  intros Hplan. unfold Compiler.planContracts in Hplan.
  destruct (planContracts_walked E this independently
              (Compiler.getContractNamesToCompile E this)
              (Compiler.getContractNamesToCompile E this) ltac:(auto)
              Compiler.emptyPlan plan st st1 ltac:(intros v us u k Hget; discriminate) Hplan)
    as [Hall Hunits].
  pose proof (getPathsToWatch_spec E this) as Hpaths.
  destruct (CompilerWatch._getPathsToWatch E this) as [paths|e].
  - destruct Hpaths as (Hnd & _ & Hmem). exists paths. split; [reflexivity|].
    split; [exact Hnd|]. split; [exact Hmem|].
    intros v us u k Hget Hu Hk. apply Hmem. eapply Hunits; eassumption.
  - destruct Hpaths as (n & Hn & Hthrow). destruct (Hall n Hn) as [walk Hwalk]. congruence.
Qed.

Lemma watched_paths_cover_plan_witness :
  CompilerWatch._getPathsToWatch (Demo.env Demo.standardBackend) (Demo.driver ["A"; "B"] false)
  = Ok ["/p/contracts/A.sol"; "/p/contracts/L.sol"; "/p/contracts/B.sol"]
  /\ exists paths,
       CompilerWatch._getPathsToWatch (Demo.env Demo.standardBackend)
         (Demo.driver ["A"; "B"] false) = Ok paths
       /\ NoDup paths
       /\ forall k, k ∈ JsObj.keys Demo.unitS4 -> k ∈ paths.
Proof.
  split; [reflexivity|].
  destruct (Compiler.planContracts (Demo.env Demo.standardBackend)
              (Demo.driver ["A"; "B"] false) false
              (Compiler.getContractNamesToCompile (Demo.env Demo.standardBackend)
                 (Demo.driver ["A"; "B"] false)) Demo.initial)
    as [[plan|e] st1] eqn:Hplan; [|vm_compute in Hplan; discriminate Hplan].
  destruct (watched_paths_cover_plan (Demo.env Demo.standardBackend)
              (Demo.driver ["A"; "B"] false) false Demo.initial st1 plan Hplan)
    as (paths & Hpaths & Hnd & _ & Hcover).
  exists paths. split; [exact Hpaths|]. split; [exact Hnd|].
  intros k Hk. apply (Hcover "0.6.12+commit.27d51765" [Demo.unitS4] Demo.unitS4 k);
    [|left|exact Hk].
  vm_compute in Hplan. injection Hplan as <- _. reflexivity.
Defined.


(** X11: a watch cycle outlives a failed compilation.  Its driver state
    is the one [compileAsync] left, whatever the outcome of the compile; it
    completes, after one [unwatch] and one [add] of the paths to watch,
    whenever every requested name resolves; and it fails, after the
    [unwatch] alone, when some requested name does not resolve.
    [watchAsync] accordingly registers its change handler after the first
    cycle exactly when every requested name resolves. *)
Theorem watch_cycle_survives_compile_errors (E : Collaborators) (this : DriverFields)
    (st : DriverState) (watcher : list WatcherCall) :
  let cycle := CompilerWatch.onFileChangedAsync E this st watcher in
  snd (fst cycle) = snd (Compiler.compileAsync E this st)
  /\ ((forall n, n ∈ Compiler.getContractNamesToCompile E this ->
                 exists walk, spyWalk E n = Ok walk) ->
      exists paths,
        CompilerWatch._getPathsToWatch E this = Ok paths
        /\ cycle = (Ok tt, snd (Compiler.compileAsync E this st),
                    watcher ++ [WatcherUnwatch "*"] ++ [WatcherAdd paths])
        /\ CompilerWatch.watchAsync E this st
           = (Ok tt, snd (Compiler.compileAsync E this st),
              [WatcherWatch "^$"; WatcherUnwatch "*"; WatcherAdd paths; WatcherOnChange]))
  /\ (forall n e, n ∈ Compiler.getContractNamesToCompile E this ->
                  spyWalk E n = Throw e ->
      exists e',
        cycle = (Throw e', snd (Compiler.compileAsync E this st),
                 watcher ++ [WatcherUnwatch "*"])
        /\ CompilerWatch.watchAsync E this st
           = (Throw e', snd (Compiler.compileAsync E this st),
              [WatcherWatch "^$"; WatcherUnwatch "*"])).
Proof.
  cbv zeta. unfold CompilerWatch.watchAsync, CompilerWatch.onFileChangedAsync.
  pose proof (getPathsToWatch_spec E this) as Hpaths.
  destruct (CompilerWatch._getPathsToWatch E this) as [paths|e]; simpl.
  - destruct Hpaths as (_ & Hall & _). split; [reflexivity|]. split.
    + intros _. exists paths. rewrite <- app_assoc. repeat split; reflexivity.
    + intros n e Hn Hthrow. destruct (Hall n Hn) as [walk Hwalk]. congruence.
  - destruct Hpaths as (n & Hn & Hthrow). split; [reflexivity|]. split.
    + intros Hall. destruct (Hall n Hn) as [walk Hwalk]. congruence.
    + intros _ _ _ _. exists e. split; reflexivity.
Qed.

Lemma watch_cycle_survives_compile_errors_witness :
  fst (Compiler.compileAsync (Demo.env Scenarios.failingBackend) (Demo.driver ["A"; "B"] false)
         Demo.initial) = Throw (CompilationError 1)
  /\ exists paths,
       CompilerWatch._getPathsToWatch (Demo.env Scenarios.failingBackend)
         (Demo.driver ["A"; "B"] false) = Ok paths
       /\ CompilerWatch.onFileChangedAsync (Demo.env Scenarios.failingBackend)
            (Demo.driver ["A"; "B"] false) Demo.initial [WatcherWatch "^$"]
          = (Ok tt,
             snd (Compiler.compileAsync (Demo.env Scenarios.failingBackend)
                    (Demo.driver ["A"; "B"] false) Demo.initial),
             [WatcherWatch "^$"] ++ [WatcherUnwatch "*"] ++ [WatcherAdd paths]).
Proof.
  split; [vm_compute; reflexivity|].
  destruct (watch_cycle_survives_compile_errors (Demo.env Scenarios.failingBackend)
              (Demo.driver ["A"; "B"] false) Demo.initial [WatcherWatch "^$"])
    as (_ & Hcompletes & _).
  destruct Hcompletes as (paths & Hpaths & Hcycle & _).
  - intros n Hn.
    apply elem_of_cons in Hn as [->|Hn]; [eexists; reflexivity|].
    apply elem_of_cons in Hn as [->|Hn]; [eexists; reflexivity|inversion Hn].
  - exists paths. split; [exact Hpaths|exact Hcycle].
Defined.

(** ** Artifacts without a hash *)

Section never_skipped.
Context (E : Collaborators) (this : DriverFields).
Hypothesis found_without_hash :
  forall files dir n a,
    getContractArtifactIfExists E files dir n = Some a -> artifactSourceTreeHashHex a = None.

Lemma shouldCompile_without_hash (st : DriverState) (n : string) (walk : SpyWalk)
    (answer : bool) (st1 : DriverState) :
  Compiler._shouldCompile E (contractDataFor E this st n walk) st = (Ok answer, st1) ->
  answer = true.
Proof.
  unfold Compiler._shouldCompile. simpl.
  destruct (getContractArtifactIfExists E (artifactFiles st) (_artifactsDir this) n)
    as [a|] eqn:Hfound; [|intros [= <- _]; reflexivity].
  unfold_driver.
  destruct (_getSolcWrapperForVersion E (version (compiler a)) st) as [[w|e] st2];
    [|discriminate].
  intros [= <- _]. rewrite (found_without_hash _ _ _ _ Hfound). simpl.
  apply orb_true_r.
Qed.

Lemma planContracts_keep_records (independently : bool) (names : list string) (k : string) :
  forall (plan plan' : Compiler.Plan) (st st' : DriverState),
  forOf (Compiler.planContract E this independently) plan names st = (Ok plan', st') ->
  is_Some (Compiler.contractPathToData plan !! k) ->
  is_Some (Compiler.contractPathToData plan' !! k).
Proof.
  induction names as [|n names IH]; intros plan plan' st st' Hrun Hk;
    simpl in Hrun; unfold_driver.
  - injection Hrun as <- _. exact Hk.
  - destruct (Compiler.planContract E this independently plan n st) as [[plan1|e] st1] eqn:Hstep;
      [|discriminate].
    apply planContract_survivor in Hstep as [[_ ->]|(walk & v & _ & ->)].
    + eapply IH; eassumption.
    + eapply IH; [exact Hrun|]. simpl. rewrite lookup_insert_is_Some.
      destruct (decide (absolutePath (contractSource walk) = k)); auto.
Qed.

Lemma planContracts_all_survive (independently : bool) (names : list string) :
  forall (plan plan' : Compiler.Plan) (st st' : DriverState),
  forOf (Compiler.planContract E this independently) plan names st = (Ok plan', st') ->
  map survivorName (survivors E this independently plan names st) = names
  /\ forall n, n ∈ names ->
       exists walk, spyWalk E n = Ok walk
                    /\ is_Some (Compiler.contractPathToData plan'
                                  !! absolutePath (contractSource walk)).
Proof.
  induction names as [|n names IH]; intros plan plan' st st' Hrun;
    simpl in *; unfold_driver.
  - split; [reflexivity|]. intros n Hn. inversion Hn.
  - destruct (Compiler.planContract E this independently plan n st) as [[plan1|e] st1] eqn:Hstep;
      [|discriminate].
    pose proof Hstep as Hcases. rewrite planContract_cases in Hcases.
    destruct (spyWalk E n) as [walk|e] eqn:Hwalk; [|discriminate].
    pose proof (shouldCompile_without_hash st n walk) as Hgate.
    unfold survivorOf. rewrite Hwalk.
    destruct (Compiler._shouldCompile E (contractDataFor E this st n walk) st)
      as [[answer|e] st2]; [|discriminate].
    rewrite (Hgate answer st2 eq_refl) in *.
    destruct (Compiler.chooseSolcVersion E this (contractSource walk)) as [v|e];
      [|discriminate].
    injection Hcases as <- <-.
    destruct (IH _ _ _ _ Hrun) as [Hnames Hrecords]. split.
    + simpl. rewrite Hnames. reflexivity.
    + intros n0 Hn0. apply elem_of_cons in Hn0 as [->|Hn0]; [|auto].
      exists walk. split; [exact Hwalk|].
      eapply planContracts_keep_records; [exact Hrun|].
      simpl. rewrite lookup_insert_eq. eauto.
Qed.

End never_skipped.

(** X12: when every existing artifact that is found lacks the
    source-tree hash (as the artifacts built by the drivers do), nothing is
    skipped: a planning that completes has taken every requested contract
    past the gate, in request order, and holds a record for the root file
    of each. *)
Theorem nothing_skipped_without_hash (E : Collaborators) (this : DriverFields)
    (independently : bool) (names : list string) (st st1 : DriverState)
    (plan : Compiler.Plan) :
  (forall files dir n a,
      getContractArtifactIfExists E files dir n = Some a ->
      artifactSourceTreeHashHex a = None) ->
  Compiler.planContracts E this independently names st = (Ok plan, st1) ->
  map survivorName (survivors E this independently Compiler.emptyPlan names st) = names
  /\ forall n, n ∈ names ->
       exists walk, spyWalk E n = Ok walk
                    /\ is_Some (Compiler.contractPathToData plan
                                  !! absolutePath (contractSource walk)).
Proof.
  intros Hfound Hplan. eapply planContracts_all_survive; eassumption.
Qed.

Lemma nothing_skipped_without_hash_witness :
  map survivorName
      (survivors Scenarios.ownArtifacts (Demo.driver ["A"; "B"] false) false Compiler.emptyPlan
         ["A"; "B"] Demo.initial) = ["A"; "B"].
Proof.
  destruct (Compiler.planContracts Scenarios.ownArtifacts (Demo.driver ["A"; "B"] false) false
              ["A"; "B"] Demo.initial) as [[plan|e] st1] eqn:Hplan;
    [|vm_compute in Hplan; discriminate Hplan].
  apply (nothing_skipped_without_hash Scenarios.ownArtifacts (Demo.driver ["A"; "B"] false) false
           ["A"; "B"] Demo.initial st1 plan).
  - intros files dir n a [= <-]. reflexivity.
  - exact Hplan.
Defined.

(** ** The JSON name resolver *)

Lemma FsNode_nested_ind (P : FsNode -> Prop) :
  P FsFile -> P FsLockedDir ->
  (forall dirContents, Forall (fun entry => P (snd entry)) dirContents -> P (FsDir dirContents)) ->
  forall dir, P dir.
Proof.
  intros Hfile Hlocked Hdir.
  fix IH 1. intros [| |dirContents].
  - exact Hfile.
  - exact Hlocked.
  - apply Hdir. induction dirContents as [|[fileName entry] rest IHrest].
    + constructor.
    + constructor; [apply IH|exact IHrest].
Qed.

Lemma overEvents_app {S : Type} (onFile : S -> string -> outcome (bool * S))
    (events1 events2 : list JSONNameResolver.WalkEvent) (s : S) :
  JSONNameResolver.overEvents onFile (events1 ++ events2) s =
  match JSONNameResolver.overEvents onFile events1 s with
  | Done (false, s') => JSONNameResolver.overEvents onFile events2 s'
  | other => other
  end.
Proof.
  revert s. induction events1 as [|[f|d] events1 IH]; intros s; simpl;
    [reflexivity| |reflexivity].
  destruct (onFile s f) as [[[|] s']|e]; [reflexivity|apply IH|reflexivity].
Qed.

Section resolver_facts.
Context (E : Collaborators) (node : NodeApi) (_contractsDir : string).

(** The traversal hands the callback the events of the tree, in order. *)
Lemma traverse_overEvents {S : Type} (onFile : S -> string -> outcome (bool * S))
    (dir : FsNode) :
  forall dirPath s,
    JSONNameResolver._traverseContractsDir node _contractsDir dirPath dir onFile s
    = JSONNameResolver.overEvents onFile
        (JSONNameResolver.walkOrder node _contractsDir dirPath dir) s.
Proof.
  induction dir as [| |dirContents IH] using FsNode_nested_ind; intros dirPath s;
    [reflexivity|reflexivity|].
  simpl. revert s. induction IH as [|[fileName entry] rest Hentry _ IHrest]; intros s;
    [reflexivity|].
  rewrite overEvents_app. simpl in Hentry.
  destruct entry as [| |sub].
  - destruct (endsWith fileName JSONNameResolver.JSON_FILE_EXTENSION); simpl.
    + destruct (onFile s _) as [[[|] s']|e]; [reflexivity|apply IHrest|reflexivity].
    + apply IHrest.
  - reflexivity.
  - rewrite Hentry.
    destruct (JSONNameResolver.overEvents onFile
                (JSONNameResolver.walkOrder node _contractsDir (pathJoin node dirPath fileName)
                   (FsDir sub)) s)
      as [[[|] s']|e]; [reflexivity|apply IHrest|reflexivity].
Qed.

Lemma readSource_fields (sourcePath : string -> string) (f : string) (cs : ContractSource) :
  JSONNameResolver.readSource E node _contractsDir sourcePath f = Done cs <->
  readFileSync node (pathResolve E (pathJoin node _contractsDir f)) = Some (source cs)
  /\ path cs = sourcePath (pathJoin node _contractsDir f)
  /\ absolutePath cs = pathResolve E (pathJoin node _contractsDir f).
Proof.
  unfold JSONNameResolver.readSource. split.
  - destruct (readFileSync node (pathResolve E (pathJoin node _contractsDir f)));
      [|discriminate].
    intros [= <-]. auto.
  - intros (-> & Hp & Ha). destruct cs as [p a src]. simpl in *. subst. reflexivity.
Qed.

(** The listing callback completes on the events exactly when they are
    all files that can be read; it has then appended their sources. *)
Lemma getAll_events (events : list JSONNameResolver.WalkEvent) :
  forall (acc : list ContractSource) (isComplete : bool) (sources : list ContractSource),
  JSONNameResolver.overEvents (JSONNameResolver.onFileOfGetAll E node _contractsDir)
    events acc = Done (isComplete, sources)
  <-> exists files found,
        events = map JSONNameResolver.JsonFile files
        /\ Forall2 (fun f cs =>
                      JSONNameResolver.readSource E node _contractsDir
                        (fun contractPath => contractPath) f = Done cs) files found
        /\ sources = acc ++ found /\ isComplete = false.
Proof.
  induction events as [|[f|d] events IH]; intros acc isComplete sources; simpl.
  - split.
    + intros [= <- <-]. exists [], []. rewrite app_nil_r. repeat split. constructor.
    + intros (files & found & Hev & Hread & -> & ->).
      destruct files; [|discriminate]. inversion Hread. rewrite app_nil_r. reflexivity.
  - unfold JSONNameResolver.onFileOfGetAll at 1.
    destruct (JSONNameResolver.readSource E node _contractsDir
                (fun contractPath => contractPath) f) as [cs|e] eqn:Hf.
    + rewrite IH. split.
      * intros (files & found & -> & Hread & -> & ->).
        exists (f :: files), (cs :: found). rewrite <- app_assoc. repeat split.
        constructor; assumption.
      * intros (files & found & Hev & Hread & -> & ->).
        destruct files as [|f' files]; [discriminate|]. injection Hev as <- ->.
        inversion Hread as [|? cs' ? found' Hf' Hrest]; subst.
        rewrite Hf in Hf'. injection Hf' as <-.
        exists files, found'. rewrite <- app_assoc. repeat split. exact Hrest.
    + split; [discriminate|].
      intros (files & found & Hev & Hread & _).
      destruct files as [|f' files]; [discriminate|]. injection Hev as <- ->.
      inversion Hread as [|? cs' ? found' Hf' Hrest]; subst. congruence.
  - split; [discriminate|].
    intros (files & found & Hev & _). destruct files; discriminate.
Qed.

(** A lookup passes over the files of other base names. *)
Lemma resolve_events_skip (lookupContractName : string)
    (skipped rest : list JSONNameResolver.WalkEvent) (contractSource_ : option ContractSource) :
  Forall (JSONNameResolver.passedOver E lookupContractName) skipped ->
  JSONNameResolver.overEvents
    (JSONNameResolver.onFileOfResolve E node _contractsDir
       (basename E lookupContractName JSONNameResolver.JSON_FILE_EXTENSION))
    (skipped ++ rest) contractSource_
  = JSONNameResolver.overEvents
      (JSONNameResolver.onFileOfResolve E node _contractsDir
         (basename E lookupContractName JSONNameResolver.JSON_FILE_EXTENSION))
      rest contractSource_.
Proof.
  induction 1 as [|[f|d] skipped [Hfile Hdiffers] _ IH]; simpl;
    [reflexivity| |destruct Hfile].
  unfold JSONNameResolver.onFileOfResolve at 1. simpl in Hdiffers.
  rewrite decide_False by exact Hdiffers. exact IH.
Qed.

(** The outcome of a lookup, by what the traversal meets first. *)
Lemma resolveIfExists_cases (root : FsNode) (lookupContractName : string)
    (skipped : list JSONNameResolver.WalkEvent) :
  Forall (JSONNameResolver.passedOver E lookupContractName) skipped ->
  (JSONNameResolver.walkOrder node _contractsDir _contractsDir root = skipped ->
   JSONNameResolver.resolveIfExists E node _contractsDir root lookupContractName = Done None)
  /\ (forall f rest,
        JSONNameResolver.walkOrder node _contractsDir _contractsDir root
        = skipped ++ JSONNameResolver.JsonFile f :: rest ->
        JSONNameResolver.matches E lookupContractName (JSONNameResolver.JsonFile f) ->
        JSONNameResolver.resolveIfExists E node _contractsDir root lookupContractName
        = match JSONNameResolver.readSource E node _contractsDir
                  (replaceFirst ".json" ".sol") f with
          | Done found => Done (Some found)
          | Raise e => Raise e
          end)
  /\ (forall d rest,
        JSONNameResolver.walkOrder node _contractsDir _contractsDir root
        = skipped ++ JSONNameResolver.NoDirectory d :: rest ->
        JSONNameResolver.resolveIfExists E node _contractsDir root lookupContractName
        = Raise (NoDirectoryFound d)).
Proof.
  intros Hskipped. unfold JSONNameResolver.resolveIfExists.
  rewrite traverse_overEvents. split; [|split].
  - intros ->. rewrite <- (app_nil_r skipped), resolve_events_skip by exact Hskipped.
    reflexivity.
  - intros f rest -> Hf. rewrite resolve_events_skip by exact Hskipped. simpl in *.
    unfold JSONNameResolver.onFileOfResolve at 1. rewrite decide_True by exact Hf.
    destruct (JSONNameResolver.readSource E node _contractsDir
                (replaceFirst ".json" ".sol") f); reflexivity.
  - intros d rest ->. rewrite resolve_events_skip by exact Hskipped. reflexivity.
Qed.

(** Among sources that were read, the first whose file has a given base
    name. *)
Lemma first_of_base_name (files : list string) (sources : list ContractSource)
    (name_ : string) :
  Forall2 (fun f cs =>
             JSONNameResolver.readSource E node _contractsDir
               (fun contractPath => contractPath) f = Done cs) files sources ->
  (exists f, f ∈ files /\ basename E f JSONNameResolver.JSON_FILE_EXTENSION = name_) ->
  exists filesBefore f filesAfter sourcesBefore cs sourcesAfter,
    files = filesBefore ++ f :: filesAfter
    /\ sources = sourcesBefore ++ cs :: sourcesAfter
    /\ Forall (fun f0 => basename E f0 JSONNameResolver.JSON_FILE_EXTENSION <> name_) filesBefore
    /\ Forall2 (fun f cs =>
                  JSONNameResolver.readSource E node _contractsDir
                    (fun contractPath => contractPath) f = Done cs) filesBefore sourcesBefore
    /\ basename E f JSONNameResolver.JSON_FILE_EXTENSION = name_
    /\ JSONNameResolver.readSource E node _contractsDir (fun contractPath => contractPath) f
       = Done cs.
Proof.
  induction 1 as [|f cs files sources Hf Hrest IH]; intros (f0 & Hin & Hname);
    [inversion Hin|].
  destruct (decide (basename E f JSONNameResolver.JSON_FILE_EXTENSION = name_)) as [Heq|Hne].
  - exists [], f, files, [], cs, sources. repeat split; auto.
  - apply elem_of_cons in Hin as [->|Hin]; [contradiction|].
    destruct (IH ltac:(eauto))
      as (fb & f1 & fa & sb & cs1 & sa & -> & -> & Hbefore & Hread & Hname1 & Hread1).
    exists (f :: fb), f1, fa, (cs :: sb), cs1, sa. repeat split; auto.
Qed.

End resolver_facts.



(** X14: [resolveIfExists] stops at the first [.json] file whose base
    name is that of the looked-up name.  When all the traversal meets are
    files of other base names, the answer is undefined; when it meets a
    file of that base name after such files, the answer is the source of
    that file, with the first [.json] of its joined path replaced by
    [.sol], whatever comes later in the tree (further matches, directories
    that cannot be listed), or the read error of that file; when it meets a
    directory that cannot be listed after such files, the lookup fails. *)
Theorem resolveIfExists_first_match (E : Collaborators) (node : NodeApi)
    (_contractsDir : string) (root : FsNode) (lookupContractName : string)
    (skipped : list JSONNameResolver.WalkEvent) :
  Forall (JSONNameResolver.passedOver E lookupContractName) skipped ->
  (JSONNameResolver.walkOrder node _contractsDir _contractsDir root = skipped ->
   JSONNameResolver.resolveIfExists E node _contractsDir root lookupContractName = Done None)
  /\ (forall filePath rest,
        JSONNameResolver.walkOrder node _contractsDir _contractsDir root
        = skipped ++ JSONNameResolver.JsonFile filePath :: rest ->
        basename E filePath ".json" = basename E lookupContractName ".json" ->
        JSONNameResolver.resolveIfExists E node _contractsDir root lookupContractName
        = match readFileSync node (pathResolve E (pathJoin node _contractsDir filePath)) with
          | Some source_ =>
              Done (Some {| source := source_;
                            path := replaceFirst ".json" ".sol"
                                      (pathJoin node _contractsDir filePath);
                            absolutePath :=
                              pathResolve E (pathJoin node _contractsDir filePath) |})
          | None =>
              Raise (ReadFailed (pathResolve E (pathJoin node _contractsDir filePath)))
          end)
  /\ (forall dirPath rest,
        JSONNameResolver.walkOrder node _contractsDir _contractsDir root
        = skipped ++ JSONNameResolver.NoDirectory dirPath :: rest ->
        JSONNameResolver.resolveIfExists E node _contractsDir root lookupContractName
        = Raise (NoDirectoryFound dirPath)).
Proof.
  intros Hskipped.
  destruct (resolveIfExists_cases E node _contractsDir root lookupContractName skipped
              Hskipped) as (Hnone & Hfirst & Hlocked).
  split; [exact Hnone|]. split; [|exact Hlocked].
  intros filePath rest Hwalk Hname. rewrite (Hfirst filePath rest Hwalk Hname).
  unfold JSONNameResolver.readSource.
  destruct (readFileSync node (pathResolve E (pathJoin node _contractsDir filePath)));
    reflexivity.
Qed.

Lemma resolveIfExists_first_match_witness :
  JSONNameResolver.resolveIfExists (Demo.env Demo.standardBackend) DemoBundles.node "bundles"
    DemoBundles.root "B.json"
  = Done (Some {| source := "{third}"; path := "bundles/nested/B.sol";
                  absolutePath := "/p/bundles/nested/B.json" |}).
Proof.
  destruct (resolveIfExists_first_match (Demo.env Demo.standardBackend) DemoBundles.node
              "bundles" DemoBundles.root "B.json"
              [JSONNameResolver.JsonFile "A.json"; JSONNameResolver.JsonFile "nested/A.json"])
    as (_ & Hfirst & _).
  - repeat constructor; vm_compute; discriminate.
  - exact (Hfirst "nested/B.json" [JSONNameResolver.NoDirectory "bundles/private"]
             eq_refl eq_refl).
Defined.

(** X15: with [contracts] set to ['*'], a name that the JSON driver
    derives from the listing of its resolver, when it is a fixed point of
    stripping [.json], resolves again through that resolver: to the first
    listed bundle of that base name, which need not be the bundle the name
    came from. *)
Theorem listed_bundles_resolve_by_name (E : Collaborators) (node : NodeApi)
    (_contractsDir : string) (root : FsNode) (this : DriverFields) (name_ : string) :
  JSONNameResolver.getAll E node _contractsDir root = Done (getAllJSON E) ->
  JSON_FILE_EXTENSION E = ".json" ->
  _specifiedContracts this = ALL_CONTRACTS_IDENTIFIER ->
  (forall filePath,
      basename E (pathJoin node _contractsDir filePath) ".json"
      = basename E filePath ".json") ->
  name_ ∈ JSONCompiler.getContractFileNamesToCompile E this ->
  basename E name_ ".json" = name_ ->
  exists before first after,
    getAllJSON E = before ++ first :: after
    /\ Forall (fun contractSource_ => basename E (path contractSource_) ".json" <> name_) before
    /\ basename E (path first) ".json" = name_
    /\ JSONNameResolver.resolveIfExists E node _contractsDir root name_
       = Done (Some {| source := source first;
                       path := replaceFirst ".json" ".sol" (path first);
                       absolutePath := absolutePath first |}).
Proof.
  intros Hall Hext Hstar Hjoin Hname Hidem.
  unfold JSONCompiler.getContractFileNamesToCompile in Hname. rewrite Hstar, Hext in Hname.
  apply list_elem_of_fmap in Hname as (cs & -> & Hcs).
  unfold JSONNameResolver.getAll in Hall. rewrite traverse_overEvents in Hall.
  destruct (JSONNameResolver.overEvents _ _ []) as [[isComplete found]|e] eqn:Hrun;
    [|discriminate].
  injection Hall as ->.
  apply getAll_events in Hrun as (files & found & Hwalk & Hread & Hfound & _).
  simpl in Hfound. subst found.
  assert (exists f, f ∈ files
                    /\ basename E f JSONNameResolver.JSON_FILE_EXTENSION
                       = basename E (path cs) ".json") as Hsome.
  { apply list_elem_of_lookup in Hcs as [i Hi].
    destruct (Forall2_lookup_r _ _ _ _ _ Hread Hi) as (f & Hf & Hfcs).
    exists f. split; [eapply list_elem_of_lookup_2; exact Hf|].
    apply readSource_fields in Hfcs as (_ & -> & _). symmetry. apply Hjoin. }
  destruct (first_of_base_name E node _contractsDir files (getAllJSON E)
              (basename E (path cs) ".json") Hread Hsome)
    as (fb & f1 & fa & sb & cs1 & sa & -> & Hsplit & Hbefore & Hreadb & Hname1 & Hread1).
  exists sb, cs1, sa. split; [exact Hsplit|].
  pose proof (proj1 (readSource_fields E node _contractsDir _ _ _) Hread1)
    as (Hsrc1 & Hpath1 & Habs1).
  split; [|split].
  - clear -Hbefore Hreadb Hjoin.
    induction Hreadb as [|f c fb sb Hf _ IH]; [constructor|].
    apply Forall_cons in Hbefore as [Hne Hbefore]. constructor; [|apply IH; exact Hbefore].
    apply readSource_fields in Hf as (_ & -> & _). rewrite Hjoin. exact Hne.
  - rewrite Hpath1, Hjoin. exact Hname1.
  - destruct (resolveIfExists_cases E node _contractsDir root
                (basename E (path cs) ".json") (map JSONNameResolver.JsonFile fb))
      as (_ & Hfirst & _).
    + apply Forall_fmap. eapply Forall_impl; [exact Hbefore|].
      intros f0 Hne. split; [exact I|].
      unfold JSONNameResolver.matches, JSONNameResolver.JSON_FILE_EXTENSION in *.
      rewrite Hidem. exact Hne.
    + rewrite (Hfirst f1 (map JSONNameResolver.JsonFile fa)).
      * unfold JSONNameResolver.readSource. rewrite Hsrc1, Hpath1, Habs1. reflexivity.
      * rewrite Hwalk, map_app. reflexivity.
      * unfold JSONNameResolver.matches, JSONNameResolver.JSON_FILE_EXTENSION in *.
        rewrite Hidem. exact Hname1.
Qed.

Lemma listed_bundles_resolve_by_name_witness :
  exists before first after,
    getAllJSON DemoBundles.env = before ++ first :: after
    /\ Forall (fun contractSource_ =>
                 basename DemoBundles.env (path contractSource_) ".json" <> "A") before
    /\ basename DemoBundles.env (path first) ".json" = "A"
    /\ JSONNameResolver.resolveIfExists DemoBundles.env DemoBundles.node "bundles"
         DemoBundles.readable "A"
       = Done (Some {| source := source first;
                       path := replaceFirst ".json" ".sol" (path first);
                       absolutePath := absolutePath first |}).
Proof.
  apply (listed_bundles_resolve_by_name DemoBundles.env DemoBundles.node "bundles"
           DemoBundles.readable DemoBundles.allBundles "A").
  - vm_compute. reflexivity.
  - reflexivity.
  - reflexivity.
  - intros filePath. reflexivity.
  - vm_compute. right. left.
  - reflexivity.
Defined.

(** ** The command line *)

Lemma splitOnComma_nonempty (s : string) : splitOnComma s <> [].
Proof.
  destruct s as [|c s]; simpl; [discriminate|].
  destruct (Ascii.eqb c ","); [discriminate|].
  destruct (splitOnComma s); discriminate.
Qed.

Lemma concat_cons_piece (c : ascii) (piece : string) (pieces : list string) :
  String.concat "," (String c piece :: pieces) = String c (String.concat "," (piece :: pieces)).
Proof. destruct pieces; reflexivity. Qed.

Lemma splitOnComma_concat (s : string) : String.concat "," (splitOnComma s) = s.
Proof.
  induction s as [|c s IH]; simpl; [reflexivity|].
  destruct (Ascii.eqb c ",") eqn:Hc.
  - apply Ascii.eqb_eq in Hc as ->.
    pose proof (splitOnComma_nonempty s) as Hne.
    destruct (splitOnComma s) as [|piece pieces]; [contradiction|].
    simpl in *. rewrite IH. reflexivity.
  - pose proof (splitOnComma_nonempty s) as Hne.
    destruct (splitOnComma s) as [|piece pieces]; [contradiction|].
    rewrite concat_cons_piece, IH. reflexivity.
Qed.

Lemma splitOnComma_pieces (s : string) :
  forall piece, piece ∈ splitOnComma s -> hasComma piece = false.
Proof.
  induction s as [|c s IH]; simpl; intros piece Hin.
  - apply list_elem_of_singleton in Hin as ->. reflexivity.
  - destruct (Ascii.eqb c ",") eqn:Hc.
    + apply elem_of_cons in Hin as [->|Hin]; [reflexivity|auto].
    + pose proof (splitOnComma_nonempty s) as Hne.
      destruct (splitOnComma s) as [|first pieces]; [contradiction|].
      apply elem_of_cons in Hin as [->|Hin].
      * simpl. rewrite Hc. apply IH. left.
      * apply IH. right. exact Hin.
Qed.

(** X16: a command-line flag beats [compiler.json], which beats the
    default.  The artifacts directory is the flag, else the key of the file,
    else the default of the driver (resolved for the Solidity driver, as
    is for the JSON driver); both commands read the contract selection
    alike: without the flag it is the key of the file or all contracts,
    with ['*'] it is all contracts whatever the file says, and with any
    other value it is the list of the pieces between its commas, at least
    one and none with a comma, which joined by commas give the value
    back. *)
Theorem command_line_overrides_file (E : Collaborators) (SOLCJS_PATH : option string)
    (fileConfig : CompilerOptions.t) (argv : Cli.BaseArgsType) :
  let this := Cli.compiler E SOLCJS_PATH fileConfig argv in
  _artifactsDir this
  = default (default (pathResolve E "artifacts") (CompilerOptions.artifactsDir fileConfig))
            (Cli.artifactsDir argv)
  /\ _artifactsDir (Cli.jsonCompiler E SOLCJS_PATH fileConfig argv)
     = default (default "artifacts" (CompilerOptions.artifactsDir fileConfig))
               (Cli.artifactsDir argv)
  /\ _specifiedContracts (Cli.jsonCompiler E SOLCJS_PATH fileConfig argv)
     = _specifiedContracts this
  /\ match Cli.contracts argv with
     | None =>
         _specifiedContracts this
         = default ALL_CONTRACTS_IDENTIFIER (CompilerOptions.contracts fileConfig)
     | Some given =>
         if decide (given = "*")
         then _specifiedContracts this = ALL_CONTRACTS_IDENTIFIER
         else exists names,
                _specifiedContracts this = ContractNames names
                /\ Compiler.getContractNamesToCompile E this = names
                /\ String.concat "," names = given
                /\ names <> []
                /\ forall n, n ∈ names -> hasComma n = false
     end.
Proof.
  cbv zeta. unfold Cli.compiler, Cli.jsonCompiler, Compiler.new, JSONCompiler.new, construct,
    Compiler.DEFAULT_artifactsDir. simpl.
  split; [destruct (Cli.artifactsDir argv); reflexivity|].
  split; [destruct (Cli.artifactsDir argv); reflexivity|].
  split; [reflexivity|].
  unfold Cli.contractsOf, Compiler.getContractNamesToCompile. simpl.
  unfold Cli.contractsOf.
  destruct (Cli.contracts argv) as [given|]; [|reflexivity].
  destruct (decide (given = "*")) as [->|Hne]; [reflexivity|].
  exists (splitOnComma given). simpl.
  split; [reflexivity|]. split; [reflexivity|].
  split; [apply splitOnComma_concat|].
  split; [apply splitOnComma_nonempty|apply splitOnComma_pieces].
Qed.
